(** * Dependency-graph visualizer (stage 4): graph construction engine

    A shallow embedding of [src/comit_4.py] (class [DependencyVisualizer]):
    the text-fixture parser, the .nuspec dependency extraction, the forward
    and reverse recursive traversals, the reverse index, the level analysis
    and the top-level [run], followed by the properties of the
    specification that were checked against them.

    Conventions of the embedding.
    - A Python [str] is a [string]; every [ascii] stands for the code point
      of the same number, so the model covers texts whose code points are
      below 256.
    - A Python [int] is a [Z].
    - A Python [dict] is an insertion-ordered association list ([PyDict]).
    - A Python [set] of names is a [gset string].
    - Printing while the graph is built is recorded as a list of
      [Event]s in the state; the lines of the display functions are not.
    - Recursion that Python bounds only by its call stack takes a [fuel]
      argument counting nested calls; [None] means "fuel exhausted". In
      [run] exhausted fuel in the level loop is the [RecursionError] that
      the handler of [run] catches. *)

From Stdlib Require Import ZArith String Ascii.
From stdpp Require Import gmap strings list sets.

Local Open Scope string_scope.
Local Open Scope Z_scope.
Set Warnings "-clear-no-such-hyp".

(** ** Python string operations *)

Module PyStr.

(** [c.isspace()] for code points below 256. *)
Definition is_space (c : ascii) : bool :=
  let n := N_of_ascii c in
  ((9 <=? n) && (n <=? 13) || (28 <=? n) && (n <=? 32)
   || (n =? 133) || (n =? 160))%N.

(** [c.lower()] for code points below 256. *)
Definition lower_char (c : ascii) : ascii :=
  let n := N_of_ascii c in
  if ((65 <=? n) && (n <=? 90)
      || (192 <=? n) && (n <=? 222) && negb (n =? 215))%N
  then ascii_of_N (n + 32) else c.

(** [s.lower()] *)
Fixpoint lower (s : string) : string :=
  match s with
  | EmptyString => EmptyString
  | String c r => String (lower_char c) (lower r)
  end.

(** [s.startswith(p)] *)
Fixpoint starts_with (p s : string) : bool :=
  match p, s with
  | EmptyString, _ => true
  | String _ _, EmptyString => false
  | String a p', String b s' => Ascii.eqb a b && starts_with p' s'
  end.

(** [sub in s] *)
Fixpoint contains (sub s : string) : bool :=
  starts_with sub s ||
  match s with
  | EmptyString => false
  | String _ r => contains sub r
  end.

(** [s.lstrip()] *)
Fixpoint lstrip (s : string) : string :=
  match s with
  | EmptyString => EmptyString
  | String c r => if is_space c then lstrip r else s
  end.

(** [s.rstrip()] *)
Fixpoint rstrip (s : string) : string :=
  match s with
  | EmptyString => EmptyString
  | String c r =>
      match rstrip r with
      | EmptyString => if is_space c then EmptyString else String c EmptyString
      | r' => String c r'
      end
  end.

(** [s.strip()] *)
Definition strip (s : string) : string := rstrip (lstrip s).

(** Prepend a character to the first piece of a list of pieces. *)
Definition push_first (c : ascii) (parts : list string) : list string :=
  match parts with
  | [] => [String c EmptyString]
  | p :: ps => String c p :: ps
  end.

(** [s.split(sep)] for a one-character separator. *)
Fixpoint split_char (sep : ascii) (s : string) : list string :=
  match s with
  | EmptyString => [EmptyString]
  | String c r =>
      if Ascii.eqb c sep then EmptyString :: split_char sep r
      else push_first c (split_char sep r)
  end.

(** [s.split('->')]: leftmost, non-overlapping occurrences. *)
Fixpoint split_arrow (s : string) : list string :=
  match s with
  | EmptyString => [EmptyString]
  | String c r =>
      match c, r with
      | "-"%char, String ">"%char r' => EmptyString :: split_arrow r'
      | _, _ => push_first c (split_arrow r)
      end
  end.

(** [s.split()]: maximal runs of non-whitespace characters. The
    accumulator [cur] is the run being read, [None] between runs. *)
Fixpoint split_ws_from (cur : option string) (s : string) : list string :=
  match s with
  | EmptyString => match cur with Some w => [w] | None => [] end
  | String c r =>
      if is_space c then
        match cur with
        | Some w => w :: split_ws_from None r
        | None => split_ws_from None r
        end
      else
        split_ws_from
          (Some (match cur with Some w => w ++ String c EmptyString
                           | None => String c EmptyString end)) r
  end.

Definition split_ws (s : string) : list string := split_ws_from None s.

(** Truth value of a string: [bool(s)]. *)
Definition truthy (s : string) : bool :=
  match s with EmptyString => false | _ => true end.

(** [sep.join(parts)] *)
Fixpoint join (sep : string) (parts : list string) : string :=
  match parts with
  | [] => EmptyString
  | [p] => p
  | p :: ps => p ++ sep ++ join sep ps
  end.

End PyStr.

(** ** Python dictionaries (insertion ordered) *)

Module PyDict.

Definition t (V : Type) : Type := list (string * V).

Definition empty {V} : t V := [].

(** [d.get(k)] as an option; [None] when [k] is not a key. *)
Fixpoint find {V} (d : t V) (k : string) : option V :=
  match d with
  | [] => None
  | (k', v) :: r => if String.eqb k' k then Some v else find r k
  end.

(** [d.get(k, dflt)] *)
Definition get {V} (d : t V) (k : string) (dflt : V) : V :=
  match find d k with Some v => v | None => dflt end.

(** [k in d] *)
Definition mem {V} (d : t V) (k : string) : bool :=
  match find d k with Some _ => true | None => false end.

(** [d[k] = v]: an existing key keeps its position, a new key goes
    last. *)
Fixpoint set {V} (d : t V) (k : string) (v : V) : t V :=
  match d with
  | [] => [(k, v)]
  | (k', v') :: r =>
      if String.eqb k' k then (k', v) :: r else (k', v') :: set r k v
  end.

(** [list(d.keys())] *)
Definition keys {V} (d : t V) : list string := map fst d.

(** [d[k].append(x)] on a [defaultdict(list)]. *)
Fixpoint append {V} (d : t (list V)) (k : string) (x : V) : t (list V) :=
  match d with
  | [] => [(k, [x])]
  | (k', l) :: r =>
      if String.eqb k' k then (k', (l ++ [x])%list) :: r
      else (k', l) :: append r k x
  end.

End PyDict.

Abbreviation names := (list string) (only parsing).
Abbreviation graph := (PyDict.t (list string)) (only parsing).

(** ** The plain-text fixture: [TestRepository] *)

Module TestRepository.

Definition newline : ascii := "010"%char.

(** The body of the [for line in lines] loop of [load_test_repository]:
    a line [NAME -> DEP1 DEP2 ...] sets the entry of [NAME]; a line
    without [->], or with more than one, is ignored. *)
Definition load_line (dependency_graph : graph) (line : string) : graph :=
  let line := PyStr.strip line in
  if PyStr.contains "->" line then
    match PyStr.split_arrow line with
    | [part0; part1] =>
        let package := PyStr.strip part0 in
        let dependencies :=
          map PyStr.strip
            (List.filter (fun dep => PyStr.truthy (PyStr.strip dep))
               (PyStr.split_ws part1)) in
        PyDict.set dependency_graph package dependencies
    | _ => dependency_graph
    end
  else dependency_graph.

(** [load_test_repository] on the text read from the file; [None] is
    the exception raised for a fixture without any usable line. *)
Definition load_test_repository (content : string) : option graph :=
  let lines := PyStr.split_char newline (PyStr.strip content) in
  match fold_left load_line lines PyDict.empty with
  | [] => None
  | dependency_graph => Some dependency_graph
  end.

Definition get_package_dependencies (dependency_graph : graph)
    (package_name : string) : names :=
  PyDict.get dependency_graph package_name [].

Definition get_all_packages (dependency_graph : graph) : names :=
  PyDict.keys dependency_graph.

(** The inner loop [for dep in dependencies:
    reverse_graph[dep].append(package)]. *)
Definition add_dependents (package : string) (dependencies : names)
    (reverse_graph : graph) : graph :=
  fold_left (fun rg dep => PyDict.append rg dep package)
    dependencies reverse_graph.

(** The loop over [dependency_graph.items()] that fills a reverse
    graph. *)
Definition invert_into (dependency_graph reverse_graph : graph) : graph :=
  fold_left (fun rg item => add_dependents (fst item) (snd item) rg)
    dependency_graph reverse_graph.

Definition build_reverse_dependencies (dependency_graph : graph) : graph :=
  invert_into dependency_graph PyDict.empty.

End TestRepository.

(** ** .nuspec documents: [NuGetClient] and [OfflineNuGetRepository] *)

(** An element of a parsed XML document, as [xml.etree.ElementTree] gives
    it: the tag (written [{uri}local] inside a namespace), the attributes,
    the text and the child elements in document order. *)
#[warnings="-register-all"]
Inductive Element : Type :=
  Elem (tag : string) (attrib : list (string * string))
       (text : option string) (children : list Element).

Definition tag_of (e : Element) : string :=
  let 'Elem t _ _ _ := e in t.
Definition attrib_of (e : Element) : list (string * string) :=
  let 'Elem _ a _ _ := e in a.
Definition text_of (e : Element) : option string :=
  let 'Elem _ _ x _ := e in x.
Definition children_of (e : Element) : list Element :=
  let 'Elem _ _ _ c := e in c.

(** [list(set(xs))]: the elements of [xs] without repetition, in the
    iteration order of a Python set, which the language leaves open. *)
Record SetOrder : Type := {
  list_of_set : names -> names;
  list_of_set_NoDup : forall xs, NoDup (list_of_set xs);
  list_of_set_elem : forall xs x, x ∈ list_of_set xs <-> x ∈ xs
}.

Module Nuspec.

(** [s.strip('{')] *)
Fixpoint lstrip_brace (s : string) : string :=
  match s with
  | String "{"%char r => lstrip_brace r
  | _ => s
  end.

Fixpoint rstrip_brace (s : string) : string :=
  match s with
  | EmptyString => EmptyString
  | String c r =>
      match rstrip_brace r with
      | EmptyString =>
          if Ascii.eqb c "{"%char then EmptyString else String c EmptyString
      | r' => String c r'
      end
  end.

(** The namespace of the document: [root.tag.split('}')[0].strip('{')]
    when the tag has a ["}"], the empty string otherwise. *)
Definition namespace (root : Element) : string :=
  if PyStr.contains "}" (tag_of root) then
    match PyStr.split_char "}"%char (tag_of root) with
    | part0 :: _ => rstrip_brace (lstrip_brace part0)
    | [] => EmptyString
    end
  else EmptyString.

(** The tag that the path [ns:local] (or [local] without a namespace)
    selects. *)
Definition qualified (ns local : string) : string :=
  if PyStr.truthy ns then "{" ++ ns ++ "}" ++ local else local.

(** [e.findall(path)]: the direct children with that tag, in order. *)
Definition findall (ns local : string) (e : Element) : list Element :=
  List.filter (fun c => String.eqb (tag_of c) (qualified ns local))
    (children_of e).

(** [e.find(path)]: the first such child. *)
Definition find (ns local : string) (e : Element) : option Element :=
  head (findall ns local e).

(** [dep.get('id')] *)
Definition get_id (dep : Element) : option string :=
  PyDict.find (attrib_of dep) "id".

(** The ids appended by one [for dep in ...: if dep_id: ...] loop. *)
Definition dependency_ids (deps : list Element) : names :=
  flat_map (fun dep =>
              match get_id dep with
              | Some dep_id => if PyStr.truthy dep_id then [dep_id] else []
              | None => []
              end) deps.

(** The list [dependencies] accumulated from a [<dependencies>]
    element: the ids inside every [<group>] first, then the ids of the
    dependencies outside any group. *)
Definition collect (ns : string) (deps_element : Element) : names :=
  (flat_map (fun group => dependency_ids (findall ns "dependency" group))
     (findall ns "group" deps_element)
   ++ dependency_ids (findall ns "dependency" deps_element))%list.

(** The list [dependencies] of [parse_nuspec_dependencies], before the
    conversion to a set. *)
Definition listed_dependencies (root : Element) : names :=
  let ns := namespace root in
  match find ns "metadata" root with
  | Some metadata =>
      match find ns "dependencies" metadata with
      | Some deps_element => collect ns deps_element
      | None => []
      end
  | None => []
  end.

(** [NuGetClient.parse_nuspec_dependencies] on a parsed document. *)
Definition parse_nuspec_dependencies (so : SetOrder) (root : Element)
    : names :=
  list_of_set so (listed_dependencies root).

(** The dictionary [self.packages] of [OfflineNuGetRepository]. A key
    is the text of an [<id>] element, which is [None] for an element
    without text: such a package is filed under the key [None], which
    no lookup by name finds. *)
Definition package_dict : Type := list (option string * names).

(** Equality of two keys: [None] is equal to itself only. *)
Definition same_key (a b : option string) : bool :=
  match a, b with
  | Some x, Some y => String.eqb x y
  | None, None => true
  | _, _ => false
  end.

Fixpoint find_package (d : package_dict) (k : option string)
    : option names :=
  match d with
  | [] => None
  | (k', v) :: r => if same_key k' k then Some v else find_package r k
  end.

(** [self.packages[k] = v] *)
Fixpoint set_package (d : package_dict) (k : option string) (v : names)
    : package_dict :=
  match d with
  | [] => [(k, v)]
  | (k', v') :: r =>
      if same_key k' k then (k', v) :: r else (k', v') :: set_package r k v
  end.

(** [OfflineNuGetRepository.parse_nuspec_file] on a parsed document;
    [None] is one of its exceptions. The name is [package_id.text]. *)
Definition parse_nuspec_file (so : SetOrder) (root : Element)
    : option (option string * names) :=
  let ns := namespace root in
  match find ns "metadata" root with
  | None => None
  | Some metadata =>
      match find ns "id" metadata with
      | None => None
      | Some package_id =>
          let package_name := text_of package_id in
          let dependencies :=
            match find ns "dependencies" metadata with
            | Some deps_element => collect ns deps_element
            | None => []
            end in
          Some (package_name, list_of_set so dependencies)
      end
  end.

(** [OfflineNuGetRepository.load_offline_repository] on the documents of
    the [*.nuspec] files found ([None] for a file that does not parse);
    the result [None] is the exception for an unusable directory. *)
Definition load_offline_repository (so : SetOrder)
    (nuspec_files : list (option Element)) : option package_dict :=
  match nuspec_files with
  | [] => None
  | _ =>
      let packages :=
        fold_left
          (fun packages nuspec_file =>
             match nuspec_file ≫= parse_nuspec_file so with
             | Some (package_name, dependencies) =>
                 set_package packages package_name dependencies
             | None => packages
             end)
          nuspec_files [] in
      match packages with
      | [] => None
      | _ => Some packages
      end
  end.

(** [OfflineNuGetRepository.get_package_dependencies]:
    [self.packages.get(package_name, [])] for a name. *)
Definition get_package_dependencies (packages : package_dict)
    (package_name : string) : names :=
  default [] (find_package packages (Some package_name)).

(** [OfflineNuGetRepository.get_all_packages] *)
Definition get_all_packages (packages : package_dict)
    : list (option string) :=
  map fst packages.

(** A dictionary with names as keys, as a dictionary of packages. *)
Definition of_graph (g : graph) : package_dict :=
  map (fun item => (Some (fst item), snd item)) g.

(** The dictionary of packages as a dictionary with names as keys, when
    every package has a name. *)
Definition named (packages : package_dict) : option graph :=
  mapM (fun item => name ← fst item; Some (name, snd item)) packages.

End Nuspec.

(** ** Configuration, environment and state *)

Inductive WorkMode : Type := Online | Offline.

(** [DependencyVisualizer.Config] after [validate]: the work mode is one
    of the two accepted values. *)
Record Config : Type := {
  package_name : string;
  repository_url : option string;
  test_repo_path : option string;
  work_mode : WorkMode;
  max_depth : option Z;
  filter_substring : option string;
  reverse_mode : bool
}.

(** What [test_repo_path] designates on disk. *)
Inductive RepoPath : Type :=
  | RegularFile (content : string)
  | Directory (nuspec_files : list (option Element))
  | Missing.

(** The outside world. The registry and the file system are read again
    at every lookup, so both are indexed by the number of reads made so
    far. [registry url t name] is the parsed .nuspec of the latest version
    of [name], [None] when a request fails or the document is malformed. *)
Record World : Type := {
  registry : string -> nat -> string -> option Element;
  file_system : string -> nat -> RepoPath;
  set_order : SetOrder
}.

Inductive Error : Type :=
  | ReverseOnline
  | NoNuspecInDirectory
  | NotFileOrDirectory
  | NoRepositoryPath
  | OfflineLoadFailed
  | TestLoadFailed
  | GraphBuildError (cause : Error)
  | RecursionError.

Inductive RepoType : Type := test_format | nuspec_offline.

(** The lines printed while the graph is built. *)
Inductive Event : Type :=
  | CyclePrinted (chain : names)
  | SkipPrinted (package : string)
  | AnalysisPrinted (package : string) (depth : Z)
  | LookupErrorPrinted (package : string)
  | BuildingCompleteGraph
  | GraphBuilt (packages : nat) (reverse_links : nat).

(** The fields of [DependencyVisualizer] that the engine reads and
    writes, with the read counter of the world and the printed lines. *)
Record State : Type := {
  dependency_graph : graph;
  reverse_dependency_graph : graph;
  visited_packages : gset string;
  cycle_detected : bool;
  clock : nat;
  output : list Event
}.

(** The state set up by [__init__]. *)
Definition initial_state (t : nat) : State :=
  {| dependency_graph := PyDict.empty;
     reverse_dependency_graph := PyDict.empty;
     visited_packages := ∅;
     cycle_detected := false;
     clock := t;
     output := [] |}.

Definition print (e : Event) (st : State) : State :=
  {| dependency_graph := dependency_graph st;
     reverse_dependency_graph := reverse_dependency_graph st;
     visited_packages := visited_packages st;
     cycle_detected := cycle_detected st;
     clock := clock st;
     output := (output st ++ [e])%list |}.

Definition tick (st : State) : State :=
  {| dependency_graph := dependency_graph st;
     reverse_dependency_graph := reverse_dependency_graph st;
     visited_packages := visited_packages st;
     cycle_detected := cycle_detected st;
     clock := S (clock st);
     output := output st |}.

Definition set_cycle_detected (st : State) : State :=
  {| dependency_graph := dependency_graph st;
     reverse_dependency_graph := reverse_dependency_graph st;
     visited_packages := visited_packages st;
     cycle_detected := true;
     clock := clock st;
     output := output st |}.

Definition add_visited (package : string) (st : State) : State :=
  {| dependency_graph := dependency_graph st;
     reverse_dependency_graph := reverse_dependency_graph st;
     visited_packages := visited_packages st ∪ {[package]};
     cycle_detected := cycle_detected st;
     clock := clock st;
     output := output st |}.

Definition set_dependency_graph (g : graph) (st : State) : State :=
  {| dependency_graph := g;
     reverse_dependency_graph := reverse_dependency_graph st;
     visited_packages := visited_packages st;
     cycle_detected := cycle_detected st;
     clock := clock st;
     output := output st |}.

Definition set_reverse_dependency_graph (g : graph) (st : State) : State :=
  {| dependency_graph := dependency_graph st;
     reverse_dependency_graph := g;
     visited_packages := visited_packages st;
     cycle_detected := cycle_detected st;
     clock := clock st;
     output := output st |}.

(** [self.dependency_graph[package] = deps] *)
Definition record_node (package : string) (deps : names) (st : State)
    : State :=
  set_dependency_graph (PyDict.set (dependency_graph st) package deps) st.

(** A package source as the traversal sees it: the body of the [try] of
    [get_dependencies] at a given read, [None] when it raises. *)
Definition Source : Type := nat -> string -> option names.

(** [detect_repository_type] *)
Definition detect_repository_type (p : RepoPath) : Error + RepoType :=
  match p with
  | RegularFile _ => inr test_format
  | Directory [] => inl NoNuspecInDirectory
  | Directory _ => inr nuspec_offline
  | Missing => inl NotFileOrDirectory
  end.

(** The body of the [try] of [get_dependencies], for a given
    configuration and world; [None] stands for any exception raised in
    it (a missing URL or path, a failed request, an unusable
    repository). *)
Definition source_of (config : Config) (w : World) : Source :=
  fun t package =>
    match work_mode config with
    | Online =>
        url ← repository_url config;
        root ← registry w url t package;
        Some (Nuspec.parse_nuspec_dependencies (set_order w) root)
    | Offline =>
        path ← test_repo_path config;
        let repo := file_system w path t in
        match detect_repository_type repo, repo with
        | inr nuspec_offline, Directory nuspec_files =>
            packages ← Nuspec.load_offline_repository (set_order w)
                         nuspec_files;
            Some (Nuspec.get_package_dependencies packages package)
        | inr test_format, RegularFile content =>
            test_repo ← TestRepository.load_test_repository content;
            Some (TestRepository.get_package_dependencies test_repo package)
        | _, _ => None
        end
    end.

(** ** The graph builder *)

(** [for x in xs: body(x)] over a state, stopping when a call runs out
    of fuel. *)
Fixpoint for_each (body : string -> State -> option State) (xs : names)
    (st : State) : option State :=
  match xs with
  | [] => Some st
  | x :: rest =>
      match body x st with
      | Some st' => for_each body rest st'
      | None => None
      end
  end.

(** [x in xs] for a list of names. *)
Definition in_path (x : string) (xs : names) : bool :=
  existsb (String.eqb x) xs.

Section Builder.

Variable config : Config.
Variable source : Source.

(** [self.config.max_depth and current_depth >= self.config.max_depth] *)
Definition depth_limit_reached (current_depth : Z) : bool :=
  match max_depth config with
  | Some d => negb (d =? 0) && (d <=? current_depth)
  | None => false
  end.

(** [should_skip_package] *)
Definition should_skip_package (package_name : string) : bool :=
  match filter_substring config with
  | Some f =>
      PyStr.truthy f
      && PyStr.contains (PyStr.lower f) (PyStr.lower package_name)
  | None => false
  end.

(** [get_dependencies]: a failed lookup is printed and answered by the
    empty list. *)
Definition get_dependencies (package_name : string) (st : State)
    : names * State :=
  match source (clock st) package_name with
  | Some dependencies => (dependencies, tick st)
  | None => ([], print (LookupErrorPrinted package_name) (tick st))
  end.

(** The lookup of the reverse traversal:
    [self.reverse_dependency_graph.get(start_package, [])]. *)
Definition get_dependents (package_name : string) (st : State)
    : names * State :=
  (PyDict.get (reverse_dependency_graph st) package_name [], st).

(** [bfs_build_dependency_graph]. [get_dependencies] catches every
    exception itself, so the handler around the loop is never entered;
    the recursion limit of the interpreter is not modelled. *)
Fixpoint bfs_build_dependency_graph (fuel : nat) (start_package : string)
    (current_depth : Z) (path : names) (st : State) : option State :=
  match fuel with
  | O => None
  | S fuel' =>
      if depth_limit_reached current_depth then Some st
      else if in_path start_package path then
        Some (set_cycle_detected
                (print (CyclePrinted (path ++ [start_package])%list) st))
      else if should_skip_package start_package then
        Some (print (SkipPrinted start_package) st)
      else if bool_decide (start_package ∈ visited_packages st) then
        Some st
      else
        let st := add_visited start_package st in
        let st := print (AnalysisPrinted start_package current_depth) st in
        let '(dependencies, st) := get_dependencies start_package st in
        let st := record_node start_package dependencies st in
        for_each
          (fun dep =>
             bfs_build_dependency_graph fuel' dep (current_depth + 1)
               (path ++ [start_package])%list)
          dependencies st
  end.

(** [bfs_build_reverse_dependency_graph] *)
Fixpoint bfs_build_reverse_dependency_graph (fuel : nat)
    (start_package : string) (current_depth : Z) (path : names)
    (st : State) : option State :=
  match fuel with
  | O => None
  | S fuel' =>
      if depth_limit_reached current_depth then Some st
      else if in_path start_package path then
        Some (set_cycle_detected
                (print (CyclePrinted (path ++ [start_package])%list) st))
      else if should_skip_package start_package then
        Some (print (SkipPrinted start_package) st)
      else if bool_decide (start_package ∈ visited_packages st) then
        Some st
      else
        let st := add_visited start_package st in
        let st := print (AnalysisPrinted start_package current_depth) st in
        let '(dependents, st) := get_dependents start_package st in
        let st := record_node start_package dependents st in
        for_each
          (fun dependent =>
             bfs_build_reverse_dependency_graph fuel' dependent
               (current_depth + 1) (path ++ [start_package])%list)
          dependents st
  end.

(** The two traversals differ only in the lookup. [traverse] is their
    common shape, used to reason about both at once. *)
Fixpoint traverse (lookup : string -> State -> names * State)
    (fuel : nat) (start_package : string) (current_depth : Z)
    (path : names) (st : State) : option State :=
  match fuel with
  | O => None
  | S fuel' =>
      if depth_limit_reached current_depth then Some st
      else if in_path start_package path then
        Some (set_cycle_detected
                (print (CyclePrinted (path ++ [start_package])%list) st))
      else if should_skip_package start_package then
        Some (print (SkipPrinted start_package) st)
      else if bool_decide (start_package ∈ visited_packages st) then
        Some st
      else
        let st := add_visited start_package st in
        let st := print (AnalysisPrinted start_package current_depth) st in
        let '(found, st) := lookup start_package st in
        let st := record_node start_package found st in
        for_each
          (fun next =>
             traverse lookup fuel' next (current_depth + 1)
               (path ++ [start_package])%list)
          found st
  end.

End Builder.

(** ** Level analysis *)

(** [calculate_dependency_level] on the finished graph. It is called on
    keys of the graph only (the loop of [display_detailed_analysis], and
    the guard [dep in self.dependency_graph]). *)
Fixpoint calculate_dependency_level (fuel : nat) (g : graph)
    (package : string) : option Z :=
  match fuel with
  | O => None
  | S fuel' =>
      match PyDict.get g package [] with
      | [] => Some 0
      | deps =>
          max_child_level ←
            foldl (fun acc dep =>
                     max_child_level ← acc;
                     if PyDict.mem g dep then
                       child_level ← calculate_dependency_level fuel' g dep;
                       Some (Z.max max_child_level child_level)
                     else Some max_child_level)
              (Some 0) deps;
          Some (max_child_level + 1)
      end
  end.

(** ** Validation of the configuration *)

(** [DependencyVisualizer.Config] as [create_config] fills it from the
    command line: the strings are strings and the depth is an integer
    (the argument parser sees to that), any of them may be absent. *)
Record RawConfig : Type := {
  raw_package_name : option string;
  raw_repository_url : option string;
  raw_test_repo_path : option string;
  raw_work_mode : option string;
  raw_max_depth : option Z;
  raw_filter_substring : option string;
  raw_reverse_mode : bool
}.

(** The messages that [validate] can append to [errors]. *)
Inductive ConfigError : Type :=
  | PackageNameMissing
  | PackageNameBlank
  | NoSourceGiven
  | TwoSourcesGiven
  | UrlBlank
  | UrlWithoutScheme
  | PathBlank
  | PathNotFound (path : string)
  | UnknownWorkMode
  | DepthNotPositive.

(** Truth value of an optional string: [None] and the empty string are
    false. *)
Definition given (x : option string) : bool :=
  match x with Some s => PyStr.truthy s | None => false end.

(** [Config.validate]: the list of errors and the configuration as the
    method leaves it (it fills in the work mode when none was given).
    [path_exists] is [os.path.exists]. The branches that test the types
    of the fields cannot be taken on parsed arguments and are left out. *)
Definition validate (path_exists : string -> bool) (c : RawConfig)
    : list ConfigError * RawConfig :=
  let errors :=
    (match raw_package_name c with
     | None => [PackageNameMissing]
     | Some name =>
         if negb (PyStr.truthy name) then [PackageNameMissing]
         else if negb (PyStr.truthy (PyStr.strip name)) then [PackageNameBlank]
         else []
     end
     ++ (if negb (given (raw_repository_url c))
            && negb (given (raw_test_repo_path c))
         then [NoSourceGiven] else [])
     ++ (if given (raw_repository_url c) && given (raw_test_repo_path c)
         then [TwoSourcesGiven] else [])
     ++ match raw_repository_url c with
        | Some url =>
            if negb (PyStr.truthy url) then []
            else if negb (PyStr.truthy (PyStr.strip url)) then [UrlBlank]
            else if negb (PyStr.starts_with "http://" url
                          || PyStr.starts_with "https://" url)
                 then [UrlWithoutScheme]
            else []
        | None => []
        end
     ++ match raw_test_repo_path c with
        | Some path =>
            if negb (PyStr.truthy path) then []
            else if negb (PyStr.truthy (PyStr.strip path)) then [PathBlank]
            else if negb (path_exists path) then [PathNotFound path]
            else []
        | None => []
        end
     ++ match raw_work_mode c with
        | Some mode =>
            if PyStr.truthy mode
               && negb (String.eqb mode "online" || String.eqb mode "offline")
            then [UnknownWorkMode] else []
        | None => []
        end
     ++ match raw_max_depth c with
        | Some depth => if depth <? 1 then [DepthNotPositive] else []
        | None => []
        end)%list in
  let work_mode' :=
    match raw_work_mode c with
    | Some mode => Some mode
    | None =>
        if given (raw_repository_url c) then Some "online"
        else if given (raw_test_repo_path c) then Some "offline"
        else None
    end in
  (errors,
   {| raw_package_name := raw_package_name c;
      raw_repository_url := raw_repository_url c;
      raw_test_repo_path := raw_test_repo_path c;
      raw_work_mode := work_mode';
      raw_max_depth := raw_max_depth c;
      raw_filter_substring := raw_filter_substring c;
      raw_reverse_mode := raw_reverse_mode c |}).

(** The configuration as the engine reads it: every test of the work
    mode in the engine is [work_mode == 'online']. *)
Definition engine_config (c : RawConfig) : Config :=
  {| package_name := default EmptyString (raw_package_name c);
     repository_url := raw_repository_url c;
     test_repo_path := raw_test_repo_path c;
     work_mode :=
       match raw_work_mode c with
       | Some mode => if String.eqb mode "online" then Online else Offline
       | None => Offline
       end;
     max_depth := raw_max_depth c;
     filter_substring := raw_filter_substring c;
     reverse_mode := raw_reverse_mode c |}.

(** ** Detailed analysis *)

(** The dictionary [levels] of [display_detailed_analysis], from a level
    to the packages found at it, in insertion order. *)
Fixpoint levels_find (levels : list (Z * names)) (level : Z) : option names :=
  match levels with
  | [] => None
  | (l, packages) :: rest =>
      if Z.eqb l level then Some packages else levels_find rest level
  end.

(** [if level not in levels: levels[level] = []] followed by
    [levels[level].append(package)]. *)
Fixpoint levels_append (levels : list (Z * names)) (level : Z)
    (package : string) : list (Z * names) :=
  match levels with
  | [] => [(level, [package])]
  | (l, packages) :: rest =>
      if Z.eqb l level then (l, (packages ++ [package])%list) :: rest
      else (l, packages) :: levels_append rest level package
  end.

(** The loop [for package in self.dependency_graph] of the forward
    branch of [display_detailed_analysis]; [None] when a level
    computation runs out of fuel. *)
Definition dependency_levels (fuel : nat) (g : graph)
    : option (list (Z * names)) :=
  foldl (fun acc package =>
           levels ← acc;
           level ← calculate_dependency_level fuel g package;
           Some (levels_append levels level package))
    (Some []) (PyDict.keys g).

(** [[pkg for pkg, deps in self.dependency_graph.items() if not deps]] *)
Definition leaf_packages (g : graph) : names :=
  map fst
    (List.filter (fun item => match snd item with [] => true | _ => false end)
       g).

(** ** Reverse mode set-up, the display and the top level *)

(** [build_complete_dependency_graph]: the full forward graph and its
    inversion, or the exception it raises. The graphs of the state have
    names as keys; over a directory with a package that has no name
    (key [None]) the result is outside this model, which is the answer
    [None]. *)
Definition build_complete_dependency_graph (config : Config) (w : World)
    (st : State) : option (Error + State) :=
  let st := print BuildingCompleteGraph st in
  let built :=
    match work_mode config with
    | Online => Some (inl ReverseOnline)
    | Offline =>
        match test_repo_path config with
        | None => Some (inl NoRepositoryPath)
        | Some path =>
            let repo := file_system w path (clock st) in
            match detect_repository_type repo, repo with
            | inl e, _ => Some (inl e)
            | inr nuspec_offline, Directory nuspec_files =>
                match Nuspec.load_offline_repository (set_order w)
                        nuspec_files with
                | None => Some (inl OfflineLoadFailed)
                | Some offline_repo =>
                    match Nuspec.named offline_repo with
                    | None => None
                    | Some packages =>
                        Some (inr (fold_left
                           (fun st package =>
                              let dependencies :=
                                PyDict.get packages package [] in
                              let st := record_node package dependencies st in
                              set_reverse_dependency_graph
                                (TestRepository.add_dependents package
                                   dependencies (reverse_dependency_graph st))
                                st)
                           (PyDict.keys packages) (tick st)))
                    end
                end
            | inr _, RegularFile content =>
                match TestRepository.load_test_repository content with
                | None => Some (inl TestLoadFailed)
                | Some test_graph =>
                    let st := set_dependency_graph test_graph (tick st) in
                    Some (inr (set_reverse_dependency_graph
                           (TestRepository.invert_into (dependency_graph st)
                              (reverse_dependency_graph st)) st))
                end
            | inr _, _ => Some (inl NotFileOrDirectory)
            end
        end
    end in
  match built with
  | None => None
  | Some (inl e) => Some (inl (GraphBuildError e))
  | Some (inr st) =>
      Some (inr (print (GraphBuilt (length (dependency_graph st))
                    (sum_list (map (fun item => length (snd item))
                                 (reverse_dependency_graph st)))) st))
  end.

(** Whether [display_dependency_graph] followed by
    [display_detailed_analysis] returns. Their lines are not recorded.
    Over keys and lists of names nothing in them can raise but the level
    loop of the forward branch: a level computation nested deeper than
    the interpreter allows, and so every level computation that would
    not end, raises [RecursionError]. [fuel] is the allowed depth. *)
Definition display_returns (fuel : nat) (config : Config) (st : State)
    : bool :=
  match dependency_graph st with
  | [] => true
  | _ =>
      if reverse_mode config then true
      else
        match dependency_levels fuel (dependency_graph st) with
        | Some _ => true
        | None => false
        end
  end.

(** How [run] ends: normally, through [sys.exit(1)] after printing the
    error, or without an answer of this model. Every exception of
    [build_complete_dependency_graph] is raised after its first line was
    printed and before anything else changed, which is the state kept in
    [Exit1]. *)
Inductive Outcome : Type :=
  | Finished (st : State)
  | Exit1 (e : Error) (st : State)
  | OutOfFuel
  | NotModelled.

(** [run], from the validated configuration to its end. [fuel] is the
    depth of nested calls that is allowed, as the recursion limit of the
    interpreter allows only so many. A traversal that needs more is given
    no answer here ([OutOfFuel]: the error would be caught by a handler
    inside the traversal); the error of a level computation that needs
    more reaches the handler of [run]. *)
Definition run (fuel : nat) (config : Config) (w : World) (t : nat)
    : Outcome :=
  let st := initial_state t in
  let built :=
    if reverse_mode config then
      match build_complete_dependency_graph config w st with
      | None => inl NotModelled
      | Some (inl e) => inl (Exit1 e (print BuildingCompleteGraph st))
      | Some (inr st) =>
          match bfs_build_reverse_dependency_graph config fuel
                  (package_name config) 0 [] st with
          | Some st => inr st
          | None => inl OutOfFuel
          end
      end
    else
      match bfs_build_dependency_graph config (source_of config w) fuel
              (package_name config) 0 [] st with
      | Some st => inr st
      | None => inl OutOfFuel
      end in
  match built with
  | inl outcome => outcome
  | inr st =>
      if display_returns fuel config st then Finished st
      else Exit1 RecursionError st
  end.

(** ** Fixtures *)

(** One admissible iteration order of a Python set: every element at
    the place of its last occurrence. *)
Definition sample_set_order : SetOrder :=
  {| list_of_set := remove_dups;
     list_of_set_NoDup := NoDup_remove_dups;
     list_of_set_elem := fun xs x => elem_of_remove_dups xs x |}.

Module Fixtures.

Definition lines (ls : list string) : string :=
  PyStr.join (String TestRepository.newline EmptyString) ls.

(** The files written by [create_test_repository_files]. *)
Definition simple_test : string :=
  lines ["A -> B C"; "B -> D"; "C -> D E"; "D -> "; "E -> F"; "F ->"].

Definition cycle_test : string :=
  lines ["A -> B"; "B -> C"; "C -> A"; "D -> E"; "E -> D F"; "F ->"].

Definition complex_test : string :=
  lines ["A -> B C D"; "B -> E F"; "C -> F G"; "D -> H"; "E -> I";
         "F -> I J"; "G -> K"; "H -> L"; "I -> M"; "J -> M N"; "K -> O";
         "L -> P"; "M -> "; "N -> "; "O -> "; "P ->"].

(** A world whose repository path is a text fixture that never changes
    and whose registry answers nothing. *)
Definition text_world (content : string) : World :=
  {| registry := fun _ _ _ => None;
     file_system := fun _ _ => RegularFile content;
     set_order := sample_set_order |}.

(** An offline configuration on a fixture file. *)
Definition offline (root : string) (limit : option Z)
    (filter : option string) (reverse : bool) : Config :=
  {| package_name := root;
     repository_url := None;
     test_repo_path := Some "fixture.txt";
     work_mode := Offline;
     max_depth := limit;
     filter_substring := filter;
     reverse_mode := reverse |}.

End Fixtures.

(** Inputs of the examples below. *)

Definition online_reverse_config : Config :=
  {| package_name := "Newtonsoft.Json";
     repository_url := Some "https://api.nuget.org/v3/index.json";
     test_repo_path := None;
     work_mode := Online;
     max_depth := None;
     filter_substring := None;
     reverse_mode := true |}.

(** A source in which the lookup of [B] fails. *)
Definition source_failing_on_B : Source :=
  fun _ n =>
    if String.eqb n "A" then Some ["B"; "C"]
    else if String.eqb n "C" then Some [] else None.

Definition repeatable_st1 : State :=
  default (initial_state 0)
    (bfs_build_dependency_graph (Fixtures.offline "A" None None false)
       (source_of (Fixtures.offline "A" None None false)
          (Fixtures.text_world Fixtures.simple_test))
       10 "A" 0 [] (initial_state 0)).

Definition simple_graph : graph :=
  [("A", ["B"; "C"]); ("B", ["D"]); ("D", []); ("C", ["D"; "E"]);
   ("E", ["F"]); ("F", [])].


(** A graph in which [K] is two edges away from [A] through [X], and
    four edges away through [B], [C] and [X]. *)
Definition depth_fixture : string :=
  Fixtures.lines ["A -> X B"; "X -> K"; "K -> "; "B -> C"; "C -> X"].

Definition abc_cycle : string :=
  Fixtures.lines ["A -> B"; "B -> C"; "C -> A"].

Definition duplicates_fixture : string :=
  Fixtures.lines ["A -> B B C B"; "B -> "; "C ->"].

(** A .nuspec document that lists one id twice, once inside a group and
    once outside. *)
Definition sample_nuspec : Element :=
  Elem "package" [] None
    [Elem "metadata" [] None
       [Elem "id" [] (Some "Sample") [];
        Elem "dependencies" [] None
          [Elem "group" [("targetFramework", ".NETStandard2.0")] None
             [Elem "dependency" [("id", "Lib.B"); ("version", "1.0")] None [];
              Elem "dependency" [("id", "Lib.A"); ("version", "1.0")] None []];
           Elem "dependency" [("id", "Lib.B"); ("version", "2.0")] None []]]].

Definition online_config : Config :=
  {| package_name := "Sample";
     repository_url := Some "https://api.nuget.org/v3/index.json";
     test_repo_path := None;
     work_mode := Online;
     max_depth := None;
     filter_substring := None;
     reverse_mode := false |}.

Definition sample_registry : World :=
  {| registry := fun _ _ n =>
       if String.eqb n "Sample" then Some sample_nuspec else None;
     file_system := fun _ _ => Missing;
     set_order := sample_set_order |}.

(** * Properties *)

(** ** Dictionaries *)

Section PyDictFacts.

Context {V : Type}.
Implicit Types (d : PyDict.t V) (k : string) (v : V).

Lemma find_set_eq d k v : PyDict.find (PyDict.set d k v) k = Some v.
Proof.
  induction d as [|[k' v'] d IH]; simpl.
  - by rewrite String.eqb_refl.
  - destruct (String.eqb k' k) eqn:E; simpl; by rewrite E.
Qed.

Lemma find_set_ne d k k' v :
  k ≠ k' -> PyDict.find (PyDict.set d k v) k' = PyDict.find d k'.
Proof.
  intros Hne. induction d as [|[k0 v0] d IH]; simpl.
  - destruct (String.eqb_spec k k'); congruence.
  - destruct (String.eqb_spec k0 k) as [->|]; simpl.
    + destruct (String.eqb_spec k k'); congruence.
    + by rewrite IH.
Qed.

Lemma find_Some_keys d k v : PyDict.find d k = Some v -> k ∈ PyDict.keys d.
Proof.
  induction d as [|[k0 v0] d IH]; simpl; [done|].
  destruct (String.eqb_spec k0 k) as [->|]; intros H.
  - apply list_elem_of_here.
  - apply list_elem_of_further. auto.
Qed.

Lemma find_None_keys d k : PyDict.find d k = None <-> k ∉ PyDict.keys d.
Proof.
  induction d as [|[k0 v0] d IH]; simpl.
  - split; [intros _; apply not_elem_of_nil|done].
  - rewrite not_elem_of_cons. destruct (String.eqb_spec k0 k) as [->|].
    + split; [done|]. intros [? _]. done.
    + rewrite IH. split; [intros ?; split; [congruence|done]|by intros [_ ?]].
Qed.

Lemma mem_keys d k : PyDict.mem d k = true <-> k ∈ PyDict.keys d.
Proof.
  unfold PyDict.mem. destruct (PyDict.find d k) eqn:E.
  - split; [intros _; by eapply find_Some_keys|done].
  - split; [done|]. intros Hin. by apply find_None_keys in E.
Qed.

Lemma keys_set d k v :
  PyDict.keys (PyDict.set d k v)
  = if PyDict.mem d k then PyDict.keys d else (PyDict.keys d ++ [k])%list.
Proof.
  unfold PyDict.mem, PyDict.keys.
  induction d as [|[k0 v0] d IH]; simpl; [done|].
  destruct (String.eqb_spec k0 k) as [->|]; simpl; [done|].
  rewrite IH. by destruct (PyDict.find d k).
Qed.

Lemma elem_of_keys_set d k v k' :
  k' ∈ PyDict.keys (PyDict.set d k v) <-> k' = k ∨ k' ∈ PyDict.keys d.
Proof.
  rewrite keys_set. destruct (PyDict.mem d k) eqn:E.
  - apply mem_keys in E. split; [auto|]. intros [->|]; done.
  - rewrite elem_of_app, list_elem_of_singleton. tauto.
Qed.

Lemma NoDup_keys_set d k v :
  NoDup (PyDict.keys d) -> NoDup (PyDict.keys (PyDict.set d k v)).
Proof.
  intros Hnd. rewrite keys_set. destruct (PyDict.mem d k) eqn:E; [done|].
  apply NoDup_app. split_and!; [done| |apply NoDup_singleton].
  intros x Hx Hx'. apply list_elem_of_singleton in Hx' as ->.
  apply mem_keys in Hx. congruence.
Qed.

Lemma find_elem_of d k v :
  NoDup (PyDict.keys d) -> (k, v) ∈ d -> PyDict.find d k = Some v.
Proof.
  induction d as [|[k0 v0] d IH]; simpl; intros Hnd Hin.
  - by apply elem_of_nil in Hin.
  - apply NoDup_cons in Hnd as [Hk0 Hnd].
    apply elem_of_cons in Hin as [[= -> ->]|Hin].
    + by rewrite String.eqb_refl.
    + destruct (String.eqb_spec k0 k) as [->|]; [|auto].
      exfalso. apply Hk0. apply list_elem_of_fmap. by exists (k, v).
Qed.

End PyDictFacts.

Section PyDictAppend.

Context {V : Type} `{EqDecision V}.
Implicit Types (d : PyDict.t (list V)) (k : string).

Lemma get_append_eq d k (x : V) :
  PyDict.get (PyDict.append d k x) k [] = (PyDict.get d k [] ++ [x])%list.
Proof.
  unfold PyDict.get. induction d as [|[k0 l0] d IH]; simpl.
  - by rewrite String.eqb_refl.
  - destruct (String.eqb k0 k) eqn:E; simpl; by rewrite E.
Qed.

Lemma get_append_ne d k k' (x : V) :
  k ≠ k' -> PyDict.get (PyDict.append d k x) k' [] = PyDict.get d k' [].
Proof.
  intros Hne. unfold PyDict.get. induction d as [|[k0 l0] d IH]; simpl.
  - destruct (String.eqb_spec k k'); congruence.
  - destruct (String.eqb_spec k0 k) as [->|]; simpl.
    + destruct (String.eqb_spec k k'); congruence.
    + destruct (String.eqb_spec k0 k'); [done|apply IH].
Qed.

End PyDictAppend.

(** ** Loops *)

Section ForEach.

Implicit Types (body : string -> State -> option State) (xs : names).

Lemma for_each_app body xs ys st :
  for_each body (xs ++ ys)%list st = for_each body xs st ≫= for_each body ys.
Proof.
  revert st. induction xs as [|x xs IH]; intros st; simpl; [done|].
  destruct (body x st); simpl; [apply IH|done].
Qed.

Lemma for_each_ext body1 body2 xs st :
  (forall x s, x ∈ xs -> body1 x s = body2 x s) ->
  for_each body1 xs st = for_each body2 xs st.
Proof.
  revert st. induction xs as [|x xs IH]; intros st Hext; simpl; [done|].
  rewrite <- Hext by apply list_elem_of_here.
  destruct (body1 x st) as [s1|]; [|done].
  apply IH. intros y s Hy. apply Hext. by apply list_elem_of_further.
Qed.

(** A loop invariant that also knows which elements were processed. *)
Lemma for_each_progress (I : names -> State -> Prop) body xs st st' :
  I [] st ->
  (forall done x s s',
      x ∈ xs -> I done s -> body x s = Some s' -> I (done ++ [x])%list s') ->
  for_each body xs st = Some st' -> I xs st'.
Proof.
  intros H0 Hstep.
  enough (forall pre st, I pre st ->
            (forall x, x ∈ xs -> x ∈ xs) ->
            forall rest, (forall x, x ∈ rest -> x ∈ xs) ->
            for_each body rest st = Some st' -> I (pre ++ rest)%list st')
    as Hgen by (intros Hrun; apply (Hgen [] st H0 (fun _ h => h) xs); auto).
  intros pre st0 Hpre _ rest. revert pre st0 Hpre.
  induction rest as [|x rest IH]; intros pre st0 Hpre Hsub Hrun; simpl in Hrun.
  - injection Hrun as <-. by rewrite app_nil_r.
  - destruct (body x st0) as [s1|] eqn:Hb; [|done].
    replace (pre ++ x :: rest)%list with ((pre ++ [x]) ++ rest)%list
      by (by rewrite <- app_assoc).
    apply (IH _ s1).
    + eapply Hstep; eauto. apply Hsub, list_elem_of_here.
    + intros y Hy. apply Hsub. by apply list_elem_of_further.
    + done.
Qed.

Lemma for_each_invariant (I : State -> Prop) body xs st st' :
  I st ->
  (forall x s s', x ∈ xs -> I s -> body x s = Some s' -> I s') ->
  for_each body xs st = Some st' -> I st'.
Proof.
  intros H0 Hstep.
  apply (for_each_progress (fun _ s => I s)); [done|].
  intros ? ? ? ?. apply Hstep.
Qed.

Lemma for_each_total (I : State -> Prop) body xs st :
  I st ->
  (forall x s, x ∈ xs -> I s -> exists s', body x s = Some s' /\ I s') ->
  exists st', for_each body xs st = Some st' /\ I st'.
Proof.
  revert st. induction xs as [|x xs IH]; intros st H0 Hstep; simpl.
  - eauto.
  - destruct (Hstep x st) as (s1 & -> & H1); [apply list_elem_of_here|done|].
    apply IH; [done|]. intros y s Hy. apply Hstep. by apply list_elem_of_further.
Qed.

(** Two loops over the same list that keep a relation between their
    states: when the first finishes, so does the second. *)
Lemma for_each_sim (R : State -> State -> Prop) body1 body2 xs s1 s2 s1' :
  R s1 s2 ->
  (forall x a b a', x ∈ xs -> R a b -> body1 x a = Some a' ->
                    exists b', body2 x b = Some b' /\ R a' b') ->
  for_each body1 xs s1 = Some s1' ->
  exists s2', for_each body2 xs s2 = Some s2' /\ R s1' s2'.
Proof.
  revert s1 s2. induction xs as [|x xs IH]; intros s1 s2 HR Hstep Hrun;
    simpl in *.
  - injection Hrun as <-. eauto.
  - destruct (body1 x s1) as [a'|] eqn:Hb; [|done].
    destruct (Hstep x s1 s2 a') as (b' & -> & HR');
      [apply list_elem_of_here|done|done|].
    eapply IH; [done| |done].
    intros y a b a0 Hy. apply Hstep. by apply list_elem_of_further.
Qed.

End ForEach.

(** ** The two traversals are instances of [traverse] *)

Lemma bfs_build_dependency_graph_traverse config source fuel n d p st :
  bfs_build_dependency_graph config source fuel n d p st
  = traverse config (get_dependencies source) fuel n d p st.
Proof.
  revert n d p st. induction fuel as [|fuel IH]; intros; simpl; [done|].
  repeat case_match; try done.
  all: try (apply for_each_ext; intros; apply IH).
  all: congruence.
Qed.

Lemma bfs_build_reverse_dependency_graph_traverse config fuel n d p st :
  bfs_build_reverse_dependency_graph config fuel n d p st
  = traverse config get_dependents fuel n d p st.
Proof.
  revert n d p st. induction fuel as [|fuel IH]; intros; simpl; [done|].
  repeat case_match; try done.
  apply for_each_ext; intros; apply IH.
Qed.

(** ** One call of a traversal, case by case *)

Lemma in_path_spec x xs : in_path x xs = true <-> x ∈ xs.
Proof.
  unfold in_path. rewrite existsb_exists. split.
  - intros (y & Hy & Heq). apply String.eqb_eq in Heq as ->.
    by apply list_elem_of_In.
  - intros Hx. exists x. split; [by apply list_elem_of_In|apply String.eqb_refl].
Qed.

Lemma in_path_false x xs : in_path x xs = false <-> x ∉ xs.
Proof.
  rewrite <- in_path_spec. destruct (in_path x xs); split; congruence.
Qed.

(** The state in which the loop over the found names starts. *)
Definition expand (lookup : string -> State -> names * State)
    (n : string) (d : Z) (st : State) : names * State :=
  let st1 := print (AnalysisPrinted n d) (add_visited n st) in
  (fst (lookup n st1), record_node n (fst (lookup n st1)) (snd (lookup n st1))).

Inductive call_case (config : Config)
    (lookup : string -> State -> names * State) (fuel : nat)
    (n : string) (d : Z) (p : names) (st st' : State) : Prop :=
  | case_depth :
      depth_limit_reached config d = true -> st' = st ->
      call_case config lookup fuel n d p st st'
  | case_cycle :
      depth_limit_reached config d = false -> n ∈ p ->
      st' = set_cycle_detected (print (CyclePrinted (p ++ [n])%list) st) ->
      call_case config lookup fuel n d p st st'
  | case_skip :
      depth_limit_reached config d = false -> n ∉ p ->
      should_skip_package config n = true ->
      st' = print (SkipPrinted n) st ->
      call_case config lookup fuel n d p st st'
  | case_visited :
      depth_limit_reached config d = false -> n ∉ p ->
      should_skip_package config n = false ->
      n ∈ visited_packages st -> st' = st ->
      call_case config lookup fuel n d p st st'
  | case_expand :
      depth_limit_reached config d = false -> n ∉ p ->
      should_skip_package config n = false ->
      n ∉ visited_packages st ->
      for_each (fun next => traverse config lookup fuel next (d + 1)
                              (p ++ [n])%list)
        (fst (expand lookup n d st)) (snd (expand lookup n d st)) = Some st' ->
      call_case config lookup fuel n d p st st'.

Lemma traverse_cases config lookup fuel n d p st st' :
  traverse config lookup (S fuel) n d p st = Some st' <->
  call_case config lookup fuel n d p st st'.
Proof.
  simpl. unfold expand. split.
  - intros H.
    destruct (depth_limit_reached config d) eqn:Hd;
      [injection H as <-; by apply case_depth|].
    destruct (in_path n p) eqn:Hp;
      [injection H as <-; apply in_path_spec in Hp; by apply case_cycle|].
    apply in_path_false in Hp.
    destruct (should_skip_package config n) eqn:Hs;
      [injection H as <-; by apply case_skip|].
    case_bool_decide; [injection H as <-; by apply case_visited|].
    apply case_expand; try done. simpl.
    by destruct (lookup n (print (AnalysisPrinted n d) (add_visited n st))).
  - intros [Hd ->|Hd Hp ->|Hd Hp Hs ->|Hd Hp Hs Hv ->|Hd Hp Hs Hv H].
    + by rewrite Hd.
    + apply in_path_spec in Hp. by rewrite Hd, Hp.
    + apply in_path_false in Hp. by rewrite Hd, Hp, Hs.
    + apply in_path_false in Hp. rewrite Hd, Hp, Hs. by case_bool_decide.
    + apply in_path_false in Hp. rewrite Hd, Hp, Hs. case_bool_decide; [done|].
      simpl in H.
      by destruct (lookup n (print (AnalysisPrinted n d) (add_visited n st))).
Qed.

(** ** What every traversal preserves *)

(** Two states that differ at most in the read counter and the printed
    lines. *)
Definition same_core (s1 s2 : State) : Prop :=
  dependency_graph s1 = dependency_graph s2
  /\ reverse_dependency_graph s1 = reverse_dependency_graph s2
  /\ visited_packages s1 = visited_packages s2
  /\ cycle_detected s1 = cycle_detected s2.

(** [grows st st']: [st'] is a later state of the same build. Entries of
    visited packages are final, entries of packages that stay unvisited
    are untouched. *)
Record grows (st st' : State) : Prop := {
  grows_visited : visited_packages st ⊆ visited_packages st';
  grows_cycle : cycle_detected st = true -> cycle_detected st' = true;
  grows_reverse : reverse_dependency_graph st' = reverse_dependency_graph st;
  grows_graph : forall k,
      k ∈ visited_packages st \/ k ∉ visited_packages st' ->
      PyDict.find (dependency_graph st') k = PyDict.find (dependency_graph st) k;
  grows_clock : (clock st <= clock st')%nat;
  grows_output : output st `prefix_of` output st'
}.

Lemma grows_refl st : grows st st.
Proof. by split. Qed.

Lemma grows_trans s1 s2 s3 : grows s1 s2 -> grows s2 s3 -> grows s1 s3.
Proof.
  intros [Hv1 Hc1 Hr1 Hg1 Ht1 Ho1] [Hv2 Hc2 Hr2 Hg2 Ht2 Ho2]. split.
  - set_solver.
  - auto.
  - congruence.
  - intros k Hk. rewrite Hg2, Hg1; [done| |]; set_solver.
  - lia.
  - by etrans.
Qed.

Lemma grows_print e st : grows st (print e st).
Proof. split; simpl; try done. by apply prefix_app_r. Qed.

Lemma grows_set_cycle_detected st : grows st (set_cycle_detected st).
Proof. by split. Qed.

Section Generic.

Variable config : Config.
Variable lookup : string -> State -> names * State.

(** [Inv] holds of the states in which the lookup is specified, [Q n l]
    says that [l] is an answer of the lookup for [n]. *)
Variable Inv : State -> Prop.
Variable Q : string -> names -> Prop.

Hypothesis Inv_frame : forall s s',
    reverse_dependency_graph s' = reverse_dependency_graph s ->
    Inv s -> Inv s'.

Hypothesis lookup_spec : forall n s,
    Inv s ->
    Q n (fst (lookup n s))
    /\ same_core s (snd (lookup n s))
    /\ (clock s <= clock (snd (lookup n s)))%nat
    /\ output s `prefix_of` output (snd (lookup n s)).

(** Every package visited between [st] and [st'] passed the filter and
    has an answer of the lookup as its entry. *)
Definition fresh_ok (st st' : State) : Prop :=
  forall k, k ∈ visited_packages st' -> k ∉ visited_packages st ->
    should_skip_package config k = false
    /\ exists l, PyDict.find (dependency_graph st') k = Some l /\ Q k l.

Definition sound_step (st st' : State) : Prop :=
  Inv st' /\ grows st st' /\ fresh_ok st st'.

Lemma sound_step_refl st : Inv st -> sound_step st st.
Proof. intros H. split_and!; [done|apply grows_refl|]. intros k ? ?. done. Qed.

Lemma sound_step_trans s1 s2 s3 :
  sound_step s1 s2 -> sound_step s2 s3 -> sound_step s1 s3.
Proof.
  intros (_ & Hg1 & Hf1) (Hi & Hg2 & Hf2). split_and!; [done| |].
  - by eapply grows_trans.
  - intros k Hk3 Hk1.
    destruct (decide (k ∈ visited_packages s2)) as [Hk2|Hk2]; [|by apply Hf2].
    destruct (Hf1 k Hk2 Hk1) as (Hs & l & Hl & HQ). split; [done|].
    exists l. split; [|done]. rewrite (grows_graph _ _ Hg2); auto.
Qed.

Lemma sound_step_grows st st' : Inv st -> grows st st' ->
  visited_packages st' = visited_packages st -> sound_step st st'.
Proof.
  intros Hi Hg Hv. split_and!; [|done|].
  - eapply Inv_frame; [|done]. apply Hg.
  - intros k Hk Hk'. rewrite Hv in Hk. done.
Qed.

Lemma sound_step_expand n d st :
  Inv st -> n ∉ visited_packages st ->
  should_skip_package config n = false ->
  sound_step st (snd (expand lookup n d st))
  /\ n ∈ visited_packages (snd (expand lookup n d st))
  /\ PyDict.find (dependency_graph (snd (expand lookup n d st))) n
     = Some (fst (expand lookup n d st))
  /\ Q n (fst (expand lookup n d st)).
Proof.
  intros Hi Hv Hs. unfold expand. simpl.
  set (st1 := print (AnalysisPrinted n d) (add_visited n st)).
  assert (Inv st1) as Hi1 by (by eapply Inv_frame; [|exact Hi]).
  destruct (lookup_spec n st1 Hi1) as (HQ & (Hg & Hr & Hvis & Hc) & Ht & Ho).
  split_and!; [split_and!| | |done].
  - eapply Inv_frame; [|exact Hi]. simpl. by rewrite <- Hr.
  - split; simpl.
    + rewrite <- Hvis. simpl. set_solver.
    + rewrite <- Hc. done.
    + by rewrite <- Hr.
    + intros k Hk. rewrite <- Hvis in Hk. simpl in Hk.
      rewrite find_set_ne by set_solver. by rewrite <- Hg.
    + simpl in Ht. lia.
    + etrans; [|exact Ho]. simpl. by apply prefix_app_r.
  - intros k Hk Hk'. simpl in Hk. rewrite <- Hvis in Hk. simpl in Hk.
    assert (k = n) as -> by set_solver. split; [done|].
    exists (fst (lookup n st1)). split; [apply find_set_eq|done].
  - simpl. rewrite <- Hvis. simpl. set_solver.
  - simpl. apply find_set_eq.
Qed.

(** Soundness of a traversal: the result is a later state of the build
    in which every newly visited package carries an answer of the
    lookup. *)
Lemma traverse_sound fuel n d p st st' :
  Inv st ->
  traverse config lookup fuel n d p st = Some st' ->
  sound_step st st'.
Proof.
  revert n d p st st'. induction fuel as [|fuel IH]; intros n d p st st' Hi H;
    [done|].
  apply traverse_cases in H.
  destruct H as [Hd ->|Hd Hp ->|Hd Hp Hs ->|Hd Hp Hs Hv ->|Hd Hp Hs Hv H].
  - by apply sound_step_refl.
  - apply sound_step_grows; [done| |done].
    eapply grows_trans; [apply grows_print|apply grows_set_cycle_detected].
  - apply sound_step_grows; [done|apply grows_print|done].
  - by apply sound_step_refl.
  - destruct (sound_step_expand n d st Hi Hv Hs) as (Hstep & _).
    revert H. apply for_each_invariant; [done|].
    intros x s s' _ Hss Hx. eapply sound_step_trans; [exact Hss|].
    eapply IH; [|exact Hx]. apply Hss.
Qed.

(** *** Termination *)

Section Termination.

(** The packages for which the lookup can answer a non-empty list
    all lie in a finite set. *)
Variable universe : gset string.
Hypothesis Q_universe : forall n l, Q n l -> l <> [] -> n ∈ universe.

Lemma remaining_decreases n (p : names) :
  n ∈ universe -> n ∉ p ->
  (size (universe ∖ list_to_set (p ++ [n])%list)
   < size (universe ∖ list_to_set p))%nat.
Proof.
  intros Hu Hp. apply subset_size. split.
  - rewrite list_to_set_app_L. set_solver.
  - intros Hsub. specialize (Hsub n).
    rewrite list_to_set_app_L in Hsub. set_solver.
Qed.

(** Along a branch the path never repeats a package and only grows
    through packages of the universe, so [size universe + 1] nested
    calls always suffice. *)
Lemma traverse_terminates fuel n d p st :
  Inv st ->
  (size (universe ∖ list_to_set p) < fuel)%nat ->
  exists st', traverse config lookup fuel n d p st = Some st'.
Proof.
  revert n d p st. induction fuel as [|fuel IH]; intros n d p st Hi Hfuel;
    [lia|].
  destruct (depth_limit_reached config d) eqn:Hd;
    [eexists; apply traverse_cases; by apply case_depth|].
  destruct (decide (n ∈ p)) as [Hp|Hp];
    [eexists; apply traverse_cases; by eapply case_cycle|].
  destruct (should_skip_package config n) eqn:Hs;
    [eexists; apply traverse_cases; by eapply case_skip|].
  destruct (decide (n ∈ visited_packages st)) as [Hv|Hv];
    [eexists; apply traverse_cases; by eapply case_visited|].
  destruct (sound_step_expand n d st Hi Hv Hs) as ((Hi' & _) & _ & _ & HQ).
  destruct (for_each_total Inv
              (fun next => traverse config lookup fuel next (d + 1)
                             (p ++ [n])%list)
              (fst (expand lookup n d st)) (snd (expand lookup n d st)))
    as (st' & Hrun & _); [done| |].
  - intros x s Hx His.
    assert (n ∈ universe) as Hu.
    { eapply Q_universe; [exact HQ|]. intros E. rewrite E in Hx.
      by apply elem_of_nil in Hx. }
    pose proof (remaining_decreases n p Hu Hp).
    destruct (IH x (d + 1) (p ++ [n])%list s His) as (s' & Hs'); [lia|].
    exists s'. split; [done|]. by eapply traverse_sound.
  - exists st'. apply traverse_cases. by apply case_expand.
Qed.

End Termination.

(** With a depth limit the nesting is bounded by the limit, whatever
    the source. *)
Lemma traverse_terminates_depth fuel n d p st (limit : Z) :
  max_depth config = Some limit -> limit <> 0 ->
  Inv st ->
  (0 < fuel)%nat -> limit - d < Z.of_nat fuel ->
  exists st', traverse config lookup fuel n d p st = Some st'.
Proof.
  intros Hmax Hlim.
  revert n d p st. induction fuel as [|fuel IH]; intros n d p st Hi Hpos Hfuel;
    [lia|].
  destruct (depth_limit_reached config d) eqn:Hd;
    [eexists; apply traverse_cases; by apply case_depth|].
  assert (d < limit) as Hlt.
  { unfold depth_limit_reached in Hd. rewrite Hmax in Hd.
    apply andb_false_iff in Hd as [Hd|Hd].
    - apply negb_false_iff, Z.eqb_eq in Hd. done.
    - apply Z.leb_gt in Hd. done. }
  destruct (decide (n ∈ p)) as [Hp|Hp];
    [eexists; apply traverse_cases; by eapply case_cycle|].
  destruct (should_skip_package config n) eqn:Hs;
    [eexists; apply traverse_cases; by eapply case_skip|].
  destruct (decide (n ∈ visited_packages st)) as [Hv|Hv];
    [eexists; apply traverse_cases; by eapply case_visited|].
  destruct (sound_step_expand n d st Hi Hv Hs) as ((Hi' & _) & _).
  destruct (for_each_total Inv
              (fun next => traverse config lookup fuel next (d + 1)
                             (p ++ [n])%list)
              (fst (expand lookup n d st)) (snd (expand lookup n d st)))
    as (st' & Hrun & _); [done| |].
  - intros x s Hx His.
    destruct (IH x (d + 1) (p ++ [n])%list s His) as (s' & Hs'); [lia|lia|].
    exists s'. split; [done|]. by eapply traverse_sound.
  - exists st'. apply traverse_cases. by apply case_expand.
Qed.

End Generic.

(** More fuel never changes a result. *)
Lemma traverse_fuel_mono config lookup fuel fuel' n d p st st' :
  traverse config lookup fuel n d p st = Some st' ->
  (fuel <= fuel')%nat ->
  traverse config lookup fuel' n d p st = Some st'.
Proof.
  revert fuel' n d p st st'.
  induction fuel as [|fuel IH]; intros fuel' n d p st st' H Hle; [done|].
  destruct fuel' as [|fuel']; [lia|].
  apply traverse_cases. apply traverse_cases in H.
  destruct H as [Hd ->|Hd Hp ->|Hd Hp Hs ->|Hd Hp Hs Hv ->|Hd Hp Hs Hv H].
  - by apply case_depth.
  - by apply case_cycle.
  - by apply case_skip.
  - by apply case_visited.
  - apply case_expand; try done.
    edestruct (for_each_sim eq
                 (fun next => traverse config lookup fuel next (d + 1)
                                (p ++ [n])%list)
                 (fun next => traverse config lookup fuel' next (d + 1)
                                (p ++ [n])%list))
      as (s2 & Hs2 & <-); [reflexivity| |exact H|exact Hs2].
    intros x a b a' _ <- Ha. exists a'. split; [|done]. apply IH; [done|lia].
Qed.

(** ** The forward and the reverse lookup *)

(** [l] is what [get_dependencies] answers for [n] at some read: the list
    of the source, or the empty list after a failure. *)
Definition answer_of (source : Source) (n : string) (l : names) : Prop :=
  exists t, l = default [] (source t n).

Lemma get_dependencies_spec source n s :
  answer_of source n (fst (get_dependencies source n s))
  /\ same_core s (snd (get_dependencies source n s))
  /\ (clock s <= clock (snd (get_dependencies source n s)))%nat
  /\ output s `prefix_of` output (snd (get_dependencies source n s)).
Proof.
  unfold get_dependencies, answer_of.
  destruct (source (clock s) n) as [l|] eqn:E; simpl.
  - split_and!; [exists (clock s); by rewrite E|done|lia|done].
  - split_and!; [exists (clock s); by rewrite E|done|lia|by apply prefix_app_r].
Qed.

Lemma get_dependents_spec (R : graph) n s :
  reverse_dependency_graph s = R ->
  fst (get_dependents n s) = PyDict.get R n []
  /\ same_core s (snd (get_dependents n s))
  /\ (clock s <= clock (snd (get_dependents n s)))%nat
  /\ output s `prefix_of` output (snd (get_dependents n s)).
Proof. intros <-. unfold get_dependents. simpl. by split_and!. Qed.

(** Soundness of the forward build. *)
Lemma forward_sound config source fuel n d p st st' :
  bfs_build_dependency_graph config source fuel n d p st = Some st' ->
  grows st st' /\ fresh_ok config (answer_of source) st st'.
Proof.
  rewrite bfs_build_dependency_graph_traverse. intros H.
  eapply (traverse_sound config (get_dependencies source) (fun _ => True)) in H;
    [apply H|done| |done].
  intros. apply get_dependencies_spec.
Qed.

(** Soundness of the reverse traversal: it never changes the reverse
    index, and the entry of every package it visits is the list of its
    dependents. *)
Lemma reverse_sound config fuel n d p st st' :
  bfs_build_reverse_dependency_graph config fuel n d p st = Some st' ->
  grows st st'
  /\ fresh_ok config
       (fun k l => l = PyDict.get (reverse_dependency_graph st) k []) st st'.
Proof.
  rewrite bfs_build_reverse_dependency_graph_traverse. intros H.
  eapply (traverse_sound config get_dependents
            (fun s => reverse_dependency_graph s = reverse_dependency_graph st))
    in H; [apply H|congruence| |done].
  intros k s Hs. by apply get_dependents_spec.
Qed.

(** ** Termination of the two traversals *)

Lemma size_list_to_set_le (l : names) :
  (size (list_to_set l : gset string) <= length l)%nat.
Proof.
  induction l as [|x l IH].
  - rewrite list_to_set_nil, size_empty. simpl. lia.
  - rewrite list_to_set_cons, size_union_alt, size_singleton. simpl.
    assert (list_to_set l ∖ {[x]} ⊆ (list_to_set l : gset string)) as Hsub
      by set_solver.
    apply subseteq_size in Hsub. lia.
Qed.

(** A source with finitely many packages that have dependencies: the
    forward build returns as soon as the fuel exceeds their number. *)
Lemma forward_terminates config source (universe : gset string) fuel n d p st :
  (forall t k l, source t k = Some l -> l <> [] -> k ∈ universe) ->
  (size universe < fuel)%nat ->
  exists st', bfs_build_dependency_graph config source fuel n d p st = Some st'.
Proof.
  intros Hu Hfuel. rewrite bfs_build_dependency_graph_traverse.
  eapply (traverse_terminates config (get_dependencies source)
            (fun _ => True) (answer_of source)); try done.
  - intros. apply get_dependencies_spec.
  - intros k l [t ->] Hne. destruct (source t k) as [l|] eqn:E; [|done].
    by eapply Hu.
  - assert (universe ∖ list_to_set p ⊆ universe) as Hsub by set_solver.
    apply subseteq_size in Hsub. lia.
Qed.

(** The reverse traversal returns as soon as the fuel exceeds the number
    of entries of the reverse index. *)
Lemma reverse_terminates config fuel n d p st :
  (length (reverse_dependency_graph st) < fuel)%nat ->
  exists st', bfs_build_reverse_dependency_graph config fuel n d p st = Some st'.
Proof.
  intros Hfuel. rewrite bfs_build_reverse_dependency_graph_traverse.
  eapply (traverse_terminates config get_dependents
            (fun s => reverse_dependency_graph s = reverse_dependency_graph st)
            (fun k l => l = PyDict.get (reverse_dependency_graph st) k [])
            ltac:(congruence)
            (fun k s Hs => get_dependents_spec _ k s Hs)
            (list_to_set (PyDict.keys (reverse_dependency_graph st))));
    [|done|].
  - intros k l -> Hne. unfold PyDict.get in Hne.
    destruct (PyDict.find (reverse_dependency_graph st) k) eqn:E; [|done].
    apply elem_of_list_to_set. by eapply find_Some_keys.
  - pose proof (size_list_to_set_le (PyDict.keys (reverse_dependency_graph st))).
    set (U := list_to_set (PyDict.keys (reverse_dependency_graph st)) : gset string) in *.
    assert (U ∖ list_to_set p ⊆ U) as Hsub by set_solver.
    apply subseteq_size in Hsub.
    unfold PyDict.keys in *. rewrite length_map in *. lia.
Qed.

(** ** The end of a run *)

(** In reverse mode the display functions always return. *)
Lemma display_returns_reverse fuel config st :
  reverse_mode config = true -> display_returns fuel config st = true.
Proof.
  intros Hrev. unfold display_returns. rewrite Hrev.
  by destruct (dependency_graph st).
Qed.

(** A reverse run whose set-up and traversal return finishes. *)
Lemma run_reverse fuel config w t st0 st :
  reverse_mode config = true ->
  build_complete_dependency_graph config w (initial_state t)
  = Some (inr st0) ->
  bfs_build_reverse_dependency_graph config fuel (package_name config) 0 []
    st0 = Some st ->
  run fuel config w t = Finished st.
Proof.
  intros Hrev Hb Hrun. unfold run.
  by rewrite Hrev, Hb, Hrun, display_returns_reverse.
Qed.

(** A forward run ends as its level loop does. *)
Lemma run_forward fuel config w t st :
  reverse_mode config = false ->
  bfs_build_dependency_graph config (source_of config w) fuel
    (package_name config) 0 [] (initial_state t) = Some st ->
  run fuel config w t
  = if display_returns fuel config st then Finished st
    else Exit1 RecursionError st.
Proof. intros Hrev Hrun. unfold run. by rewrite Hrev, Hrun. Qed.

(** ** Reverse mode over a text fixture *)

(** On a text fixture [build_complete_dependency_graph] installs the
    dictionary of the fixture as the graph and its inversion as the
    reverse index. *)
Lemma build_complete_text_fixture config w st path content g :
  work_mode config = Offline ->
  test_repo_path config = Some path ->
  file_system w path (clock st) = RegularFile content ->
  TestRepository.load_test_repository content = Some g ->
  reverse_dependency_graph st = PyDict.empty ->
  exists st0,
    build_complete_dependency_graph config w st = Some (inr st0)
    /\ dependency_graph st0 = g
    /\ reverse_dependency_graph st0 = TestRepository.build_reverse_dependencies g
    /\ visited_packages st0 = visited_packages st
    /\ cycle_detected st0 = cycle_detected st.
Proof.
  intros Hm Hp Hf Hl Hr. unfold build_complete_dependency_graph.
  rewrite Hm, Hp. simpl. rewrite Hf. simpl. rewrite Hl. simpl.
  eexists. split; [reflexivity|]. simpl. rewrite Hr. by split_and!.
Qed.

(** C10. In reverse mode over a plain-text fixture the map handed to the
    display functions starts as the forward adjacency of the whole
    fixture; the reverse traversal (which returns for any fuel above the
    size of the reverse index) overwrites exactly the entries of the
    packages it visits with their dependents, so a fixture package that
    it does not visit is still a key mapped to its forward dependency
    list. *)
Theorem reverse_run_keeps_unvisited_forward_entries
    fuel config w t path content g :
  reverse_mode config = true ->
  work_mode config = Offline ->
  test_repo_path config = Some path ->
  file_system w path t = RegularFile content ->
  TestRepository.load_test_repository content = Some g ->
  (length (TestRepository.build_reverse_dependencies g) < fuel)%nat ->
  exists st0 st,
    build_complete_dependency_graph config w (initial_state t) = Some (inr st0)
    /\ dependency_graph st0 = g
    /\ run fuel config w t = Finished st
    /\ (forall k, k ∈ visited_packages st ->
          PyDict.find (dependency_graph st) k
          = Some (PyDict.get (TestRepository.build_reverse_dependencies g) k []))
    /\ (forall k deps, PyDict.find g k = Some deps ->
          k ∉ visited_packages st ->
          PyDict.find (dependency_graph st) k = Some deps).
Proof.
  intros Hrev Hm Hp Hf Hl Hfuel.
  destruct (build_complete_text_fixture config w (initial_state t) path content g)
    as (st0 & Hb & Hg & Hr & Hv & Hc); try done.
  destruct (reverse_terminates config fuel (package_name config) 0 [] st0)
    as (st & Hrun); [by rewrite Hr|].
  exists st0, st. split_and!; [done|done| | |].
  - by apply (run_reverse fuel config w t st0 st).
  - intros k Hk. apply reverse_sound in Hrun as (_ & Hfresh).
    destruct (Hfresh k Hk) as (_ & l & Hl' & ->); [rewrite Hv; set_solver|].
    by rewrite Hl', Hr.
  - intros k deps Hk Hnv. apply reverse_sound in Hrun as (Hgrow & _).
    rewrite (grows_graph _ _ Hgrow); [by rewrite Hg|by right].
Qed.

Lemma reverse_run_keeps_unvisited_forward_entries_witness :
  exists st0 st,
    build_complete_dependency_graph (Fixtures.offline "E" None None true)
      (Fixtures.text_world Fixtures.cycle_test) (initial_state 0) = Some (inr st0)
    /\ dependency_graph st0
       = [("A", ["B"]); ("B", ["C"]); ("C", ["A"]); ("D", ["E"]);
          ("E", ["D"; "F"]); ("F", [])]
    /\ run 10 (Fixtures.offline "E" None None true)
         (Fixtures.text_world Fixtures.cycle_test) 0 = Finished st
    /\ (forall k, k ∈ visited_packages st ->
          PyDict.find (dependency_graph st) k
          = Some (PyDict.get
                    (TestRepository.build_reverse_dependencies
                       [("A", ["B"]); ("B", ["C"]); ("C", ["A"]); ("D", ["E"]);
                        ("E", ["D"; "F"]); ("F", [])]) k []))
    /\ (forall k deps,
          PyDict.find [("A", ["B"]); ("B", ["C"]); ("C", ["A"]); ("D", ["E"]);
                       ("E", ["D"; "F"]); ("F", [])] k = Some deps ->
          k ∉ visited_packages st ->
          PyDict.find (dependency_graph st) k = Some deps).
Proof.
  apply (reverse_run_keeps_unvisited_forward_entries 10
           (Fixtures.offline "E" None None true)
           (Fixtures.text_world Fixtures.cycle_test) 0 "fixture.txt"
           Fixtures.cycle_test);
    [reflexivity|reflexivity|reflexivity|reflexivity|reflexivity|simpl; lia].
Defined.

(** ** Two traversals side by side *)

Section Simulation.

Variable config : Config.
Variables lookup1 lookup2 : string -> State -> names * State.

(** How the read counters of the two runs are related. *)
Variable E : nat -> nat -> Prop.

Definition related (a b : State) : Prop :=
  same_core a b /\ E (clock a) (clock b).

Hypothesis lookup_related : forall n a b,
    related a b ->
    fst (lookup1 n a) = fst (lookup2 n b)
    /\ related (snd (lookup1 n a)) (snd (lookup2 n b)).

Lemma related_expand n d a b :
  related a b ->
  fst (expand lookup1 n d a) = fst (expand lookup2 n d b)
  /\ related (snd (expand lookup1 n d a)) (snd (expand lookup2 n d b)).
Proof.
  intros ((Hg & Hr & Hv & Hc) & He). unfold expand. simpl.
  destruct (lookup_related n
              (print (AnalysisPrinted n d) (add_visited n a))
              (print (AnalysisPrinted n d) (add_visited n b)))
    as (Hfst & (Hg' & Hr' & Hv' & Hc') & He').
  { split; [|done]. split_and!; simpl; congruence. }
  split; [done|]. split; [|done].
  split_and!; simpl; congruence.
Qed.

Lemma traverse_sim fuel n d p a b a' :
  related a b ->
  traverse config lookup1 fuel n d p a = Some a' ->
  exists b', traverse config lookup2 fuel n d p b = Some b' /\ related a' b'.
Proof.
  revert n d p a b a'.
  induction fuel as [|fuel IH]; intros n d p a b a' HR H; [done|].
  apply traverse_cases in H.
  pose proof HR as ((Hg & Hr & Hv & Hc) & He).
  destruct H as [Hd ->|Hd Hp ->|Hd Hp Hs ->|Hd Hp Hs Hvis ->|Hd Hp Hs Hvis H].
  - exists b. split; [|done]. apply traverse_cases. by apply case_depth.
  - eexists. split; [apply traverse_cases; by apply case_cycle|].
    split; [|done]. by split_and!.
  - eexists. split; [apply traverse_cases; by apply case_skip|].
    split; [|done]. by split_and!.
  - exists b. split; [|done]. apply traverse_cases. apply case_visited; try done.
    by rewrite <- Hv.
  - destruct (related_expand n d a b HR) as (Hfst & HR').
    edestruct (for_each_sim related
                 (fun next => traverse config lookup1 fuel next (d + 1)
                                (p ++ [n])%list)
                 (fun next => traverse config lookup2 fuel next (d + 1)
                                (p ++ [n])%list))
      as (b' & Hb' & HR''); [exact HR'| |exact H|].
    + intros x s1 s2 s1' _ HRs Hs1. by eapply IH.
    + exists b'. split; [|done]. apply traverse_cases.
      apply case_expand; try done; [by rewrite <- Hv|by rewrite <- Hfst].
Qed.

End Simulation.

(** ** Reverse mode against the online registry *)

Definition is_analysis (e : Event) : bool :=
  match e with AnalysisPrinted _ _ => true | _ => false end.

(** The display functions return on a graph that holds one package
    without dependencies. *)
Lemma display_returns_leaf fuel config st n :
  dependency_graph st = [(n, [])] ->
  display_returns (S fuel) config st = true.
Proof.
  intros Hg. unfold display_returns. rewrite Hg.
  destruct (reverse_mode config); [done|].
  unfold dependency_levels. cbn [PyDict.keys map fst foldl].
  cbn [calculate_dependency_level]. unfold PyDict.get. cbn [PyDict.find].
  by rewrite String.eqb_refl.
Qed.

(** A forward run in which the lookup of the root fails finishes: the
    root is left out by the depth limit or the filter, or recorded
    without dependencies. *)
Lemma failed_root_lookup_finishes fuel config w t :
  reverse_mode config = false ->
  source_of config w t (package_name config) = None ->
  exists st,
    run (S fuel) config w t = Finished st
    /\ (dependency_graph st = []
        \/ dependency_graph st = [(package_name config, [])]).
Proof.
  intros Hrev Hsrc. unfold run. rewrite Hrev.
  cbn [bfs_build_dependency_graph].
  destruct (depth_limit_reached config 0);
    [eexists; split; [reflexivity|by left]|].
  cbn [in_path existsb].
  destruct (should_skip_package config (package_name config));
    [eexists; split; [reflexivity|by left]|].
  rewrite bool_decide_eq_false_2
    by (unfold initial_state; cbn [visited_packages]; set_solver).
  unfold get_dependencies. cbn [clock print add_visited initial_state].
  rewrite Hsrc. cbn [for_each].
  rewrite (display_returns_leaf fuel config _ (package_name config))
    by reflexivity.
  eexists. split; [reflexivity|by right].
Qed.

(** C6. Reverse mode with the online work mode: whatever the world and
    the fuel (even none), [build_complete_dependency_graph] raises the
    error of reverse-online, [run] exits with status 1 carrying that
    error, and no package was visited, recorded or analysed. A failed
    lookup does not end a run: the forward run in which the lookup of
    the root fails finishes normally. *)
Theorem reverse_online_aborts_run fuel config w t :
  reverse_mode config = true ->
  work_mode config = Online ->
  build_complete_dependency_graph config w (initial_state t)
  = Some (inl (GraphBuildError ReverseOnline))
  /\ (exists st,
        run fuel config w t = Exit1 (GraphBuildError ReverseOnline) st
        /\ visited_packages st = ∅
        /\ dependency_graph st = PyDict.empty
        /\ List.filter is_analysis (output st) = [])
  /\ (forall fuel' config',
        reverse_mode config' = false ->
        source_of config' w t (package_name config') = None ->
        exists st, run (S fuel') config' w t = Finished st).
Proof.
  intros Hrev Hm.
  assert (build_complete_dependency_graph config w (initial_state t)
          = Some (inl (GraphBuildError ReverseOnline))) as Hb
    by (unfold build_complete_dependency_graph; by rewrite Hm).
  split_and!; [done| |].
  - eexists. unfold run. rewrite Hrev, Hb. by split_and!.
  - intros fuel' config' Hfwd Hsrc.
    destruct (failed_root_lookup_finishes fuel' config' w t Hfwd Hsrc)
      as (st & Hrun & _).
    by exists st.
Qed.

Lemma reverse_online_aborts_run_witness :
  build_complete_dependency_graph online_reverse_config
    (Fixtures.text_world "") (initial_state 0)
  = Some (inl (GraphBuildError ReverseOnline))
  /\ (exists st,
        run 0 online_reverse_config (Fixtures.text_world "") 0
        = Exit1 (GraphBuildError ReverseOnline) st
        /\ visited_packages st = ∅
        /\ dependency_graph st = PyDict.empty
        /\ List.filter is_analysis (output st) = [])
  /\ (forall fuel' config',
        reverse_mode config' = false ->
        source_of config' (Fixtures.text_world "") O (package_name config')
        = None ->
        exists st,
          run (S fuel') config' (Fixtures.text_world "") 0 = Finished st).
Proof.
  apply (reverse_online_aborts_run 0 online_reverse_config
           (Fixtures.text_world "") 0); reflexivity.
Defined.

(** ** A failed lookup *)

(** The source in which every failure is replaced by an empty answer. *)
Definition recovered (source : Source) : Source :=
  fun t n => Some (default [] (source t n)).

Lemma recovered_related source n a b :
  related eq a b ->
  fst (get_dependencies (recovered source) n a)
  = fst (get_dependencies source n b)
  /\ related eq (snd (get_dependencies (recovered source) n a))
       (snd (get_dependencies source n b)).
Proof.
  intros ((Hg & Hr & Hv & Hc) & He). unfold get_dependencies, recovered.
  rewrite He. destruct (source (clock b) n); simpl.
  - split; [done|]. split; [by split_and!|]. simpl. by rewrite He.
  - split; [done|]. split; [by split_and!|]. simpl. by rewrite He.
Qed.

(** C7. When the lookup of a package fails, the call that expands it
    returns normally: the failure is printed, the package is recorded
    with the empty list and nothing is recursed into. For the build as a
    whole the failure is the same as an empty answer: whenever the build
    over the source with failures replaced by empty lists returns, the
    build over the failing source returns too, with the same graph,
    visited set, cycle flag and read counter. *)
Theorem failed_lookup_is_recorded_as_leaf config source fuel n d p st :
  source (clock st) n = None ->
  depth_limit_reached config d = false ->
  n ∉ p ->
  should_skip_package config n = false ->
  n ∉ visited_packages st ->
  let st' :=
    record_node n []
      (print (LookupErrorPrinted n)
         (tick (print (AnalysisPrinted n d) (add_visited n st)))) in
  bfs_build_dependency_graph config source (S fuel) n d p st = Some st'
  /\ PyDict.find (dependency_graph st') n = Some []
  /\ n ∈ visited_packages st'
  /\ LookupErrorPrinted n ∈ output st'
  /\ (forall fuel0 n0 d0 p0 s s',
        bfs_build_dependency_graph config (recovered source) fuel0 n0 d0 p0 s
        = Some s' ->
        exists s'',
          bfs_build_dependency_graph config source fuel0 n0 d0 p0 s = Some s''
          /\ same_core s' s'' /\ clock s' = clock s'').
Proof.
  intros Hfail Hd Hp Hs Hv st'. split_and!.
  - simpl. apply in_path_false in Hp. rewrite Hd, Hp, Hs.
    case_bool_decide; [done|]. unfold get_dependencies. simpl.
    by rewrite Hfail.
  - simpl. apply find_set_eq.
  - simpl. set_solver.
  - simpl. rewrite !elem_of_app, !list_elem_of_singleton. auto.
  - intros fuel0 n0 d0 p0 s s'.
    rewrite !bfs_build_dependency_graph_traverse. intros H.
    eapply (traverse_sim config _ (get_dependencies source) eq) in H
      as (s'' & Hs'' & HR & He); [by exists s''| |done].
    intros. by apply recovered_related.
Qed.

Lemma failed_lookup_is_recorded_as_leaf_witness :
  let st0 :=
    record_node "A" ["B"; "C"]
      (tick (print (AnalysisPrinted "A" 0) (add_visited "A" (initial_state 0)))) in
  let st' :=
    record_node "B" []
      (print (LookupErrorPrinted "B")
         (tick (print (AnalysisPrinted "B" 1) (add_visited "B" st0)))) in
  bfs_build_dependency_graph (Fixtures.offline "A" None None false)
    source_failing_on_B 3 "B" 1 ["A"] st0 = Some st'
  /\ PyDict.find (dependency_graph st') "B" = Some []
  /\ "B" ∈ visited_packages st'
  /\ LookupErrorPrinted "B" ∈ output st'
  /\ (forall fuel0 n0 d0 p0 s s',
        bfs_build_dependency_graph (Fixtures.offline "A" None None false)
          (recovered source_failing_on_B) fuel0 n0 d0 p0 s = Some s' ->
        exists s'',
          bfs_build_dependency_graph (Fixtures.offline "A" None None false)
            source_failing_on_B fuel0 n0 d0 p0 s = Some s''
          /\ same_core s' s'' /\ clock s' = clock s'').
Proof.
  apply (failed_lookup_is_recorded_as_leaf
           (Fixtures.offline "A" None None false) source_failing_on_B 2 "B" 1
           ["A"]).
  - reflexivity.
  - reflexivity.
  - intros H. apply list_elem_of_singleton in H. discriminate H.
  - reflexivity.
  - simpl. intros H. apply elem_of_union in H as [H|H].
    + by apply not_elem_of_empty in H.
    + apply elem_of_singleton in H. discriminate H.
Defined.

(** ** Determinism *)

Lemma deterministic_related source n a b :
  (forall t t' k, source t k = source t' k) ->
  related (fun _ _ => True) a b ->
  fst (get_dependencies source n a) = fst (get_dependencies source n b)
  /\ related (fun _ _ => True) (snd (get_dependencies source n a))
       (snd (get_dependencies source n b)).
Proof.
  intros Hdet ((Hg & Hr & Hv & Hc) & _). unfold get_dependencies.
  rewrite (Hdet (clock a) (clock b) n).
  destruct (source (clock b) n); simpl; (split; [done|]); split; try done;
    by split_and!.
Qed.

(** C9. Over a source that answers the same list for the same name at
    every read, two forward builds with the same root, depth limit and
    filter, started at any two moments, behave alike: when the first
    returns so does the second, with the same graph (keys, their order
    and every dependency list), visited set and cycle flag. *)
Theorem forward_build_is_repeatable config source fuel root t1 t2 st1 :
  (forall t t' n, source t n = source t' n) ->
  bfs_build_dependency_graph config source fuel root 0 [] (initial_state t1)
  = Some st1 ->
  exists st2,
    bfs_build_dependency_graph config source fuel root 0 [] (initial_state t2)
    = Some st2
    /\ dependency_graph st2 = dependency_graph st1
    /\ visited_packages st2 = visited_packages st1
    /\ cycle_detected st2 = cycle_detected st1.
Proof.
  intros Hdet. rewrite !bfs_build_dependency_graph_traverse. intros H.
  eapply (traverse_sim config _ (get_dependencies source) (fun _ _ => True))
    in H as (st2 & Hst2 & (Hg & Hr & Hv & Hc) & _).
  - exists st2. by split_and!.
  - intros. by apply deterministic_related.
  - by split.
Qed.

Lemma forward_build_is_repeatable_witness :
  exists st2,
    bfs_build_dependency_graph (Fixtures.offline "A" None None false)
      (source_of (Fixtures.offline "A" None None false)
         (Fixtures.text_world Fixtures.simple_test))
      10 "A" 0 [] (initial_state 7) = Some st2
    /\ dependency_graph st2 = dependency_graph repeatable_st1
    /\ visited_packages st2 = visited_packages repeatable_st1
    /\ cycle_detected st2 = cycle_detected repeatable_st1.
Proof.
  apply (forward_build_is_repeatable (Fixtures.offline "A" None None false)
           (source_of (Fixtures.offline "A" None None false)
              (Fixtures.text_world Fixtures.simple_test))
           10 "A" 0 7 repeatable_st1).
  - intros t t' n. reflexivity.
  - vm_compute. reflexivity.
Defined.

(** ** Level analysis *)

(** The step of the loop of [calculate_dependency_level]. *)
Definition level_step (g : graph) (level : string -> option Z)
    (acc : option Z) (dep : string) : option Z :=
  max_child_level ← acc;
  if PyDict.mem g dep then
    child_level ← level dep; Some (Z.max max_child_level child_level)
  else Some max_child_level.

Lemma calculate_dependency_level_S fuel g a :
  calculate_dependency_level (S fuel) g a
  = match PyDict.get g a [] with
    | [] => Some 0
    | deps =>
        max_child_level ←
          foldl (level_step g (calculate_dependency_level fuel g)) (Some 0) deps;
        Some (max_child_level + 1)
    end.
Proof. reflexivity. Qed.

(** The recorded dependencies of [a] that are themselves keys. *)
Definition key_dependencies (g : graph) (a : string) : names :=
  List.filter (PyDict.mem g) (PyDict.get g a []).

(** An edge that the level computation follows. *)
Definition level_edge (g : graph) (a b : string) : Prop :=
  b ∈ key_dependencies g a.

(** No package is its own descendant. *)
Definition acyclic (g : graph) : Prop :=
  forall a, ~ tc (level_edge g) a a.

(** The greatest element of a list of levels, 0 for the empty list. *)
Definition max_level (ls : list Z) : Z := foldr Z.max 0 ls.

Lemma foldl_level_step g level (L : string -> Z) deps m :
  (forall dep, dep ∈ deps -> PyDict.mem g dep = true -> level dep = Some (L dep)) ->
  foldl (level_step g level) (Some m) deps
  = Some (Z.max m (max_level (map L (List.filter (PyDict.mem g) deps)))) \/
    (m < 0).
Proof.
  revert m. induction deps as [|dep deps IH]; intros m Hl.
  - destruct (decide (m < 0)); [by right|left]. simpl. f_equal.
    unfold max_level. simpl. lia.
  - destruct (decide (m < 0)); [by right|left]. simpl.
    destruct (PyDict.mem g dep) eqn:Hm; simpl.
    + rewrite (Hl dep) by (done || apply list_elem_of_here). simpl.
      destruct (IH (Z.max m (L dep))) as [->|?]; [|f_equal|lia].
      { intros d Hd. apply Hl. by apply list_elem_of_further. }
      unfold max_level. simpl. lia.
    + destruct (IH m) as [->|?]; [|done|lia].
      intros d Hd. apply Hl. by apply list_elem_of_further.
Qed.

Lemma key_dependencies_key g a b : b ∈ key_dependencies g a -> b ∈ PyDict.keys g.
Proof.
  unfold key_dependencies. rewrite list_elem_of_In, filter_In.
  intros [_ H]. by apply mem_keys.
Qed.

Lemma key_dependencies_intro g a b :
  b ∈ PyDict.get g a [] -> PyDict.mem g b = true -> b ∈ key_dependencies g a.
Proof.
  intros H1 H2. unfold key_dependencies. rewrite list_elem_of_In, filter_In.
  split; [by apply list_elem_of_In|done].
Qed.

(** Along a chain of distinct ancestors inside an acyclic graph the
    recursion has room left. *)
Lemma calculate_dependency_level_total g :
  acyclic g ->
  forall fuel a anc,
    NoDup anc ->
    (forall x, x ∈ anc -> x ∈ PyDict.keys g /\ tc (level_edge g) x a) ->
    a ∈ PyDict.keys g ->
    (length g <= length anc + fuel)%nat ->
    is_Some (calculate_dependency_level fuel g a).
Proof.
  intros Hacyc. induction fuel as [|fuel IH]; intros a anc Hnd Hanc Ha Hlen.
  - exfalso.
    assert (a ∉ anc) as Hfresh.
    { intros Hin. apply (Hacyc a). by apply Hanc. }
    assert (a :: anc ⊆+ PyDict.keys g) as Hsub.
    { apply NoDup_submseteq; [by apply NoDup_cons|].
      intros x Hx. apply elem_of_cons in Hx as [->|Hx]; [done|]. by apply Hanc. }
    apply submseteq_length in Hsub. unfold PyDict.keys in Hsub.
    rewrite length_map in Hsub. simpl in Hsub. lia.
  - rewrite calculate_dependency_level_S.
    destruct (PyDict.get g a []) as [|d0 ds] eqn:Hdeps; [done|].
    assert (a ∉ anc) as Hfresh.
    { intros Hin. apply (Hacyc a). by apply Hanc. }
    assert (forall dep, dep ∈ d0 :: ds -> PyDict.mem g dep = true ->
              is_Some (calculate_dependency_level fuel g dep)) as Hchild.
    { intros dep Hdep Hmem.
      assert (level_edge g a dep) as Hedge.
      { apply key_dependencies_intro; [by rewrite Hdeps|done]. }
      apply (IH dep (a :: anc)).
      - by apply NoDup_cons.
      - intros x Hx. apply elem_of_cons in Hx as [->|Hx].
        + split; [done|]. by apply tc_once.
        + split; [by apply Hanc|]. eapply tc_r; [by apply Hanc|done].
      - by apply mem_keys.
      - simpl. lia. }
    destruct (foldl_level_step g (calculate_dependency_level fuel g)
                (fun dep => default 0 (calculate_dependency_level fuel g dep))
                (d0 :: ds) 0) as [->|?]; [|done|lia].
    intros dep Hdep Hmem. by destruct (Hchild dep Hdep Hmem) as [v ->].
Qed.

Lemma foldl_level_step_None g level deps :
  foldl (level_step g level) None deps = None.
Proof. induction deps as [|dep deps IH]; simpl; auto. Qed.

Lemma foldl_level_step_mono g level level' deps acc v :
  (forall dep w, dep ∈ deps -> level dep = Some w -> level' dep = Some w) ->
  foldl (level_step g level) acc deps = Some v ->
  foldl (level_step g level') acc deps = Some v.
Proof.
  revert acc. induction deps as [|dep deps IH]; intros acc Hl; simpl; [done|].
  intros H.
  destruct (level_step g level acc dep) as [m'|] eqn:Hstep;
    [|by rewrite foldl_level_step_None in H].
  assert (level_step g level' acc dep = Some m') as ->.
  { unfold level_step in *. destruct acc as [m|]; simpl in *; [|done].
    destruct (PyDict.mem g dep); [|done].
    destruct (level dep) as [w|] eqn:Ew; [|done].
    by rewrite (Hl dep w) by (done || apply list_elem_of_here). }
  apply IH; [|done]. intros d w Hd. apply Hl. by apply list_elem_of_further.
Qed.

(** More fuel never changes a level. *)
Lemma calculate_dependency_level_mono g fuel fuel' a v :
  calculate_dependency_level fuel g a = Some v ->
  (fuel <= fuel')%nat ->
  calculate_dependency_level fuel' g a = Some v.
Proof.
  revert fuel' a v. induction fuel as [|fuel IH]; intros fuel' a v H Hle;
    [done|].
  destruct fuel' as [|fuel']; [lia|].
  rewrite calculate_dependency_level_S in *.
  destruct (PyDict.get g a []) as [|d0 ds]; [done|].
  destruct (foldl (level_step g (calculate_dependency_level fuel g))
              (Some 0) (d0 :: ds)) as [m|] eqn:Hf; [|done].
  rewrite (foldl_level_step_mono g (calculate_dependency_level fuel g)
             (calculate_dependency_level fuel' g) (d0 :: ds) (Some 0) m);
    [done| |done].
  intros dep w _ Hw. apply IH; [done|lia].
Qed.

(** The level of a package: the value computed with fuel for the whole
    graph. *)
Definition level_of (g : graph) (a : string) : Z :=
  default 0 (calculate_dependency_level (S (length g)) g a).

(** C8. On an acyclic adjacency map the level computation returns for
    every key as soon as the fuel exceeds the number of keys; the level
    is 0 when the recorded dependency list is empty, and otherwise 1
    plus the greatest level among the dependencies that are keys of the
    map (0 when none is). *)
Theorem dependency_level_on_acyclic_graph g a :
  acyclic g ->
  a ∈ PyDict.keys g ->
  (forall fuel, (length g < fuel)%nat ->
     calculate_dependency_level fuel g a = Some (level_of g a))
  /\ (PyDict.get g a [] = [] -> level_of g a = 0)
  /\ (PyDict.get g a [] <> [] ->
      level_of g a
      = 1 + max_level (map (level_of g) (key_dependencies g a))).
Proof.
  intros Hacyc Ha.
  assert (forall b, b ∈ PyDict.keys g ->
            calculate_dependency_level (S (length g)) g b
            = Some (level_of g b)) as Hlevel.
  { intros b Hb. unfold level_of.
    destruct (calculate_dependency_level_total g Hacyc (S (length g)) b [])
      as [v ->]; try done.
    - apply NoDup_nil_2.
    - intros x Hx. by apply elem_of_nil in Hx.
    - simpl. lia. }
  split_and!.
  - intros fuel Hfuel.
    apply (calculate_dependency_level_mono g (S (length g))); [auto|lia].
  - intros Hnil. unfold level_of. rewrite calculate_dependency_level_S, Hnil.
    done.
  - intros Hne.
    pose proof (Hlevel a Ha) as Hup.
    apply (calculate_dependency_level_mono g _ (S (S (length g)))) in Hup;
      [|lia].
    rewrite calculate_dependency_level_S in Hup.
    unfold key_dependencies.
    destruct (PyDict.get g a []) as [|d0 ds] eqn:Hdeps; [done|].
    destruct (foldl_level_step g
                (calculate_dependency_level (S (length g)) g)
                (level_of g) (d0 :: ds) 0) as [Hf|?]; [| |lia].
    + intros dep _ Hmem. apply Hlevel. by apply mem_keys.
    + assert (0 <= max_level (map (level_of g)
                                (List.filter (PyDict.mem g) (d0 :: ds)))).
      { generalize (map (level_of g) (List.filter (PyDict.mem g) (d0 :: ds))).
        intros l. induction l; unfold max_level in *; simpl; lia. }
      remember (max_level (map (level_of g)
                             (List.filter (PyDict.mem g) (d0 :: ds)))) as M.
      rewrite Hf in Hup. simpl in Hup. injection Hup as <-. lia.
Qed.

Lemma tc_first_step {A} (R : relation A) x z :
  tc R x z -> exists y, R x y /\ rtc R y z.
Proof.
  intros [x' z' H|x' y z' H1 H2]; [exists z'|exists y]; split; try done.
  by apply tc_rtc.
Qed.

Lemma tc_last_step {A} (R : relation A) x z :
  tc R x z -> exists y, rtc R x y /\ R y z.
Proof.
  induction 1 as [x z H|x y z H1 H2 (w & Hw1 & Hw2)].
  - exists x. split; [apply rtc_refl|done].
  - exists w. split; [by eapply rtc_l|done].
Qed.

(** From a package that reaches a cycle the computation never returns,
    whatever the fuel: there is no cycle guard. *)
Lemma calculate_dependency_level_diverges g fuel a b :
  rtc (level_edge g) a b -> tc (level_edge g) b b ->
  calculate_dependency_level fuel g a = None.
Proof.
  revert a. induction fuel as [|fuel IH]; intros a Hab Hbb; [done|].
  assert (exists c, level_edge g a c /\ rtc (level_edge g) c b) as (c & Hac & Hcb).
  { destruct Hab as [|a c b Hac Hcb]; [|by exists c].
    apply tc_first_step in Hbb. destruct Hbb as (c & Hac & Hcb).
    by exists c. }
  rewrite calculate_dependency_level_S.
  unfold level_edge, key_dependencies in Hac.
  apply list_elem_of_In, filter_In in Hac as [Hin Hmem].
  destruct (PyDict.get g a []) as [|d0 ds] eqn:Hdeps; [by destruct Hin|].
  enough (forall acc, foldl (level_step g (calculate_dependency_level fuel g))
                        acc (d0 :: ds) = None) as -> by done.
  apply list_elem_of_In in Hin. revert Hin. generalize (d0 :: ds).
  intros l Hin. induction l as [|x l IHl]; intros acc;
    [by apply elem_of_nil in Hin|].
  simpl. apply elem_of_cons in Hin as [<-|Hin]; [|by apply IHl].
  unfold level_step at 2. destruct acc as [m|]; simpl;
    [|apply foldl_level_step_None].
  rewrite Hmem, (IH c Hcb Hbb). simpl. apply foldl_level_step_None.
Qed.

(** A graph on which every key has a level is acyclic. *)
Lemma levels_defined_acyclic g :
  forallb (fun k => bool_decide
                      (is_Some (calculate_dependency_level (S (length g)) g k)))
    (PyDict.keys g) = true ->
  acyclic g.
Proof.
  intros Hall a Hcyc.
  assert (a ∈ PyDict.keys g) as Ha.
  { apply tc_last_step in Hcyc. destruct Hcyc as (c & _ & Hca).
    by eapply key_dependencies_key. }
  rewrite forallb_forall in Hall. apply list_elem_of_In, Hall in Ha.
  apply bool_decide_eq_true in Ha.
  rewrite (calculate_dependency_level_diverges g _ a a) in Ha;
    [by destruct Ha|apply rtc_refl|done].
Qed.

Lemma dependency_level_on_acyclic_graph_witness :
  (forall fuel, (6 < fuel)%nat ->
     calculate_dependency_level fuel simple_graph "A" = Some 3)
  /\ (PyDict.get simple_graph "A" [] = [] -> level_of simple_graph "A" = 0)
  /\ (PyDict.get simple_graph "A" [] <> [] ->
      level_of simple_graph "A"
      = 1 + max_level (map (level_of simple_graph)
                         (key_dependencies simple_graph "A"))).
Proof.
  apply (dependency_level_on_acyclic_graph simple_graph "A").
  - apply levels_defined_acyclic. vm_compute. reflexivity.
  - apply list_elem_of_here.
Defined.

(** ** The name filter *)

(** [should_skip_package] answers "skip" exactly for the names that
    contain a non-empty filter, compared in lower case. *)
Lemma should_skip_package_true config n :
  should_skip_package config n = true <->
  exists f, filter_substring config = Some f /\ f <> EmptyString
            /\ PyStr.contains (PyStr.lower f) (PyStr.lower n) = true.
Proof.
  unfold should_skip_package. destruct (filter_substring config) as [f|].
  - rewrite andb_true_iff. split.
    + intros [Hf Hc]. exists f. split_and!; [done| |done]. by intros ->.
    + intros (f' & [= <-] & Hf & Hc). split; [by destruct f|done].
  - split; [done|]. by intros (f & ? & _).
Qed.

(** Neither traversal ever visits or records a package whose name
    contains the filter. *)
Lemma matching_names_are_never_visited config lookup fuel n d p st st' k :
  (forall m s, same_core s (snd (lookup m s))
               /\ (clock s <= clock (snd (lookup m s)))%nat
               /\ output s `prefix_of` output (snd (lookup m s))) ->
  traverse config lookup fuel n d p st = Some st' ->
  should_skip_package config k = true ->
  k ∉ visited_packages st ->
  (k ∉ visited_packages st')
  /\ PyDict.find (dependency_graph st') k = PyDict.find (dependency_graph st) k.
Proof.
  intros Hlookup H Hskip Hk.
  pose proof (traverse_sound config lookup (fun _ => True) (fun _ _ => True)
                (fun _ _ _ _ => I) (fun m s _ => conj I (Hlookup m s))
                fuel n d p st st' I H) as (_ & Hgrow & Hfresh).
  assert (k ∉ visited_packages st') as Hk'.
  { intros Hin. destruct (Hfresh k Hin Hk) as (Hs & _). congruence. }
  split; [done|]. apply (grows_graph _ _ Hgrow). by right.
Qed.


(** ** The depth limit *)

(** [b] is in the list recorded for [a]. *)
Definition recorded_edge (g : graph) (a b : string) : Prop :=
  exists l, PyDict.find g a = Some l /\ b ∈ l.

(** A recorded edge that leaves a visited package. *)
Definition visited_edge (st : State) (a b : string) : Prop :=
  a ∈ visited_packages st /\ recorded_edge (dependency_graph st) a b.

Lemma visited_edge_grows st st' a b :
  grows st st' -> visited_edge st a b -> visited_edge st' a b.
Proof.
  intros Hg [Ha (l & Hl & Hb)]. split; [by apply (grows_visited _ _ Hg)|].
  exists l. split; [|done]. rewrite (grows_graph _ _ Hg); auto.
Qed.

Lemma visited_path_grows st st' m a b :
  grows st st' -> nsteps (visited_edge st) m a b -> nsteps (visited_edge st') m a b.
Proof.
  intros Hg. apply (nsteps_congruence id). intros x y. by apply visited_edge_grows.
Qed.

Section DepthLimit.

Variable config : Config.
Variable lookup : string -> State -> names * State.
Variable limit : Z.

Hypothesis limit_set : max_depth config = Some limit.

Hypothesis lookup_frame : forall n s,
    same_core s (snd (lookup n s))
    /\ (clock s <= clock (snd (lookup n s)))%nat
    /\ output s `prefix_of` output (snd (lookup n s)).

Lemma depth_limit_reached_false d :
  depth_limit_reached config d = false -> limit = 0 \/ d < limit.
Proof.
  unfold depth_limit_reached. rewrite limit_set. intros H.
  apply andb_false_iff in H as [H|H].
  - left. by apply negb_false_iff, Z.eqb_eq in H.
  - right. by apply Z.leb_gt in H.
Qed.

Lemma depth_limit_reached_true d :
  limit <> 0 -> limit <= d -> depth_limit_reached config d = true.
Proof.
  intros H0 Hd. unfold depth_limit_reached. rewrite limit_set.
  apply andb_true_iff. split.
  - apply negb_true_iff. by apply Z.eqb_neq.
  - by apply Z.leb_le.
Qed.

Lemma traverse_sound_frame fuel n d p st st' :
  traverse config lookup fuel n d p st = Some st' ->
  grows st st'.
Proof.
  intros H.
  by destruct (traverse_sound config lookup (fun _ => True) (fun _ _ => True)
                 (fun _ _ _ _ => I) (fun m s _ => conj I (lookup_frame m s))
                 fuel n d p st st' I H) as (_ & Hgrow & _).
Qed.

(** Every package visited by a call at depth [d] is reached from the
    package of the call by a path of recorded edges that stays below the
    limit. *)
Lemma traverse_paths_below_limit fuel n d p st st' :
  limit <> 0 ->
  traverse config lookup fuel n d p st = Some st' ->
  forall k, k ∈ visited_packages st' -> k ∉ visited_packages st ->
    exists m, nsteps (visited_edge st') m n k /\ d + Z.of_nat m < limit.
Proof.
  intros Hlim. revert n d p st st'.
  induction fuel as [|fuel IH]; intros n d p st st' H; [done|].
  apply traverse_cases in H.
  destruct H as [Hd ->|Hd Hp ->|Hd Hp Hs ->|Hd Hp Hs Hv ->|Hd Hp Hs Hv H];
    try (intros k Hk Hk'; done).
  destruct (depth_limit_reached_false d Hd) as [?|Hlt]; [done|].
  destruct (sound_step_expand config lookup (fun _ => True) (fun _ _ => True)
              (fun _ _ _ _ => I) (fun m s _ => conj I (lookup_frame m s))
              n d st I Hv Hs) as ((_ & Hg4 & _) & Hn4 & Hfind4 & _).
  set (found := fst (expand lookup n d st)) in *.
  set (st4 := snd (expand lookup n d st)) in *.
  assert (visited_packages st4 = visited_packages st ∪ {[n]}) as Hv4.
  { unfold st4, expand. simpl.
    by destruct (lookup_frame n (print (AnalysisPrinted n d) (add_visited n st)))
      as ((_ & _ & <- & _) & _). }
  revert H. apply (for_each_invariant
    (fun s => grows st4 s /\
       forall k, k ∈ visited_packages s -> k ∉ visited_packages st ->
         exists m, nsteps (visited_edge s) m n k /\ d + Z.of_nat m < limit)).
  - split; [apply grows_refl|]. intros k Hk Hk'.
    assert (k = n) as -> by (rewrite Hv4 in Hk; set_solver).
    exists 0%nat. split; [constructor|]. simpl. lia.
  - intros x s s' Hx [Hgs Hpaths] Hcall.
    pose proof (traverse_sound_frame _ _ _ _ _ _ Hcall) as Hgs'.
    split; [by eapply grows_trans|]. intros k Hk Hk'.
    destruct (decide (k ∈ visited_packages s)) as [Hks|Hks].
    + destruct (Hpaths k Hks Hk') as (m & Hm & Hlen). exists m.
      split; [by eapply visited_path_grows|done].
    + destruct (IH _ _ _ _ _ Hcall k Hk Hks) as (m & Hm & Hlen).
      exists (S m). split; [|lia].
      eapply nsteps_l; [|exact Hm].
      eapply visited_edge_grows; [exact (grows_trans _ _ _ Hgs Hgs')|].
      split; [done|]. by exists found.
Qed.

End DepthLimit.

(** In a forward build from scratch the keys of the graph are the
    visited packages. *)
Lemma forward_keys_visited config source fuel root t st k :
  bfs_build_dependency_graph config source fuel root 0 [] (initial_state t)
  = Some st ->
  k ∈ PyDict.keys (dependency_graph st) -> k ∈ visited_packages st.
Proof.
  intros H Hk. apply forward_sound in H as (Hg & _).
  destruct (decide (k ∈ visited_packages st)) as [|Hn]; [done|].
  exfalso. apply find_None_keys in Hk; [done|].
  rewrite (grows_graph _ _ Hg); [done|by right].
Qed.

(** C4 (amended). With a positive depth limit, a call at a depth that
    is not below the limit returns at once, leaving the graph and the
    visited set as they are; the forward build from scratch returns
    whenever the fuel exceeds the limit, and every key of its graph is
    reached from the root by a path of recorded edges that is shorter
    than the limit. *)
Theorem depth_limit_bounds_some_recorded_path
    config source limit fuel root t :
  max_depth config = Some limit ->
  0 < limit ->
  (forall fuel' n d p st,
      limit <= d ->
      bfs_build_dependency_graph config source (S fuel') n d p st = Some st)
  /\ ((Z.to_nat limit < fuel)%nat ->
      exists st,
        bfs_build_dependency_graph config source fuel root 0 []
          (initial_state t) = Some st)
  /\ (forall st,
        bfs_build_dependency_graph config source fuel root 0 []
          (initial_state t) = Some st ->
        forall k, k ∈ PyDict.keys (dependency_graph st) ->
          exists m, nsteps (recorded_edge (dependency_graph st)) m root k
                    /\ Z.of_nat m < limit).
Proof.
  intros Hmax Hpos. split_and!.
  - intros fuel' n d p st Hd. simpl.
    by rewrite (depth_limit_reached_true config limit Hmax d) by lia.
  - intros Hfuel. rewrite bfs_build_dependency_graph_traverse.
    eapply (traverse_terminates_depth config (get_dependencies source)
              (fun _ => True) (answer_of source)); try done.
    + intros. apply get_dependencies_spec.
    + lia.
    + lia.
    + lia.
  - intros st H k Hk.
    pose proof (forward_keys_visited _ _ _ _ _ _ _ H Hk) as Hv.
    rewrite bfs_build_dependency_graph_traverse in H.
    destruct (traverse_paths_below_limit config (get_dependencies source)
                limit Hmax (fun n s => proj2 (get_dependencies_spec source n s))
                fuel root 0 [] _ st ltac:(lia) H k Hv)
      as (m & Hm & Hlen); [set_solver|].
    exists m. split; [|lia].
    eapply (nsteps_congruence id); [|exact Hm]. by intros x y [_ ?].
Qed.

Lemma depth_limit_bounds_some_recorded_path_witness :
  (forall fuel' n d p st,
      3 <= d ->
      bfs_build_dependency_graph (Fixtures.offline "A" (Some 3) None false)
        (source_of (Fixtures.offline "A" (Some 3) None false)
           (Fixtures.text_world depth_fixture))
        (S fuel') n d p st = Some st)
  /\ ((Z.to_nat 3 < 10)%nat ->
      exists st,
        bfs_build_dependency_graph (Fixtures.offline "A" (Some 3) None false)
          (source_of (Fixtures.offline "A" (Some 3) None false)
             (Fixtures.text_world depth_fixture))
          10 "A" 0 [] (initial_state 0) = Some st)
  /\ (forall st,
        bfs_build_dependency_graph (Fixtures.offline "A" (Some 3) None false)
          (source_of (Fixtures.offline "A" (Some 3) None false)
             (Fixtures.text_world depth_fixture))
          10 "A" 0 [] (initial_state 0) = Some st ->
        forall k, k ∈ PyDict.keys (dependency_graph st) ->
          exists m, nsteps (recorded_edge (dependency_graph st)) m "A" k
                    /\ Z.of_nat m < 3).
Proof.
  apply (depth_limit_bounds_some_recorded_path
           (Fixtures.offline "A" (Some 3) None false)
           (source_of (Fixtures.offline "A" (Some 3) None false)
              (Fixtures.text_world depth_fixture))
           3 10 "A" 0).
  - reflexivity.
  - lia.
Defined.

(** C4 (counterexample). With the limit 3 the key [K] is recorded, and
    so is every edge of the path A, B, C, X, K of length 4. *)
Lemma depth_limit_longer_recorded_path :
  exists st,
    run 10 (Fixtures.offline "A" (Some 3) None false)
      (Fixtures.text_world depth_fixture) 0 = Finished st
    /\ dependency_graph st
       = [("A", ["X"; "B"]); ("X", ["K"]); ("K", []); ("B", ["C"]);
          ("C", ["X"])]
    /\ ~ (forall k m,
            k ∈ PyDict.keys (dependency_graph st) ->
            nsteps (recorded_edge (dependency_graph st)) m "A" k ->
            (m <= 3)%nat).
Proof.
  eexists. split; [vm_compute; reflexivity|]. split; [reflexivity|].
  intros Hall. specialize (Hall "K" 4%nat).
  enough (4 <= 3)%nat by lia. apply Hall.
  - simpl. set_solver.
  - simpl.
    apply (nsteps_l _ _ _ "B"); [by exists ["X"; "B"]; split; [|set_solver]|].
    apply (nsteps_l _ _ _ "C"); [by exists ["C"]; split; [|set_solver]|].
    apply (nsteps_l _ _ _ "X"); [by exists ["X"]; split; [|set_solver]|].
    apply (nsteps_l _ _ _ "K"); [by exists ["K"]; split; [|set_solver]|].
    constructor.
Qed.

(** ** Unlimited, unfiltered builds over a fixed graph *)

Section Reachability.

Variable config : Config.
Variable lookup : string -> State -> names * State.

(** The graph being explored: the lookup answers [succ n] for [n],
    whenever it is asked. *)
Variable succ : string -> names.

Hypothesis no_depth_limit : forall d, depth_limit_reached config d = false.
Hypothesis no_filter : forall n, should_skip_package config n = false.

Hypothesis lookup_succ : forall n s,
    fst (lookup n s) = succ n
    /\ same_core s (snd (lookup n s))
    /\ (clock s <= clock (snd (lookup n s)))%nat
    /\ output s `prefix_of` output (snd (lookup n s)).

Definition edge (a b : string) : Prop := b ∈ succ a.

Lemma lookup_succ_frame n s :
  same_core s (snd (lookup n s))
  /\ (clock s <= clock (snd (lookup n s)))%nat
  /\ output s `prefix_of` output (snd (lookup n s)).
Proof. apply lookup_succ. Qed.

Lemma expand_succ n d st :
  n ∉ visited_packages st ->
  fst (expand lookup n d st) = succ n
  /\ grows st (snd (expand lookup n d st))
  /\ visited_packages (snd (expand lookup n d st)) = visited_packages st ∪ {[n]}
  /\ cycle_detected (snd (expand lookup n d st)) = cycle_detected st
  /\ PyDict.find (dependency_graph (snd (expand lookup n d st))) n
     = Some (succ n).
Proof.
  intros Hv.
  destruct (sound_step_expand config lookup (fun _ => True)
              (fun k l => l = succ k) (fun _ _ _ _ => I)
              (fun m s _ => lookup_succ m s) n d st I Hv (no_filter n))
    as ((_ & Hg & _) & _ & Hfind & Hfst).
  split_and!; try done.
  - unfold expand. simpl.
    by destruct (lookup_succ n (print (AnalysisPrinted n d) (add_visited n st)))
      as (_ & (_ & _ & <- & _) & _).
  - unfold expand. simpl.
    by destruct (lookup_succ n (print (AnalysisPrinted n d) (add_visited n st)))
      as (_ & (_ & _ & _ & <-) & _).
  - by rewrite Hfind, Hfst.
Qed.

(** Every visited package off the current path has all its successors
    visited. *)
Definition closed_outside (p : names) (st : State) : Prop :=
  forall v w, v ∈ visited_packages st -> v ∉ p -> edge v w ->
    w ∈ visited_packages st.

Lemma traverse_closed fuel n d p st st' :
  traverse config lookup fuel n d p st = Some st' ->
  (forall x, x ∈ p -> x ∈ visited_packages st) ->
  closed_outside p st ->
  n ∈ visited_packages st' /\ closed_outside p st'.
Proof.
  revert n d p st st'.
  induction fuel as [|fuel IH]; intros n d p st st' H Hpath Hclosed; [done|].
  apply traverse_cases in H.
  destruct H as [Hd ->|Hd Hp ->|Hd Hp Hs ->|Hd Hp Hs Hv ->|Hd Hp Hs Hv H].
  - by rewrite no_depth_limit in Hd.
  - split; [by apply Hpath|done].
  - by rewrite no_filter in Hs.
  - done.
  - destruct (expand_succ n d st Hv) as (Hfst & Hg4 & Hv4 & _ & _).
    rewrite Hfst in H.
    set (st4 := snd (expand lookup n d st)) in *.
    enough (grows st4 st' /\ closed_outside (p ++ [n])%list st'
            /\ forall c, c ∈ succ n -> c ∈ visited_packages st')
      as (Hg & Hcl & Hall).
    { split.
      - apply (grows_visited _ _ Hg). rewrite Hv4. set_solver.
      - intros v w Hv' Hvp Hvw. destruct (decide (v = n)) as [->|Hne].
        + by apply Hall.
        + apply (Hcl v w); [done| |done].
          rewrite elem_of_app, list_elem_of_singleton. tauto. }
    revert H. apply (for_each_progress
      (fun done s => grows st4 s /\ closed_outside (p ++ [n])%list s
                     /\ forall c, c ∈ done -> c ∈ visited_packages s)).
    + split_and!; [apply grows_refl| |intros c Hc; by apply elem_of_nil in Hc].
      intros v w Hv' Hvp Hvw.
      rewrite elem_of_app, list_elem_of_singleton in Hvp.
      rewrite Hv4 in Hv' |- *.
      assert (v ∈ visited_packages st) by set_solver.
      apply elem_of_union_l. apply (Hclosed v w); tauto.
    + intros done x s s' Hx (Hgs & Hcl & Hdone) Hcall.
      pose proof (traverse_sound_frame config lookup lookup_succ_frame
                    _ _ _ _ _ _ Hcall) as Hgs'.
      destruct (IH _ _ _ _ _ Hcall) as (Hxs' & Hcl'); [|done|].
      { intros y Hy. apply (grows_visited _ _ Hgs). rewrite Hv4.
        apply elem_of_app in Hy as [Hy|Hy]; [|set_solver].
        apply elem_of_union_l. by apply Hpath. }
      split_and!; [by eapply grows_trans|done|].
      intros c Hc. apply elem_of_app in Hc as [Hc|Hc].
      * apply (grows_visited _ _ Hgs'). by apply Hdone.
      * apply list_elem_of_singleton in Hc as ->. done.
Qed.

(** Everything that the root reaches is visited by a build from scratch. *)
Lemma traverse_visits_reachable fuel root d st st' k :
  traverse config lookup fuel root d [] st = Some st' ->
  visited_packages st = ∅ ->
  rtc edge root k ->
  k ∈ visited_packages st'.
Proof.
  intros H Hempty Hreach.
  destruct (traverse_closed _ _ _ _ _ _ H) as (Hroot & Hcl).
  { intros x Hx. by apply elem_of_nil in Hx. }
  { intros v w Hv. rewrite Hempty in Hv. by apply not_elem_of_empty in Hv. }
  clear H. induction Hreach as [|a b c Hab Hbc IH]; [done|].
  apply IH. apply (Hcl a b); [done|apply not_elem_of_nil|done].
Qed.

(** The build visits nothing but what the package of the call reaches. *)
Lemma traverse_visits_only_reachable fuel n d p st st' k :
  traverse config lookup fuel n d p st = Some st' ->
  k ∈ visited_packages st' -> k ∉ visited_packages st ->
  rtc edge n k.
Proof.
  revert n d p st st'.
  induction fuel as [|fuel IH]; intros n d p st st' H Hk Hk'; [done|].
  apply traverse_cases in H.
  destruct H as [Hd ->|Hd Hp ->|Hd Hp Hs ->|Hd Hp Hs Hv ->|Hd Hp Hs Hv H];
    try done.
  destruct (expand_succ n d st Hv) as (Hfst & Hg4 & Hv4 & _ & _).
  rewrite Hfst in H.
  revert H Hk. apply (for_each_invariant
    (fun s => k ∈ visited_packages s -> rtc edge n k)).
  - intros Hk. rewrite Hv4 in Hk.
    assert (k = n) as -> by set_solver. apply rtc_refl.
  - intros x s s' Hx Hinv Hcall Hk.
    destruct (decide (k ∈ visited_packages s)) as [Hks|Hks]; [by apply Hinv|].
    eapply rtc_l; [exact Hx|]. by eapply IH.
Qed.

(** In a build from scratch every visited package keeps the list of
    its successors. *)
Lemma traverse_records_succ fuel n d p st st' k :
  traverse config lookup fuel n d p st = Some st' ->
  k ∈ visited_packages st' -> k ∉ visited_packages st ->
  PyDict.find (dependency_graph st') k = Some (succ k).
Proof.
  intros H Hk Hk'.
  destruct (traverse_sound config lookup (fun _ => True)
              (fun k l => l = succ k) (fun _ _ _ _ => I)
              (fun m s _ => lookup_succ m s) fuel n d p st st' I H)
    as (_ & _ & Hfresh).
  by destruct (Hfresh k Hk Hk') as (_ & l & -> & ->).
Qed.

(** *** Cycle detection is complete *)

(** The visited packages off the current path are closed under edges and
    none of them lies on a cycle. *)
Definition settled (p : names) (st : State) : Prop :=
  (forall v w, v ∈ visited_packages st -> v ∉ p -> edge v w ->
     w ∈ visited_packages st /\ w ∉ p)
  /\ (forall v, v ∈ visited_packages st -> v ∉ p -> ~ tc edge v v).

Lemma settled_reach p st v w :
  settled p st -> v ∈ visited_packages st -> v ∉ p -> rtc edge v w ->
  w ∈ visited_packages st /\ w ∉ p.
Proof.
  intros [Hcl _] Hv Hp Hreach. induction Hreach as [|a b c Hab Hbc IH]; [done|].
  destruct (Hcl a b Hv Hp Hab). by apply IH.
Qed.

(** As long as no cycle was reported, a call leaves its package settled. *)
Lemma traverse_settled fuel n d p st st' :
  traverse config lookup fuel n d p st = Some st' ->
  (forall x, x ∈ p -> x ∈ visited_packages st) ->
  (cycle_detected st = false -> settled p st) ->
  cycle_detected st' = false ->
  settled p st' /\ n ∈ visited_packages st' /\ n ∉ p.
Proof.
  revert n d p st st'.
  induction fuel as [|fuel IH]; intros n d p st st' H Hpath Hset Hno; [done|].
  apply traverse_cases in H.
  destruct H as [Hd ->|Hd Hp ->|Hd Hp Hs ->|Hd Hp Hs Hv ->|Hd Hp Hs Hv H].
  - by rewrite no_depth_limit in Hd.
  - done.
  - by rewrite no_filter in Hs.
  - split_and!; [by apply Hset|done|done].
  - destruct (expand_succ n d st Hv) as (Hfst & Hg4 & Hv4 & Hc4 & _).
    rewrite Hfst in H.
    set (st4 := snd (expand lookup n d st)) in *.
    enough (grows st4 st'
            /\ (cycle_detected st' = false ->
                settled (p ++ [n])%list st'
                /\ forall c, c ∈ succ n ->
                     c ∈ visited_packages st' /\ c ∉ (p ++ [n])%list))
      as (Hg & Hend).
    { destruct (Hend Hno) as ((Hcl & Hac) & Hall).
      assert (n ∈ visited_packages st') as Hn'.
      { apply (grows_visited _ _ Hg). rewrite Hv4. set_solver. }
      split_and!; [split| |]; try done.
      - intros v w Hv' Hvp Hvw. destruct (decide (v = n)) as [->|Hne].
        + destruct (Hall w Hvw) as [? Hw]. split; [done|].
          rewrite elem_of_app in Hw. tauto.
        + destruct (Hcl v w) as [? Hw]; [done| |done|].
          { rewrite elem_of_app, list_elem_of_singleton. tauto. }
          split; [done|]. rewrite elem_of_app in Hw. tauto.
      - intros v Hv' Hvp. destruct (decide (v = n)) as [->|Hne].
        + intros Hcyc. apply tc_first_step in Hcyc as (c & Hnc & Hcn).
          destruct (Hall c Hnc) as [Hc1 Hc2].
          destruct (settled_reach _ _ c n (conj Hcl Hac) Hc1 Hc2 Hcn) as [_ Hbad].
          apply Hbad. rewrite elem_of_app, list_elem_of_singleton. tauto.
        + apply Hac; [done|].
          rewrite elem_of_app, list_elem_of_singleton. tauto. }
    revert H. apply (for_each_progress
      (fun done s =>
         grows st4 s
         /\ (cycle_detected s = false ->
             settled (p ++ [n])%list s
             /\ forall c, c ∈ done ->
                          c ∈ visited_packages s /\ c ∉ (p ++ [n])%list))).
    + split; [apply grows_refl|]. intros Hno4. rewrite Hc4 in Hno4.
      destruct (Hset Hno4) as [Hcl Hac].
      split; [split|intros c Hc; by apply elem_of_nil in Hc].
      * intros v w Hv' Hvp Hvw.
        rewrite elem_of_app, list_elem_of_singleton in Hvp.
        rewrite Hv4 in Hv'.
        assert (v ∈ visited_packages st) as Hvst by set_solver.
        destruct (Hcl v w) as [Hw1 Hw2]; [done|tauto|done|].
        split; [rewrite Hv4; set_solver|].
        rewrite elem_of_app, list_elem_of_singleton.
        intros [?| ->]; [done|]. done.
      * intros v Hv' Hvp.
        rewrite elem_of_app, list_elem_of_singleton in Hvp.
        rewrite Hv4 in Hv'. apply Hac; [set_solver|tauto].
    + intros done x s s' Hx (Hgs & Hinv) Hcall.
      pose proof (traverse_sound_frame config lookup lookup_succ_frame
                    _ _ _ _ _ _ Hcall) as Hgs'.
      split; [by eapply grows_trans|]. intros Hno'.
      assert (cycle_detected s = false) as Hnos.
      { destruct (cycle_detected s) eqn:E; [|done].
        by rewrite (grows_cycle _ _ Hgs') in Hno'. }
      destruct (Hinv Hnos) as (Hsets & Hdone).
      destruct (IH _ _ _ _ _ Hcall) as (Hset' & Hx1 & Hx2); [|done|done|].
      { intros y Hy. apply (grows_visited _ _ Hgs). rewrite Hv4.
        apply elem_of_app in Hy as [Hy|Hy]; [|set_solver].
        apply elem_of_union_l. by apply Hpath. }
      split; [done|]. intros c Hc. apply elem_of_app in Hc as [Hc|Hc].
      * destruct (Hdone c Hc). split; [|done].
        by apply (grows_visited _ _ Hgs').
      * apply list_elem_of_singleton in Hc as ->. done.
Qed.

(** A build from scratch reports a cycle whenever the root reaches one. *)
Lemma traverse_detects_reachable_cycle fuel root d st st' u :
  traverse config lookup fuel root d [] st = Some st' ->
  visited_packages st = ∅ ->
  rtc edge root u -> tc edge u u ->
  cycle_detected st' = true.
Proof.
  intros H Hempty Hreach Hcyc.
  destruct (cycle_detected st') eqn:Hno; [done|]. exfalso.
  destruct (traverse_settled _ _ _ _ _ _ H) as (Hset & Hroot & _); try done.
  { intros x Hx. by apply elem_of_nil in Hx. }
  { intros _. split.
    - intros v w Hv. rewrite Hempty in Hv. by apply not_elem_of_empty in Hv.
    - intros v Hv. rewrite Hempty in Hv. by apply not_elem_of_empty in Hv. }
  destruct (settled_reach _ _ root u Hset Hroot (not_elem_of_nil _) Hreach)
    as [Hu _].
  by apply (proj2 Hset u Hu (not_elem_of_nil _)).
Qed.

End Reachability.

(** ** The forward build over a source that does not change *)

Lemma no_depth_limit_reached config d :
  max_depth config = None -> depth_limit_reached config d = false.
Proof. intros H. unfold depth_limit_reached. by rewrite H. Qed.

Lemma no_filter_skips_nothing config n :
  filter_substring config = None -> should_skip_package config n = false.
Proof. intros H. unfold should_skip_package. by rewrite H. Qed.

(** The successors of a package in the graph of a source. *)
Definition successors (source : Source) (n : string) : names :=
  default [] (source O n).

Lemma get_dependencies_successors source n s :
  (forall t t' k, source t k = source t' k) ->
  fst (get_dependencies source n s) = successors source n
  /\ same_core s (snd (get_dependencies source n s))
  /\ (clock s <= clock (snd (get_dependencies source n s)))%nat
  /\ output s `prefix_of` output (snd (get_dependencies source n s)).
Proof.
  intros Hdet. split; [|apply get_dependencies_spec].
  unfold get_dependencies, successors. rewrite (Hdet (clock s) O n).
  by destruct (source O n).
Qed.

(** Without depth limit and filter, over a source that answers the same
    at every read, the forward build from scratch visits exactly what the
    root reaches, records for every visited package the whole list of the
    source, and reports a cycle whenever the root reaches one. *)
Lemma forward_on_fixed_graph config source fuel root t st :
  max_depth config = None ->
  filter_substring config = None ->
  (forall t t' k, source t k = source t' k) ->
  bfs_build_dependency_graph config source fuel root 0 [] (initial_state t)
  = Some st ->
  (forall k, k ∈ visited_packages st <-> rtc (edge (successors source)) root k)
  /\ (forall k, k ∈ visited_packages st ->
        PyDict.find (dependency_graph st) k = Some (successors source k))
  /\ (forall k, k ∉ visited_packages st ->
        PyDict.find (dependency_graph st) k = None)
  /\ (forall u, rtc (edge (successors source)) root u ->
        tc (edge (successors source)) u u -> cycle_detected st = true).
Proof.
  intros Hmax Hfilter Hdet H.
  pose proof (forward_sound _ _ _ _ _ _ _ _ H) as (Hgrow & _).
  rewrite bfs_build_dependency_graph_traverse in H.
  pose proof (fun d => no_depth_limit_reached config d Hmax) as Hnd.
  pose proof (fun n => no_filter_skips_nothing config n Hfilter) as Hnf.
  pose proof (fun n s => get_dependencies_successors source n s Hdet) as Hlk.
  split_and!.
  - intros k. split.
    + intros Hk.
      by eapply (traverse_visits_only_reachable config _ (successors source)).
    + intros Hk.
      by eapply (traverse_visits_reachable config _ (successors source)).
  - intros k Hk.
    by eapply (traverse_records_succ config _ (successors source)).
  - intros k Hk. by rewrite (grows_graph _ _ Hgrow) by (by right).
  - intros u Hu Hcyc.
    by eapply (traverse_detects_reachable_cycle config _ (successors source)).
Qed.

(** ** The source of a text fixture *)

(** Over a fixture file that stays the same, every lookup answers the
    entry of the loaded dictionary, or the empty list. *)
Lemma text_source_lookup config w path content g :
  work_mode config = Offline ->
  test_repo_path config = Some path ->
  (forall t, file_system w path t = RegularFile content) ->
  TestRepository.load_test_repository content = Some g ->
  forall t n, source_of config w t n = Some (PyDict.get g n []).
Proof.
  intros Hm Hp Hf Hl t n. unfold source_of. rewrite Hm, Hp. simpl.
  rewrite Hf, Hl. done.
Qed.

Lemma get_nonempty_key {V} (d : PyDict.t (list V)) k :
  PyDict.get d k [] <> [] -> k ∈ (list_to_set (PyDict.keys d) : gset string).
Proof.
  unfold PyDict.get. intros H.
  destruct (PyDict.find d k) eqn:E; [|done].
  apply elem_of_list_to_set. by eapply find_Some_keys.
Qed.

(** ** Cycles *)

(** C2 (counterexample). The scenario fails as stated: [C] is expanded
    and gets an entry, and that entry holds the edge back to [A]. *)
Lemma cycle_fixture_keeps_closing_edge :
  exists st,
    bfs_build_dependency_graph (Fixtures.offline "A" None None false)
      (source_of (Fixtures.offline "A" None None false)
         (Fixtures.text_world abc_cycle))
      10 "A" 0 [] (initial_state 0) = Some st
    /\ cycle_detected st = true
    /\ PyDict.find (dependency_graph st) "C" = Some ["A"]
    /\ dependency_graph st <> [("A", ["B"]); ("B", ["C"])].
Proof.
  eexists. split; [vm_compute; reflexivity|]. split_and!; try reflexivity.
  simpl. discriminate.
Qed.

(** C2 (amended). On the fixture A -> B, B -> C, C -> A the forward
    build from [A] yields exactly A:[B], B:[C], C:[A] and reports a
    cycle. More generally, without depth limit and filter, over any
    unchanging source with finitely many packages that have
    dependencies, the build returns, and for every edge from [a] to [b]
    that closes a cycle reachable from the root ([a] is reached from the
    root and [b] leads back to [a]) a cycle is reported and the edge is
    present in the resulting map. *)
Theorem cycle_reported_closing_edge_recorded :
  (exists st,
      bfs_build_dependency_graph (Fixtures.offline "A" None None false)
        (source_of (Fixtures.offline "A" None None false)
           (Fixtures.text_world abc_cycle))
        10 "A" 0 [] (initial_state 0) = Some st
      /\ dependency_graph st = [("A", ["B"]); ("B", ["C"]); ("C", ["A"])]
      /\ cycle_detected st = true)
  /\ (forall config source (universe : gset string) fuel root t,
        max_depth config = None ->
        filter_substring config = None ->
        (forall t t' k, source t k = source t' k) ->
        (forall k, successors source k <> [] -> k ∈ universe) ->
        (size universe < fuel)%nat ->
        exists st,
          bfs_build_dependency_graph config source fuel root 0 []
            (initial_state t) = Some st
          /\ forall a b,
               rtc (edge (successors source)) root a ->
               b ∈ successors source a ->
               rtc (edge (successors source)) b a ->
               cycle_detected st = true
               /\ recorded_edge (dependency_graph st) a b).
Proof.
  split.
  - eexists. split; [vm_compute; reflexivity|]. split; reflexivity.
  - intros config source universe fuel root t Hmax Hfilter Hdet Huni Hfuel.
    destruct (forward_terminates config source universe fuel root 0 []
                (initial_state t)) as (st & Hst); [|done|].
    { intros t0 k l Hk Hne. apply Huni. unfold successors.
      by rewrite (Hdet O t0 k), Hk. }
    exists st. split; [done|]. intros a b Ha Hab Hba.
    destruct (forward_on_fixed_graph config source fuel root t st)
      as (Hvis & Hrec & _ & Hcyc); try done.
    split.
    + apply (Hcyc a Ha). eapply tc_rtc_r; [apply tc_once; exact Hab|done].
    + exists (successors source a). split; [|done]. apply Hrec. by apply Hvis.
Qed.

Lemma cycle_reported_closing_edge_recorded_witness :
  exists st,
    bfs_build_dependency_graph (Fixtures.offline "A" None None false)
      (source_of (Fixtures.offline "A" None None false)
         (Fixtures.text_world abc_cycle))
      10 "A" 0 [] (initial_state 0) = Some st
    /\ forall a b,
         rtc (edge (successors
                      (source_of (Fixtures.offline "A" None None false)
                         (Fixtures.text_world abc_cycle)))) "A" a ->
         b ∈ successors (source_of (Fixtures.offline "A" None None false)
                           (Fixtures.text_world abc_cycle)) a ->
         rtc (edge (successors
                      (source_of (Fixtures.offline "A" None None false)
                         (Fixtures.text_world abc_cycle)))) b a ->
         cycle_detected st = true
         /\ recorded_edge (dependency_graph st) a b.
Proof.
  apply (proj2 cycle_reported_closing_edge_recorded
           (Fixtures.offline "A" None None false)
           (source_of (Fixtures.offline "A" None None false)
              (Fixtures.text_world abc_cycle))
           (list_to_set
              (PyDict.keys [("A", ["B"]); ("B", ["C"]); ("C", ["A"])]))
           10%nat "A" 0%nat).
  - reflexivity.
  - reflexivity.
  - intros t t' k. reflexivity.
  - intros k. unfold successors.
    rewrite (text_source_lookup _ _ "fixture.txt" abc_cycle
               [("A", ["B"]); ("B", ["C"]); ("C", ["A"])]);
      [apply get_nonempty_key|reflexivity|reflexivity|reflexivity|reflexivity].
  - vm_compute. lia.
Defined.

(** ** The reverse index *)

(** How often [a] occurs in the list [l]. *)
Definition occurrences (a : string) (l : names) : nat :=
  count_occ String.string_dec l a.

Lemma occurrences_nil a : occurrences a [] = O.
Proof. reflexivity. Qed.

Lemma get_empty_dict {V} k (dflt : V) : PyDict.get PyDict.empty k dflt = dflt.
Proof. reflexivity. Qed.

Lemma occurrences_snoc a l x :
  occurrences a (l ++ [x])%list
  = (occurrences a l + if String.eqb x a then 1 else 0)%nat.
Proof.
  unfold occurrences. rewrite count_occ_app. simpl.
  destruct (String.string_dec x a) as [->|Hne].
  - by rewrite String.eqb_refl.
  - apply String.eqb_neq in Hne. by rewrite Hne.
Qed.

Lemma occurrences_cons a x l :
  occurrences a (x :: l)
  = ((if String.eqb x a then 1 else 0) + occurrences a l)%nat.
Proof.
  unfold occurrences. simpl. destruct (String.string_dec x a) as [->|Hne].
  - by rewrite String.eqb_refl.
  - apply String.eqb_neq in Hne. by rewrite Hne.
Qed.

Lemma get_append (d : graph) k x k' :
  PyDict.get (PyDict.append d k x) k' []
  = if String.eqb k k' then (PyDict.get d k' [] ++ [x])%list
    else PyDict.get d k' [].
Proof.
  destruct (String.eqb_spec k k') as [<-|Hne].
  - apply get_append_eq.
  - by apply get_append_ne.
Qed.

(** One pass of the inner loop adds [package] to the entry of [b] once
    for every occurrence of [b] among the dependencies. *)
Lemma add_dependents_occurrences package deps (rg : graph) a b :
  occurrences a (PyDict.get (TestRepository.add_dependents package deps rg) b [])
  = (occurrences a (PyDict.get rg b [])
     + if String.eqb package a then occurrences b deps else 0)%nat.
Proof.
  unfold TestRepository.add_dependents. revert rg.
  induction deps as [|dep deps IH]; intros rg; cbn [fold_left].
  - rewrite occurrences_nil. destruct (String.eqb package a); lia.
  - rewrite IH, get_append, occurrences_cons.
    destruct (String.eqb dep b); [rewrite occurrences_snoc|];
      destruct (String.eqb package a); lia.
Qed.

Lemma get_cons_dict {V} (k : string) (v : V) (d : PyDict.t V) k' dflt :
  PyDict.get ((k, v) :: d) k' dflt
  = if String.eqb k k' then v else PyDict.get d k' dflt.
Proof. unfold PyDict.get. simpl. by destruct (String.eqb k k'). Qed.

(** The inversion of a dictionary adds, to the entry of [b], the key [a]
    once for every occurrence of [b] in the list of [a]. *)
Lemma invert_into_occurrences (g rg : graph) a b :
  NoDup (PyDict.keys g) ->
  occurrences a (PyDict.get (TestRepository.invert_into g rg) b [])
  = (occurrences a (PyDict.get rg b []) + occurrences b (PyDict.get g a []))%nat.
Proof.
  unfold TestRepository.invert_into. revert rg.
  induction g as [|[k l] g IH]; intros rg Hnd; cbn [fold_left fst snd].
  - change (PyDict.get [] a []) with (@nil string).
    rewrite occurrences_nil. lia.
  - simpl in Hnd. apply NoDup_cons in Hnd as [Hk Hnd].
    rewrite IH by done. rewrite add_dependents_occurrences, get_cons_dict.
    destruct (String.eqb_spec k a) as [->|Hne]; [|lia].
    assert (PyDict.get g a [] = []) as ->.
    { unfold PyDict.get. by apply find_None_keys in Hk as ->. }
    rewrite occurrences_nil. lia.
Qed.

Lemma build_reverse_dependencies_occurrences (g : graph) a b :
  NoDup (PyDict.keys g) ->
  occurrences a (PyDict.get (TestRepository.build_reverse_dependencies g) b [])
  = occurrences b (PyDict.get g a []).
Proof.
  intros Hnd. unfold TestRepository.build_reverse_dependencies.
  rewrite invert_into_occurrences by done.
  rewrite get_empty_dict, occurrences_nil. lia.
Qed.

(** The keys of a loaded fixture are distinct. *)
Lemma load_test_repository_NoDup content g :
  TestRepository.load_test_repository content = Some g ->
  NoDup (PyDict.keys g).
Proof.
  unfold TestRepository.load_test_repository.
  assert (forall ls (d : graph), NoDup (PyDict.keys d) ->
            NoDup (PyDict.keys (fold_left TestRepository.load_line ls d)))
    as Hfold.
  { induction ls as [|l ls IH]; intros d Hd; simpl; [done|].
    apply IH. unfold TestRepository.load_line.
    repeat case_match; try done. by apply NoDup_keys_set. }
  intros H.
  specialize (Hfold (PyStr.split_char TestRepository.newline (PyStr.strip content))
                PyDict.empty (NoDup_nil_2)).
  destruct (fold_left _ _ _) eqn:E in H; [done|].
  injection H as <-. by rewrite E in Hfold.
Qed.

(** The keys of the graph stay distinct during a traversal. *)
Lemma traverse_NoDup_keys config lookup fuel n d p st st' :
  (forall m s, same_core s (snd (lookup m s))) ->
  traverse config lookup fuel n d p st = Some st' ->
  NoDup (PyDict.keys (dependency_graph st)) ->
  NoDup (PyDict.keys (dependency_graph st')).
Proof.
  intros Hlk. revert n d p st st'.
  induction fuel as [|fuel IH]; intros n d p st st' H Hnd; [done|].
  apply traverse_cases in H.
  destruct H as [Hd ->|Hd Hp ->|Hd Hp Hs ->|Hd Hp Hs Hv ->|Hd Hp Hs Hv H];
    try done.
  revert H.
  apply (for_each_invariant (fun s => NoDup (PyDict.keys (dependency_graph s)))).
  - unfold expand. simpl. apply NoDup_keys_set.
    by destruct (Hlk n (print (AnalysisPrinted n d) (add_visited n st)))
      as (<- & _).
  - intros x s s' _ Hs' Hcall. by eapply IH.
Qed.

(** An edge of the forward graph of a fixture. *)
Definition fixture_edge (g : graph) (a b : string) : Prop :=
  b ∈ PyDict.get g a [].

(** ** Lines of a text fixture *)

(** A name as it can stand in a fixture line: not empty, without
    whitespace and without [>]. *)
Fixpoint plain (s : string) : bool :=
  match s with
  | EmptyString => true
  | String c r =>
      negb (PyStr.is_space c) && negb (Ascii.eqb c ">"%char) && plain r
  end.

Definition is_name (s : string) : bool := PyStr.truthy s && plain s.

(** A text without [>]. *)
Fixpoint no_gt (s : string) : bool :=
  match s with
  | EmptyString => true
  | String c r => negb (Ascii.eqb c ">"%char) && no_gt r
  end.

(** The line [NAME -> DEP1 DEP2 ...]. *)
Definition fixture_line (name : string) (deps : names) : string :=
  name ++ " -> " ++ PyStr.join " " deps.

Lemma append_nil (y : string) : EmptyString ++ y = y.
Proof. reflexivity. Qed.

Lemma append_cons c (x y : string) : String c x ++ y = String c (x ++ y).
Proof. reflexivity. Qed.

Lemma append_nil_r (x : string) : x ++ EmptyString = x.
Proof.
  induction x as [|c x IH]; [done|]. by rewrite append_cons, IH.
Qed.

Lemma append_assoc (x y z : string) : (x ++ y) ++ z = x ++ (y ++ z).
Proof.
  induction x as [|c x IH]; [done|]. by rewrite !append_cons, IH.
Qed.

Ltac unfold_append := rewrite ?append_cons, ?append_nil.

Lemma plain_app x y : plain (x ++ y) = plain x && plain y.
Proof.
  induction x as [|c x IH]; [done|]. unfold_append. simpl.
  rewrite IH. by rewrite !andb_assoc.
Qed.

Lemma rstrip_app x y :
  PyStr.rstrip (x ++ y)
  = match PyStr.rstrip y with
    | EmptyString => PyStr.rstrip x
    | r => x ++ r
    end.
Proof.
  induction x as [|c x IH]; unfold_append; simpl.
  - by destruct (PyStr.rstrip y).
  - rewrite IH. destruct (PyStr.rstrip y) as [|a r]; [done|].
    by destruct x.
Qed.

Lemma rstrip_plain w : plain w = true -> PyStr.rstrip w = w.
Proof.
  induction w as [|c w IH]; simpl; [done|].
  rewrite !andb_true_iff. intros [[Hc _] Hw]. rewrite (IH Hw).
  apply negb_true_iff in Hc. rewrite Hc. by destruct w.
Qed.

Lemma lstrip_name w x :
  is_name w = true -> PyStr.lstrip (w ++ x) = w ++ x.
Proof.
  unfold is_name. destruct w as [|c w]; [done|]. unfold_append. simpl.
  rewrite !andb_true_iff. intros [[Hc _] _].
  apply negb_true_iff in Hc. by rewrite Hc.
Qed.

Lemma strip_name w : is_name w = true -> PyStr.strip w = w.
Proof.
  intros H. unfold PyStr.strip.
  rewrite <- (append_nil_r w) at 1. rewrite lstrip_name by done.
  rewrite append_nil_r. apply rstrip_plain.
  unfold is_name in H. by apply andb_true_iff in H as [_ ?].
Qed.

Lemma starts_with_app sub y : PyStr.starts_with sub (sub ++ y) = true.
Proof.
  induction sub as [|a sub IH]; [done|]. unfold_append. simpl.
  by rewrite Ascii.eqb_refl.
Qed.

Lemma contains_app sub x y : PyStr.contains sub (x ++ sub ++ y) = true.
Proof.
  induction x as [|c x IH]; unfold_append.
  - pose proof (starts_with_app sub y) as Hs.
    destruct (sub ++ y); simpl in *; by rewrite Hs.
  - simpl. rewrite IH. apply orb_true_r.
Qed.

(** One step of [split('->')]. *)
Lemma split_arrow_cons c r :
  PyStr.split_arrow (String c r)
  = match r with
    | String c' r' =>
        if Ascii.eqb c "-"%char && Ascii.eqb c' ">"%char
        then EmptyString :: PyStr.split_arrow r'
        else PyStr.push_first c (PyStr.split_arrow r)
    | EmptyString => PyStr.push_first c (PyStr.split_arrow r)
    end.
Proof.
  destruct (Ascii.eqb_spec c "-"%char) as [->|Hc].
  - destruct r as [|c' r']; [done|].
    destruct (Ascii.eqb_spec c' ">"%char) as [->|Hc']; [done|].
    cbn [andb]. destruct c' as [[] [] [] [] [] [] [] []]; try reflexivity.
    by destruct Hc'.
  - assert (PyStr.split_arrow (String c r)
            = PyStr.push_first c (PyStr.split_arrow r)) as ->.
    { destruct c as [[] [] [] [] [] [] [] []]; try reflexivity.
      by destruct Hc. }
    by destruct r.
Qed.

Lemma no_gt_app x y : no_gt (x ++ y) = no_gt x && no_gt y.
Proof.
  induction x as [|c x IH]; [done|]. unfold_append. simpl.
  by rewrite IH, andb_assoc.
Qed.

Lemma plain_no_gt x : plain x = true -> no_gt x = true.
Proof.
  induction x as [|c x IH]; [done|]. simpl. rewrite !andb_true_iff.
  intros [[_ ?] ?]. auto.
Qed.

Lemma split_arrow_no_gt x : no_gt x = true -> PyStr.split_arrow x = [x].
Proof.
  induction x as [|c x IH]; [done|].
  intros H. simpl in H. rewrite !andb_true_iff in H. destruct H as [Hc Hx].
  rewrite split_arrow_cons, (IH Hx). destruct x as [|c' x']; [done|].
  simpl in Hx. rewrite !andb_true_iff in Hx. destruct Hx as [Hc' _].
  apply negb_true_iff in Hc'. rewrite Hc', andb_false_r. done.
Qed.

Lemma split_arrow_app x y :
  no_gt x = true ->
  PyStr.split_arrow (x ++ "->" ++ y) = x :: PyStr.split_arrow y.
Proof.
  induction x as [|c x IH]; intros H.
  - unfold_append. by rewrite split_arrow_cons.
  - simpl in H. rewrite !andb_true_iff in H. destruct H as [Hc Hx].
    rewrite append_cons, split_arrow_cons, (IH Hx).
    destruct x as [|c' x'].
    + unfold_append. apply negb_true_iff in Hc.
      destruct (Ascii.eqb_spec c "-"%char) as [->|]; simpl; done.
    + simpl in Hx. rewrite !andb_true_iff in Hx. destruct Hx as [Hc' _].
      apply negb_true_iff in Hc'. unfold_append. by rewrite Hc', andb_false_r.
Qed.

(** [split()] on names separated by single spaces. *)
Lemma split_ws_from_plain w acc s :
  plain w = true ->
  PyStr.split_ws_from (Some acc) (w ++ s)
  = PyStr.split_ws_from (Some (acc ++ w)) s.
Proof.
  revert acc. induction w as [|c w IH]; intros acc H.
  - by rewrite append_nil, append_nil_r.
  - simpl in H. rewrite !andb_true_iff in H. destruct H as [[Hc _] Hw].
    apply negb_true_iff in Hc. rewrite append_cons. simpl. rewrite Hc.
    rewrite (IH _ Hw), append_assoc. done.
Qed.

Lemma split_ws_from_name w s :
  is_name w = true ->
  PyStr.split_ws_from None (w ++ s) = PyStr.split_ws_from (Some w) s.
Proof.
  unfold is_name. destruct w as [|c w]; [done|]. simpl.
  rewrite !andb_true_iff. intros [[Hc _] Hw].
  apply negb_true_iff in Hc. rewrite ?append_cons. simpl. rewrite Hc.
  by rewrite (split_ws_from_plain w _ s Hw).
Qed.

Lemma split_ws_from_space w s :
  PyStr.split_ws_from (Some w) (" " ++ s) = w :: PyStr.split_ws_from None s.
Proof. reflexivity. Qed.

Lemma split_ws_leading_space s :
  PyStr.split_ws (" " ++ s) = PyStr.split_ws s.
Proof. reflexivity. Qed.

Lemma split_ws_join deps :
  forallb is_name deps = true ->
  PyStr.split_ws (PyStr.join " " deps) = deps.
Proof.
  unfold PyStr.split_ws. induction deps as [|d deps IH]; [done|].
  intros H. simpl in H. apply andb_true_iff in H as [Hd Hdeps].
  destruct deps as [|d' deps].
  - simpl. rewrite <- (append_nil_r d) at 1.
    by rewrite split_ws_from_name by done.
  - change (PyStr.join " " (d :: d' :: deps))
      with (d ++ " " ++ PyStr.join " " (d' :: deps)).
    rewrite split_ws_from_name by done.
    by rewrite split_ws_from_space, (IH Hdeps).
Qed.

Lemma no_gt_join deps :
  forallb is_name deps = true -> no_gt (PyStr.join " " deps) = true.
Proof.
  induction deps as [|d deps IH]; [done|].
  intros H. simpl in H. apply andb_true_iff in H as [Hd Hdeps].
  assert (no_gt d = true) as Hgt.
  { apply plain_no_gt. unfold is_name in Hd. by apply andb_true_iff in Hd as [_ ?]. }
  destruct deps as [|d' deps]; [done|].
  change (PyStr.join " " (d :: d' :: deps))
    with (d ++ " " ++ PyStr.join " " (d' :: deps)).
  by rewrite !no_gt_app, Hgt, (IH Hdeps).
Qed.

Lemma rstrip_join d deps :
  forallb is_name (d :: deps) = true ->
  PyStr.rstrip (PyStr.join " " (d :: deps)) = PyStr.join " " (d :: deps)
  /\ PyStr.join " " (d :: deps) <> EmptyString.
Proof.
  revert d. induction deps as [|d' deps IH]; intros d H.
  - simpl in H. rewrite andb_true_r in H. simpl. unfold is_name in H.
    apply andb_true_iff in H as [Ht Hp]. split; [by apply rstrip_plain|].
    by destruct d.
  - cbn [forallb] in H. apply andb_true_iff in H as [Hd Hdeps].
    change (PyStr.join " " (d :: d' :: deps))
      with (d ++ " " ++ PyStr.join " " (d' :: deps)).
    destruct (IH d' Hdeps) as [Hr Hne]. split.
    + rewrite <- append_assoc, rstrip_app, Hr.
      by destruct (PyStr.join " " (d' :: deps)).
    + unfold is_name in Hd. apply andb_true_iff in Hd as [Ht _].
      by destruct d.
Qed.

Lemma strip_names deps :
  forallb is_name deps = true ->
  map PyStr.strip
    (List.filter (fun dep => PyStr.truthy (PyStr.strip dep)) deps) = deps.
Proof.
  induction deps as [|d deps IH]; [done|].
  intros H. simpl in H. apply andb_true_iff in H as [Hd Hdeps].
  simpl. rewrite (strip_name d Hd).
  assert (PyStr.truthy d = true) as ->
    by (unfold is_name in Hd; by apply andb_true_iff in Hd as [? _]).
  simpl. by rewrite (strip_name d Hd), (IH Hdeps).
Qed.

(** The loader reads a line [NAME -> DEP1 DEP2 ...] back as the entry
    [NAME : [DEP1; DEP2; ...]]: the order of the line, repetitions
    included. *)
Lemma load_line_fixture_line (d : graph) name deps :
  is_name name = true ->
  forallb is_name deps = true ->
  TestRepository.load_line d (fixture_line name deps)
  = PyDict.set d name deps.
Proof.
  intros Hname Hdeps. unfold TestRepository.load_line, fixture_line.
  assert (no_gt name = true) as Hgt.
  { apply plain_no_gt. unfold is_name in Hname.
    by apply andb_true_iff in Hname as [_ ?]. }
  assert (PyStr.strip (name ++ " ") = name) as Hstrip.
  { unfold PyStr.strip. rewrite lstrip_name by done.
    rewrite rstrip_app. simpl. apply rstrip_plain.
    unfold is_name in Hname. by apply andb_true_iff in Hname as [_ ?]. }
  destruct deps as [|d0 deps].
  - assert (PyStr.strip (name ++ " -> " ++ PyStr.join " " [])
            = (name ++ " ") ++ "->" ++ EmptyString) as ->.
    { unfold PyStr.strip. rewrite lstrip_name by done.
      rewrite rstrip_app. simpl. by rewrite append_assoc. }
    rewrite contains_app, split_arrow_app
      by (by rewrite no_gt_app, Hgt).
    simpl. by rewrite Hstrip.
  - destruct (rstrip_join d0 deps Hdeps) as [Hr Hne].
    assert (PyStr.strip (name ++ " -> " ++ PyStr.join " " (d0 :: deps))
            = (name ++ " ") ++ "->" ++ " " ++ PyStr.join " " (d0 :: deps))
      as ->.
    { unfold PyStr.strip. rewrite lstrip_name by done.
      replace (name ++ " -> " ++ PyStr.join " " (d0 :: deps))
        with ((name ++ " -> ") ++ PyStr.join " " (d0 :: deps))
        by (by rewrite append_assoc).
      rewrite rstrip_app, Hr.
      destruct (PyStr.join " " (d0 :: deps)) eqn:E; [done|].
      by rewrite !append_assoc. }
    rewrite contains_app, split_arrow_app by (by rewrite no_gt_app, Hgt).
    rewrite split_arrow_no_gt
      by (rewrite no_gt_app; by rewrite (no_gt_join _ Hdeps)).
    rewrite Hstrip.
    assert (PyStr.split_ws (" " ++ PyStr.join " " (d0 :: deps)) = d0 :: deps)
      as ->.
    { by rewrite split_ws_leading_space, (split_ws_join (d0 :: deps) Hdeps). }
    by rewrite (strip_names _ Hdeps).
Qed.

(** ** The recorded dependency lists *)

(** In a forward build from scratch, every entry of the graph is an
    answer of the source for its key, stored as it came. *)
Lemma forward_entries_are_answers config source fuel root t st k l :
  bfs_build_dependency_graph config source fuel root 0 [] (initial_state t)
  = Some st ->
  PyDict.find (dependency_graph st) k = Some l ->
  answer_of source k l.
Proof.
  intros H Hk.
  pose proof (forward_keys_visited _ _ _ _ _ _ k H
                (find_Some_keys _ _ _ Hk)) as Hv.
  apply forward_sound in H as (_ & Hfresh).
  destruct (Hfresh k Hv) as (_ & l' & Hl' & Hans); [set_solver|].
  congruence.
Qed.

(** C3 (counterexample). On a text fixture a repeated dependency is
    recorded as often as the line names it. *)
Lemma text_fixture_keeps_duplicates :
  exists st,
    run 10 (Fixtures.offline "A" None None false)
      (Fixtures.text_world duplicates_fixture) 0 = Finished st
    /\ PyDict.find (dependency_graph st) "A" = Some ["B"; "B"; "C"; "B"]
    /\ ~ NoDup ["B"; "B"; "C"; "B"].
Proof.
  eexists. split; [vm_compute; reflexivity|]. split; [reflexivity|].
  intros H. apply NoDup_cons in H as [H _]. apply H. apply list_elem_of_here.
Qed.

(** C3 (amended). The forward build stores, for every node it records,
    exactly the list that the source answered (the empty list after a
    failed lookup), without removing or reordering anything. For the
    plain-text fixture a line [NAME -> DEP1 DEP2 ...] is read as the list
    of its names in the order of the line, repetitions kept. For the
    NuGet source the answer is the list of the ids of the document with
    duplicates removed, in the iteration order of a Python set: it has no
    repetition and the same elements as the listed ids. *)
Theorem recorded_list_is_the_source_answer :
  (forall config source fuel root t st k l,
      bfs_build_dependency_graph config source fuel root 0 []
        (initial_state t) = Some st ->
      PyDict.find (dependency_graph st) k = Some l ->
      answer_of source k l)
  /\ (forall (d : graph) name deps,
        is_name name = true ->
        forallb is_name deps = true ->
        TestRepository.load_line d (fixture_line name deps)
        = PyDict.set d name deps)
  /\ (forall config w path content g t n,
        work_mode config = Offline ->
        test_repo_path config = Some path ->
        (forall t', file_system w path t' = RegularFile content) ->
        TestRepository.load_test_repository content = Some g ->
        source_of config w t n = Some (PyDict.get g n []))
  /\ (forall config w url t n root,
        work_mode config = Online ->
        repository_url config = Some url ->
        registry w url t n = Some root ->
        source_of config w t n
        = Some (Nuspec.parse_nuspec_dependencies (set_order w) root)
        /\ NoDup (Nuspec.parse_nuspec_dependencies (set_order w) root)
        /\ forall x, x ∈ Nuspec.parse_nuspec_dependencies (set_order w) root
                     <-> x ∈ Nuspec.listed_dependencies root).
Proof.
  split_and!.
  - intros. by eapply forward_entries_are_answers.
  - intros. by apply load_line_fixture_line.
  - intros. by eapply text_source_lookup.
  - intros config w url t n root Hm Hu Hr. split_and!.
    + unfold source_of. rewrite Hm, Hu. simpl. by rewrite Hr.
    + apply list_of_set_NoDup.
    + apply list_of_set_elem.
Qed.

Lemma recorded_list_is_the_source_answer_witness :
  TestRepository.load_line PyDict.empty (fixture_line "A" ["B"; "B"; "C"; "B"])
  = [("A", ["B"; "B"; "C"; "B"])]
  /\ source_of online_config sample_registry O "Sample"
     = Some ["Lib.A"; "Lib.B"]
  /\ NoDup (Nuspec.parse_nuspec_dependencies sample_set_order
              sample_nuspec).
Proof.
  destruct recorded_list_is_the_source_answer as (_ & Hline & _ & Honline).
  split.
  - apply (Hline PyDict.empty "A" ["B"; "B"; "C"; "B"]); reflexivity.
  - destruct (Honline online_config sample_registry
                "https://api.nuget.org/v3/index.json" 0%nat "Sample"
                sample_nuspec) as (Hsrc & Hnd & _);
      [reflexivity|reflexivity|reflexivity|].
    split; [exact Hsrc|exact Hnd].
Defined.

(** * Further properties of the engine *)

(** ** Reported cycles are real *)

Section FixedGraph.

Variable config : Config.
Variable lookup : string -> State -> names * State.
Variable succ : string -> names.

Hypothesis lookup_succ : forall n s,
    fst (lookup n s) = succ n
    /\ same_core s (snd (lookup n s))
    /\ (clock s <= clock (snd (lookup n s)))%nat
    /\ output s `prefix_of` output (snd (lookup n s)).

Lemma expand_fixed n d st :
  n ∉ visited_packages st ->
  should_skip_package config n = false ->
  fst (expand lookup n d st) = succ n
  /\ grows st (snd (expand lookup n d st))
  /\ visited_packages (snd (expand lookup n d st)) = visited_packages st ∪ {[n]}
  /\ cycle_detected (snd (expand lookup n d st)) = cycle_detected st.
Proof.
  intros Hv Hs.
  destruct (sound_step_expand config lookup (fun _ => True)
              (fun k l => l = succ k) (fun _ _ _ _ => I)
              (fun m s _ => lookup_succ m s) n d st I Hv Hs)
    as ((_ & Hg & _) & _ & _ & Hfst).
  split_and!; try done.
  - unfold expand. simpl.
    by destruct (lookup_succ n (print (AnalysisPrinted n d) (add_visited n st)))
      as (_ & (_ & _ & <- & _) & _).
  - unfold expand. simpl.
    by destruct (lookup_succ n (print (AnalysisPrinted n d) (add_visited n st)))
      as (_ & (_ & _ & _ & <-) & _).
Qed.

(** When a call turns the cycle flag on, its package reaches a package
    that lies on a cycle; depth limit and filter do not matter. *)
Lemma traverse_cycle_sound fuel n d p st st' :
  traverse config lookup fuel n d p st = Some st' ->
  (forall x, x ∈ p -> tc (edge succ) x n) ->
  cycle_detected st = false ->
  cycle_detected st' = true ->
  exists u, rtc (edge succ) n u /\ tc (edge succ) u u.
Proof.
  revert n d p st st'.
  induction fuel as [|fuel IH]; intros n d p st st' H Hpath Hno Hyes; [done|].
  apply traverse_cases in H.
  destruct H as [Hd ->|Hd Hp ->|Hd Hp Hs ->|Hd Hp Hs Hv ->|Hd Hp Hs Hv H];
    try congruence.
  - exists n. split; [apply rtc_refl|by apply Hpath].
  - simpl in Hyes. congruence.
  - destruct (expand_fixed n d st Hv Hs) as (Hfst & _ & _ & Hc4).
    rewrite Hfst in H. revert H Hyes.
    apply (for_each_invariant
      (fun s => cycle_detected s = true ->
                exists u, rtc (edge succ) n u /\ tc (edge succ) u u)).
    + rewrite Hc4. congruence.
    + intros x s s' Hx Hinv Hcall Hyes'.
      destruct (cycle_detected s) eqn:Hcs; [by apply Hinv|].
      destruct (IH _ _ _ _ _ Hcall) as (u & Hxu & Hu); try done.
      * intros y Hy. apply elem_of_app in Hy as [Hy|Hy].
        -- eapply tc_r; [by apply Hpath|exact Hx].
        -- apply list_elem_of_singleton in Hy as ->. by apply tc_once.
      * exists u. split; [|done]. by eapply rtc_l.
Qed.

End FixedGraph.

(** X1. Over a source that answers the same at every read, the cycle
    flag of a forward build from scratch is sound for every depth limit
    and filter (it is only set when the root reaches a package that lies
    on a cycle of the source graph), and without depth limit and filter
    it is also complete. *)
Theorem cycle_flag_tells_reachable_cycles config source fuel root t st :
  (forall t1 t2 k, source t1 k = source t2 k) ->
  bfs_build_dependency_graph config source fuel root 0 [] (initial_state t)
  = Some st ->
  (cycle_detected st = true ->
   exists u, rtc (edge (successors source)) root u
             /\ tc (edge (successors source)) u u)
  /\ (max_depth config = None -> filter_substring config = None ->
      forall u, rtc (edge (successors source)) root u ->
                tc (edge (successors source)) u u ->
                cycle_detected st = true).
Proof.
  intros Hdet H. split.
  - intros Hyes. rewrite bfs_build_dependency_graph_traverse in H.
    eapply (traverse_cycle_sound config (get_dependencies source)
              (successors source)); try done.
    + intros n s. by apply get_dependencies_successors.
    + intros x Hx. by apply elem_of_nil in Hx.
  - intros Hmax Hfilter u Hu Hcyc.
    by destruct (forward_on_fixed_graph config source fuel root t st)
      as (_ & _ & _ & Hc); try done; eapply Hc.
Qed.

Lemma cycle_flag_tells_reachable_cycles_witness :
  (cycle_detected repeatable_st1 = true ->
   exists u,
     rtc (edge (successors
                  (source_of (Fixtures.offline "A" None None false)
                     (Fixtures.text_world Fixtures.simple_test)))) "A" u
     /\ tc (edge (successors
                    (source_of (Fixtures.offline "A" None None false)
                       (Fixtures.text_world Fixtures.simple_test)))) u u)
  /\ (max_depth (Fixtures.offline "A" None None false) = None ->
      filter_substring (Fixtures.offline "A" None None false) = None ->
      forall u,
        rtc (edge (successors
                     (source_of (Fixtures.offline "A" None None false)
                        (Fixtures.text_world Fixtures.simple_test)))) "A" u ->
        tc (edge (successors
                    (source_of (Fixtures.offline "A" None None false)
                       (Fixtures.text_world Fixtures.simple_test)))) u u ->
        cycle_detected repeatable_st1 = true).
Proof.
  apply (cycle_flag_tells_reachable_cycles
           (Fixtures.offline "A" None None false)
           (source_of (Fixtures.offline "A" None None false)
              (Fixtures.text_world Fixtures.simple_test))
           10 "A" 0 repeatable_st1).
  - intros t1 t2 k. reflexivity.
  - vm_compute. reflexivity.
Defined.

(** X2. Without depth limit and filter, over an unchanging source with
    finitely many packages that have dependencies, the forward build
    from scratch returns, and its graph has exactly the packages
    reachable from the root as keys, each with the whole list of the
    source (the empty list for a package the source does not know). *)
Theorem forward_build_records_reachable_closure
    config source (universe : gset string) fuel root t :
  max_depth config = None ->
  filter_substring config = None ->
  (forall t1 t2 k, source t1 k = source t2 k) ->
  (forall k, successors source k <> [] -> k ∈ universe) ->
  (size universe < fuel)%nat ->
  exists st,
    bfs_build_dependency_graph config source fuel root 0 [] (initial_state t)
    = Some st
    /\ (forall k, k ∈ PyDict.keys (dependency_graph st)
                  <-> rtc (edge (successors source)) root k)
    /\ (forall k, rtc (edge (successors source)) root k ->
          PyDict.find (dependency_graph st) k = Some (successors source k)).
Proof.
  intros Hmax Hfilter Hdet Huni Hfuel.
  destruct (forward_terminates config source universe fuel root 0 []
              (initial_state t)) as (st & Hst); [|done|].
  { intros t0 k l Hk Hne. apply Huni. unfold successors.
    by rewrite (Hdet O t0 k), Hk. }
  exists st. split; [done|].
  destruct (forward_on_fixed_graph config source fuel root t st)
    as (Hvis & Hrec & _ & _); try done.
  split.
  - intros k. rewrite <- Hvis. split.
    + by eapply forward_keys_visited.
    + intros Hk. eapply find_Some_keys. by apply Hrec.
  - intros k Hk. by apply Hrec, Hvis.
Qed.

Lemma forward_build_records_reachable_closure_witness :
  exists st,
    bfs_build_dependency_graph (Fixtures.offline "A" None None false)
      (source_of (Fixtures.offline "A" None None false)
         (Fixtures.text_world abc_cycle))
      10 "A" 0 [] (initial_state 0) = Some st
    /\ (forall k,
          k ∈ PyDict.keys (dependency_graph st)
          <-> rtc (edge (successors
                           (source_of (Fixtures.offline "A" None None false)
                              (Fixtures.text_world abc_cycle)))) "A" k)
    /\ (forall k,
          rtc (edge (successors
                       (source_of (Fixtures.offline "A" None None false)
                          (Fixtures.text_world abc_cycle)))) "A" k ->
          PyDict.find (dependency_graph st) k
          = Some (successors
                    (source_of (Fixtures.offline "A" None None false)
                       (Fixtures.text_world abc_cycle)) k)).
Proof.
  apply (forward_build_records_reachable_closure
           (Fixtures.offline "A" None None false)
           (source_of (Fixtures.offline "A" None None false)
              (Fixtures.text_world abc_cycle))
           (list_to_set
              (PyDict.keys [("A", ["B"]); ("B", ["C"]); ("C", ["A"])]))
           10%nat "A" 0%nat).
  - reflexivity.
  - reflexivity.
  - intros t1 t2 k. reflexivity.
  - intros k. unfold successors.
    rewrite (text_source_lookup _ _ "fixture.txt" abc_cycle
               [("A", ["B"]); ("B", ["C"]); ("C", ["A"])]);
      [apply get_nonempty_key|reflexivity|reflexivity|reflexivity|reflexivity].
  - vm_compute. lia.
Defined.

(** ** What the filter leaves out *)

(** X3. In both traversals a package whose name contains the non-empty
    filter (compared in lower case) is never marked visited and never
    gets or changes an entry of the graph, from whatever state, depth and
    path the traversal starts. *)
Theorem names_containing_the_filter_are_left_out config source f k :
  filter_substring config = Some f ->
  f <> EmptyString ->
  PyStr.contains (PyStr.lower f) (PyStr.lower k) = true ->
  (forall fuel n d p st st',
      k ∉ visited_packages st ->
      bfs_build_dependency_graph config source fuel n d p st = Some st' ->
      (k ∉ visited_packages st')
      /\ PyDict.find (dependency_graph st') k
         = PyDict.find (dependency_graph st) k)
  /\ (forall fuel n d p st st',
        k ∉ visited_packages st ->
        bfs_build_reverse_dependency_graph config fuel n d p st = Some st' ->
        (k ∉ visited_packages st')
        /\ PyDict.find (dependency_graph st') k
           = PyDict.find (dependency_graph st) k).
Proof.
  intros Hf Hne Hc.
  assert (should_skip_package config k = true) as Hskip.
  { apply should_skip_package_true. by exists f. }
  split.
  - intros fuel n d p st st' Hk H.
    rewrite bfs_build_dependency_graph_traverse in H.
    eapply matching_names_are_never_visited; try done.
    intros m s. apply get_dependencies_spec.
  - intros fuel n d p st st' Hk H.
    rewrite bfs_build_reverse_dependency_graph_traverse in H.
    eapply matching_names_are_never_visited; try done.
    intros m s. by apply (get_dependents_spec (reverse_dependency_graph s)).
Qed.

Lemma names_containing_the_filter_are_left_out_witness :
  (forall fuel n d p st st',
      "LibFoo" ∉ visited_packages st ->
      bfs_build_dependency_graph (Fixtures.offline "app" None (Some "lib") false)
        source_failing_on_B fuel n d p st = Some st' ->
      ("LibFoo" ∉ visited_packages st')
      /\ PyDict.find (dependency_graph st') "LibFoo"
         = PyDict.find (dependency_graph st) "LibFoo")
  /\ (forall fuel n d p st st',
        "LibFoo" ∉ visited_packages st ->
        bfs_build_reverse_dependency_graph
          (Fixtures.offline "app" None (Some "lib") false) fuel n d p st
        = Some st' ->
        ("LibFoo" ∉ visited_packages st')
        /\ PyDict.find (dependency_graph st') "LibFoo"
           = PyDict.find (dependency_graph st) "LibFoo").
Proof.
  apply (names_containing_the_filter_are_left_out
           (Fixtures.offline "app" None (Some "lib") false)
           source_failing_on_B "lib" "LibFoo").
  - reflexivity.
  - discriminate.
  - reflexivity.
Defined.

(** ** The size of the reverse index *)

Lemma invert_into_length_le (g rg : graph) :
  (length (TestRepository.invert_into g rg)
   <= length rg + sum_list (map (fun item => length (snd item)) g))%nat.
Proof.
  assert (forall (d : graph) k x,
            (length (PyDict.append d k x) <= S (length d))%nat) as Happ.
  { induction d as [|[k' l] d IH]; intros k x; simpl; [lia|].
    destruct (String.eqb k' k); simpl; [lia|]. specialize (IH k x). lia. }
  assert (forall package deps (d : graph),
            (length (TestRepository.add_dependents package deps d)
             <= length d + length deps)%nat) as Hadd.
  { unfold TestRepository.add_dependents.
    induction deps as [|dep deps IH]; intros d; simpl; [lia|].
    specialize (IH (PyDict.append d dep package)).
    specialize (Happ d dep package). lia. }
  unfold TestRepository.invert_into. revert rg.
  induction g as [|[k l] g IH]; intros rg; simpl; [lia|].
  specialize (IH (TestRepository.add_dependents k l rg)).
  specialize (Hadd k l rg). lia.
Qed.

(** ** Levels *)

Lemma max_level_nonneg ls : 0 <= max_level ls.
Proof. induction ls; unfold max_level in *; simpl; lia. Qed.

Lemma max_level_ge ls x : x ∈ ls -> x <= max_level ls.
Proof.
  induction ls as [|y ls IH]; intros H; [by apply elem_of_nil in H|].
  unfold max_level in *. simpl. apply elem_of_cons in H as [->|H]; [lia|].
  specialize (IH H). lia.
Qed.

Lemma level_of_computed g a :
  acyclic g -> a ∈ PyDict.keys g ->
  calculate_dependency_level (S (length g)) g a = Some (level_of g a).
Proof.
  intros Hacyc Ha. unfold level_of.
  destruct (calculate_dependency_level_total g Hacyc (S (length g)) a [])
    as [v ->]; try done.
  - apply NoDup_nil_2.
  - intros x Hx. by apply elem_of_nil in Hx.
  - simpl. lia.
Qed.

(** The equation that the level computation solves on an acyclic
    graph. *)
Lemma level_of_unfold g a :
  acyclic g -> a ∈ PyDict.keys g ->
  level_of g a
  = match PyDict.get g a [] with
    | [] => 0
    | _ => 1 + max_level (map (level_of g) (key_dependencies g a))
    end.
Proof.
  intros Hacyc Ha.
  pose proof (level_of_computed g a Hacyc Ha) as Hup.
  apply (calculate_dependency_level_mono g _ (S (S (length g)))) in Hup; [|lia].
  rewrite calculate_dependency_level_S in Hup. unfold key_dependencies.
  destruct (PyDict.get g a []) as [|d0 ds] eqn:Hdeps; [by injection Hup|].
  pose proof (max_level_nonneg
                (map (level_of g) (List.filter (PyDict.mem g) (d0 :: ds)))).
  destruct (foldl_level_step g
              (calculate_dependency_level (S (length g)) g)
              (level_of g) (d0 :: ds) 0) as [Hf|?]; [| |lia].
  - intros dep _ Hmem. apply level_of_computed; [done|]. by apply mem_keys.
  - remember (max_level (map (level_of g)
                           (List.filter (PyDict.mem g) (d0 :: ds)))) as M.
    rewrite Hf in Hup. simpl in Hup. injection Hup as <-. lia.
Qed.

(** X5. On an acyclic graph the levels are a layering: the level of a
    key is never negative, it is 0 exactly when the recorded list of the
    key is empty, and it is strictly greater than the level of each of
    its dependencies that are keys. *)
Theorem levels_decrease_along_edges g a :
  acyclic g ->
  a ∈ PyDict.keys g ->
  0 <= level_of g a
  /\ (level_of g a = 0 <-> PyDict.get g a [] = [])
  /\ (forall b, b ∈ PyDict.get g a [] -> PyDict.mem g b = true ->
        level_of g b < level_of g a).
Proof.
  intros Hacyc Ha. rewrite (level_of_unfold g a Hacyc Ha).
  pose proof (max_level_nonneg (map (level_of g) (key_dependencies g a))) as H0.
  split_and!.
  - destruct (PyDict.get g a []); lia.
  - destruct (PyDict.get g a []); split; (done || lia).
  - intros b Hb Hmem.
    assert (level_of g b <= max_level (map (level_of g) (key_dependencies g a)))
      as Hle.
    { apply max_level_ge, list_elem_of_fmap. exists b. split; [done|].
      by apply key_dependencies_intro. }
    destruct (PyDict.get g a []); [by apply elem_of_nil in Hb|lia].
Qed.

Lemma levels_decrease_along_edges_witness :
  0 <= level_of simple_graph "C"
  /\ (level_of simple_graph "C" = 0 <-> PyDict.get simple_graph "C" [] = [])
  /\ (forall b, b ∈ PyDict.get simple_graph "C" [] ->
        PyDict.mem simple_graph b = true ->
        level_of simple_graph b < level_of simple_graph "C").
Proof.
  apply (levels_decrease_along_edges simple_graph "C").
  - apply levels_defined_acyclic. vm_compute. reflexivity.
  - unfold simple_graph. simpl. set_solver.
Defined.

(** ** Level analysis after a build that met a cycle *)

Lemma dependency_levels_None fuel g ks :
  foldl (fun acc package =>
           levels ← acc;
           level ← calculate_dependency_level fuel g package;
           Some (levels_append levels level package)) None ks = None.
Proof. induction ks as [|k ks IH]; simpl; auto. Qed.

Lemma dependency_levels_diverges fuel g a :
  a ∈ PyDict.keys g ->
  calculate_dependency_level fuel g a = None ->
  dependency_levels fuel g = None.
Proof.
  unfold dependency_levels. generalize (Some (@nil (Z * names))).
  induction (PyDict.keys g) as [|k ks IH]; intros acc Ha Hnone;
    [by apply elem_of_nil in Ha|].
  simpl. apply elem_of_cons in Ha as [<-|Ha]; [|by apply IH].
  rewrite Hnone. destruct acc; simpl; apply dependency_levels_None.
Qed.

(** After a build whose root reaches a cycle the level computation of
    the root needs more than any fuel. *)
Lemma levels_diverge_after_cyclic_build
    config source fuel root t st u :
  max_depth config = None ->
  filter_substring config = None ->
  (forall t1 t2 k, source t1 k = source t2 k) ->
  bfs_build_dependency_graph config source fuel root 0 [] (initial_state t)
  = Some st ->
  rtc (edge (successors source)) root u ->
  tc (edge (successors source)) u u ->
  forall fuel',
    calculate_dependency_level fuel' (dependency_graph st) root = None
    /\ dependency_levels fuel' (dependency_graph st) = None.
Proof.
  intros Hmax Hfilter Hdet H Hu Hcyc fuel'.
  destruct (forward_on_fixed_graph config source fuel root t st)
    as (Hvis & Hrec & _ & _); try done.
  set (G := dependency_graph st) in *.
  assert (forall a b, rtc (edge (successors source)) root a ->
            edge (successors source) a b -> level_edge G a b) as Hedge.
  { intros a b Ha Hab. apply key_dependencies_intro.
    - unfold PyDict.get. by rewrite (Hrec a) by (by apply Hvis).
    - unfold PyDict.mem. rewrite (Hrec b); [done|].
      apply Hvis. by eapply rtc_r. }
  assert (forall a b, rtc (edge (successors source)) root a ->
            tc (edge (successors source)) a b -> tc (level_edge G) a b)
    as Htc.
  { intros a b Ha Hab. induction Hab as [a b Hab|a b c Hab Hbc IH].
    - apply tc_once. by apply Hedge.
    - eapply tc_l; [by apply Hedge|]. apply IH. by eapply rtc_r. }
  assert (forall v, rtc (edge (successors source)) root v ->
            rtc (level_edge G) root v) as Hrtc.
  { apply rtc_ind_r; [apply rtc_refl|]. intros y z Hy Hyz IH.
    eapply rtc_r; [exact IH|]. by apply Hedge. }
  pose proof (Hrtc u Hu) as Hu'.
  assert (calculate_dependency_level fuel' G root = None) as Hnone.
  { eapply calculate_dependency_level_diverges; [exact Hu'|]. by apply Htc. }
  split; [done|]. eapply dependency_levels_diverges; [|exact Hnone].
  eapply find_Some_keys. apply Hrec, Hvis, rtc_refl.
Qed.

(** X6. The level analysis has no cycle guard: after a forward build
    (no depth limit, no filter, unchanging source) whose root reaches a
    cycle, the level computation of the root does not return for any
    fuel, and so neither does the loop of the detailed analysis over the
    recorded graph. *)
Theorem level_analysis_diverges_after_cyclic_build
    config source fuel root t st u :
  max_depth config = None ->
  filter_substring config = None ->
  (forall t1 t2 k, source t1 k = source t2 k) ->
  bfs_build_dependency_graph config source fuel root 0 [] (initial_state t)
  = Some st ->
  rtc (edge (successors source)) root u ->
  tc (edge (successors source)) u u ->
  forall fuel',
    calculate_dependency_level fuel' (dependency_graph st) root = None
    /\ dependency_levels fuel' (dependency_graph st) = None.
Proof. apply levels_diverge_after_cyclic_build. Qed.

Definition cyclic_build : State :=
  default (initial_state 0)
    (bfs_build_dependency_graph (Fixtures.offline "A" None None false)
       (source_of (Fixtures.offline "A" None None false)
          (Fixtures.text_world abc_cycle))
       10 "A" 0 [] (initial_state 0)).

Lemma abc_cycle_source k :
  successors (source_of (Fixtures.offline "A" None None false)
                (Fixtures.text_world abc_cycle)) k
  = PyDict.get [("A", ["B"]); ("B", ["C"]); ("C", ["A"])] k [].
Proof.
  unfold successors.
  by rewrite (text_source_lookup _ _ "fixture.txt" abc_cycle
                [("A", ["B"]); ("B", ["C"]); ("C", ["A"])]).
Qed.

Lemma level_analysis_diverges_after_cyclic_build_witness :
  calculate_dependency_level 1000 (dependency_graph cyclic_build) "A" = None
  /\ dependency_levels 1000 (dependency_graph cyclic_build) = None.
Proof.
  refine (level_analysis_diverges_after_cyclic_build
            (Fixtures.offline "A" None None false)
            (source_of (Fixtures.offline "A" None None false)
               (Fixtures.text_world abc_cycle))
            10 "A" 0 cyclic_build "A" _ _ _ _ _ _ 1000).
  - reflexivity.
  - reflexivity.
  - intros t1 t2 k. reflexivity.
  - vm_compute. reflexivity.
  - apply rtc_refl.
  - apply (tc_l _ "A" "B" "A");
      [unfold edge; rewrite abc_cycle_source; simpl; set_solver|].
    apply (tc_l _ "B" "C" "A");
      [unfold edge; rewrite abc_cycle_source; simpl; set_solver|].
    apply tc_once. unfold edge. rewrite abc_cycle_source. simpl. set_solver.
Defined.

(** ** The level groups of the detailed analysis *)

Lemma levels_find_append levels level package l :
  levels_find (levels_append levels level package) l
  = if Z.eqb level l
    then Some (default [] (levels_find levels l) ++ [package])%list
    else levels_find levels l.
Proof.
  induction levels as [|[l0 ps] levels IH]; simpl.
  - by destruct (Z.eqb_spec level l).
  - destruct (Z.eqb_spec l0 level) as [->|Hne]; simpl.
    + by destruct (Z.eqb_spec level l).
    + destruct (Z.eqb_spec l0 l) as [->|Hne'].
      * destruct (Z.eqb_spec level l); [congruence|done].
      * apply IH.
Qed.

(** The keys of [ks] whose level is [l], in the order of [ks]. *)
Definition at_level (g : graph) (l : Z) (ks : names) : names :=
  List.filter (fun k => Z.eqb (level_of g k) l) ks.

Lemma at_level_snoc g l ks k :
  at_level g l (ks ++ [k])%list
  = (at_level g l ks ++ if Z.eqb (level_of g k) l then [k] else [])%list.
Proof.
  unfold at_level. rewrite List.filter_app. simpl.
  by destruct (Z.eqb (level_of g k) l).
Qed.

Lemma dependency_levels_groups g :
  acyclic g ->
  forall rest processed levels,
    (forall k, k ∈ rest -> k ∈ PyDict.keys g) ->
    (forall l, default [] (levels_find levels l) = at_level g l processed) ->
    exists levels',
      foldl (fun acc package =>
               levels ← acc;
               level ← calculate_dependency_level (S (length g)) g package;
               Some (levels_append levels level package))
        (Some levels) rest = Some levels'
      /\ forall l, default [] (levels_find levels' l)
                   = at_level g l (processed ++ rest)%list.
Proof.
  intros Hacyc. induction rest as [|k rest IH]; intros processed levels Hk Hl.
  - exists levels. split; [done|]. intros l. by rewrite app_nil_r.
  - cbn [foldl mbind option_bind].
    rewrite (level_of_computed g k Hacyc) by (apply Hk, list_elem_of_here).
    cbn [mbind option_bind].
    destruct (IH (processed ++ [k])%list
                (levels_append levels (level_of g k) k)) as (L & HL & Hspec).
    + intros x Hx. apply Hk. by apply list_elem_of_further.
    + intros l. rewrite levels_find_append, at_level_snoc, <- Hl.
      destruct (Z.eqb (level_of g k) l); [done|]. by rewrite app_nil_r.
    + exists L. split; [done|]. intros l. rewrite Hspec.
      by rewrite <- app_assoc.
Qed.

Lemma map_fst_filter {A B} (P : A * B -> bool) (Q : A -> bool)
    (l : list (A * B)) :
  (forall x, x ∈ l -> P x = Q (fst x)) ->
  map fst (List.filter P l) = List.filter Q (map fst l).
Proof.
  induction l as [|x l IH]; intros H; [done|]. simpl.
  rewrite <- (H x) by apply list_elem_of_here.
  rewrite <- IH by (intros y Hy; apply H; by apply list_elem_of_further).
  by destruct (P x).
Qed.

Lemma leaf_packages_at_level_0 g :
  acyclic g -> NoDup (PyDict.keys g) ->
  leaf_packages g = at_level g 0 (PyDict.keys g).
Proof.
  intros Hacyc Hnd. unfold leaf_packages, at_level, PyDict.keys.
  assert (forall item, item ∈ g ->
            match snd item with [] => true | _ => false end
            = Z.eqb (level_of g (fst item)) 0) as Hsame.
  { intros [k l] Hin. simpl.
    assert (k ∈ PyDict.keys g) as Hk
      by (apply list_elem_of_fmap; by exists (k, l)).
    pose proof (find_elem_of g k l Hnd Hin) as Hfind.
    rewrite (level_of_unfold g k Hacyc Hk). unfold PyDict.get. rewrite Hfind.
    pose proof (max_level_nonneg (map (level_of g) (key_dependencies g k))).
    destruct l; [done|]. symmetry. apply Z.eqb_neq. lia. }
  by apply map_fst_filter.
Qed.

(** X7. On an acyclic graph with distinct keys the loop of the detailed
    analysis returns, and the group it builds for a level holds exactly
    the keys of that level, in the order of the graph; in particular the
    group of level 0 is the list of the packages without dependencies
    that the analysis prints next. *)
Theorem detailed_analysis_groups_by_level g :
  acyclic g ->
  NoDup (PyDict.keys g) ->
  exists levels,
    dependency_levels (S (length g)) g = Some levels
    /\ (forall l, default [] (levels_find levels l)
                  = at_level g l (PyDict.keys g))
    /\ default [] (levels_find levels 0) = leaf_packages g.
Proof.
  intros Hacyc Hnd.
  destruct (dependency_levels_groups g Hacyc (PyDict.keys g) [] [])
    as (levels & Hrun & Hspec); [done|done|].
  exists levels. split_and!; [done|done|].
  by rewrite Hspec, leaf_packages_at_level_0.
Qed.

Lemma detailed_analysis_groups_by_level_witness :
  exists levels,
    dependency_levels 7 simple_graph = Some levels
    /\ (forall l, default [] (levels_find levels l)
                  = at_level simple_graph l (PyDict.keys simple_graph))
    /\ default [] (levels_find levels 0) = ["D"; "F"].
Proof.
  apply (detailed_analysis_groups_by_level simple_graph).
  - apply levels_defined_acyclic. vm_compute. reflexivity.
  - apply (bool_decide_unpack (NoDup (PyDict.keys simple_graph))).
    vm_compute. exact I.
Defined.

(** ** The entries of the reverse index *)

(** What one entry [(a, l)] of the forward graph contributes to the
    dependents of [b]: [a], once for every occurrence of [b] in [l]. *)
Definition dependents_from (b : string) (item : string * names) : names :=
  repeat (fst item) (occurrences b (snd item)).

Lemma add_dependents_get package deps (rg : graph) b :
  PyDict.get (TestRepository.add_dependents package deps rg) b []
  = (PyDict.get rg b [] ++ repeat package (occurrences b deps))%list.
Proof.
  unfold TestRepository.add_dependents. revert rg.
  induction deps as [|dep deps IH]; intros rg; cbn [fold_left].
  - by rewrite occurrences_nil, app_nil_r.
  - rewrite IH, get_append, occurrences_cons.
    destruct (String.eqb dep b); [|done].
    by rewrite <- app_assoc.
Qed.

Lemma invert_into_get (g rg : graph) b :
  PyDict.get (TestRepository.invert_into g rg) b []
  = (PyDict.get rg b [] ++ flat_map (dependents_from b) g)%list.
Proof.
  unfold TestRepository.invert_into. revert rg.
  induction g as [|[k l] g IH]; intros rg; cbn [fold_left fst snd flat_map].
  - by rewrite app_nil_r.
  - by rewrite IH, add_dependents_get, <- app_assoc.
Qed.

Lemma sum_lengths_append (d : graph) k x :
  sum_list (map (fun item => length (snd item)) (PyDict.append d k x))
  = S (sum_list (map (fun item => length (snd item)) d)).
Proof.
  induction d as [|[k' l] d IH]; simpl; [done|].
  destruct (String.eqb k' k); simpl.
  - rewrite length_app. simpl. lia.
  - rewrite IH. lia.
Qed.

Lemma sum_lengths_invert_into (g rg : graph) :
  sum_list (map (fun item => length (snd item))
              (TestRepository.invert_into g rg))
  = (sum_list (map (fun item => length (snd item)) rg)
     + sum_list (map (fun item => length (snd item)) g))%nat.
Proof.
  assert (forall package deps (d : graph),
            sum_list (map (fun item => length (snd item))
                        (TestRepository.add_dependents package deps d))
            = (sum_list (map (fun item => length (snd item)) d)
               + length deps)%nat) as Hadd.
  { unfold TestRepository.add_dependents.
    induction deps as [|dep deps IH]; intros d; simpl; [lia|].
    rewrite IH, sum_lengths_append. lia. }
  unfold TestRepository.invert_into. revert rg.
  induction g as [|[k l] g IH]; intros rg; simpl; [lia|].
  rewrite IH, Hadd. lia.
Qed.

(** X8. The entry of [b] in the reverse graph of a fixture lists the
    keys of the fixture in their order, each as often as [b] occurs in
    its dependency list; a package that nothing depends on has no
    entry. *)
Theorem reverse_graph_entries_in_fixture_order (g : graph) b :
  PyDict.get (TestRepository.build_reverse_dependencies g) b []
  = flat_map (dependents_from b) g
  /\ (PyDict.mem (TestRepository.build_reverse_dependencies g) b = true
      <-> exists a l, (a, l) ∈ g /\ b ∈ l).
Proof.
  split.
  - unfold TestRepository.build_reverse_dependencies.
    by rewrite invert_into_get.
  - unfold TestRepository.build_reverse_dependencies,
      TestRepository.invert_into.
    assert (forall package deps (d : graph),
              PyDict.mem (TestRepository.add_dependents package deps d) b = true
              <-> PyDict.mem d b = true \/ b ∈ deps) as Hadd.
    { unfold TestRepository.add_dependents.
      induction deps as [|dep deps IH]; intros d; cbn [fold_left].
      - split; [auto|]. intros [?|H]; [done|by apply elem_of_nil in H].
      - rewrite IH, elem_of_cons.
        assert (PyDict.mem (PyDict.append d dep package) b = true
                <-> PyDict.mem d b = true \/ b = dep) as ->.
        { rewrite !mem_keys. clear.
          induction d as [|[k' l] d IH]; simpl.
          - rewrite list_elem_of_singleton. split; [auto|].
            intros [H|?]; [by apply elem_of_nil in H|done].
          - destruct (String.eqb_spec k' dep) as [->|Hne]; simpl.
            + rewrite elem_of_cons. split; [auto|]. intros [?| ->]; [done|].
              by left.
            + rewrite !elem_of_cons, IH. tauto. }
        tauto. }
    assert (forall rg : graph,
              PyDict.mem
                (fold_left (fun rg item =>
                              TestRepository.add_dependents (fst item)
                                (snd item) rg) g rg) b = true
              <-> PyDict.mem rg b = true \/ exists a l, (a, l) ∈ g /\ b ∈ l)
      as Hgen.
    { induction g as [|[k l] g IH]; intros rg; cbn [fold_left fst snd].
      - split; [auto|]. intros [?|(a & l & H & _)]; [done|].
        by apply elem_of_nil in H.
      - rewrite IH, Hadd. split.
        + intros [[?|?]|(a & l' & ? & ?)]; [by left| |].
          * right. exists k, l. split; [apply list_elem_of_here|done].
          * right. exists a, l'. split; [by apply list_elem_of_further|done].
        + intros [?|(a & l' & Hin & ?)]; [by left; left|].
          apply elem_of_cons in Hin as [[= -> ->]|Hin]; [by left; right|].
          right. by exists a, l'. }
    rewrite (Hgen PyDict.empty). split; [|auto].
    intros [H|H]; [discriminate H|done].
Qed.

(** ** Setting up reverse mode *)

(** The number of edges of a graph, repetitions counted. *)
Definition edge_count (g : graph) : nat :=
  sum_list (map (fun item => length (snd item)) g).

(** Dictionaries of packages. *)
Lemma same_key_true a b : Nuspec.same_key a b = true <-> a = b.
Proof.
  destruct a as [x|], b as [y|]; simpl; try (split; congruence).
  rewrite String.eqb_eq. split; congruence.
Qed.

Lemma find_set_package_inv d k v k' v' :
  Nuspec.find_package (Nuspec.set_package d k v) k' = Some v' ->
  v' = v \/ Nuspec.find_package d k' = Some v'.
Proof.
  induction d as [|[k0 v0] d IH]; simpl.
  - destruct (Nuspec.same_key k k'); [|done]. intros [= <-]. by left.
  - destruct (Nuspec.same_key k0 k) eqn:E; simpl.
    + destruct (Nuspec.same_key k0 k'); [|by right]. intros [= <-]. by left.
    + destruct (Nuspec.same_key k0 k'); [by right|]. apply IH.
Qed.

Lemma elem_of_keys_set_package d k v k' :
  k' ∈ Nuspec.get_all_packages (Nuspec.set_package d k v) ->
  k' = k \/ k' ∈ Nuspec.get_all_packages d.
Proof.
  unfold Nuspec.get_all_packages.
  induction d as [|[k0 v0] d IH]; simpl.
  - intros H. apply list_elem_of_singleton in H. by left.
  - destruct (Nuspec.same_key k0 k) eqn:E; simpl; [by right|].
    intros H. apply elem_of_cons in H as [->|H].
    + right. apply list_elem_of_here.
    + destruct (IH H) as [->|H']; [by left|].
      right. by apply list_elem_of_further.
Qed.

Lemma NoDup_keys_set_package d k v :
  NoDup (Nuspec.get_all_packages d) ->
  NoDup (Nuspec.get_all_packages (Nuspec.set_package d k v)).
Proof.
  unfold Nuspec.get_all_packages.
  induction d as [|[k0 v0] d IH]; simpl; intros Hnd.
  - apply NoDup_singleton.
  - apply NoDup_cons in Hnd as [Hk0 Hnd].
    destruct (Nuspec.same_key k0 k) eqn:E; simpl.
    + by apply NoDup_cons.
    + apply NoDup_cons. split; [|by apply IH].
      intros Hin. apply (elem_of_keys_set_package d k v k0) in Hin
        as [->|Hin]; [|done].
      assert (Nuspec.same_key k k = true) as Hkk by (by apply same_key_true).
      congruence.
Qed.

Lemma named_of_graph (g : graph) : Nuspec.named (Nuspec.of_graph g) = Some g.
Proof.
  unfold Nuspec.named, Nuspec.of_graph.
  induction g as [|[k l] g IH]; [done|].
  cbn [map fst snd mapM]. cbn [fst snd mbind option_bind].
  rewrite IH. reflexivity.
Qed.

Lemma find_package_of_graph (g : graph) n :
  Nuspec.find_package (Nuspec.of_graph g) (Some n) = PyDict.find g n.
Proof.
  induction g as [|[k l] g IH]; [done|]. simpl.
  by destruct (String.eqb k n).
Qed.

Lemma get_package_dependencies_of_graph (g : graph) n :
  Nuspec.get_package_dependencies (Nuspec.of_graph g) n = PyDict.get g n [].
Proof.
  unfold Nuspec.get_package_dependencies, PyDict.get.
  by rewrite find_package_of_graph.
Qed.

Lemma load_offline_repository_NoDup so nuspec_files packages :
  Nuspec.load_offline_repository so nuspec_files = Some packages ->
  NoDup (Nuspec.get_all_packages packages).
Proof.
  unfold Nuspec.load_offline_repository.
  destruct nuspec_files as [|f fs]; [done|].
  generalize (f :: fs). intros files.
  assert (forall (d : Nuspec.package_dict),
            NoDup (Nuspec.get_all_packages d) ->
            NoDup (Nuspec.get_all_packages
                     (fold_left
                        (fun packages nuspec_file =>
                           match nuspec_file ≫= Nuspec.parse_nuspec_file so with
                           | Some (package_name, dependencies) =>
                               Nuspec.set_package packages package_name
                                 dependencies
                           | None => packages
                           end) files d))) as Hfold.
  { induction files as [|x files IH]; intros d Hd; simpl; [done|].
    apply IH. destruct (x ≫= Nuspec.parse_nuspec_file so) as [[? ?]|]; [|done].
    by apply NoDup_keys_set_package. }
  specialize (Hfold [] (NoDup_nil_2)).
  match goal with
  | |- context [fold_left ?step files []] =>
      destruct (fold_left step files []) eqn:E; [done|]
  end.
  intros [= <-]. done.
Qed.

(** A directory that loads to a dictionary of named packages has no
    package twice. *)
Lemma load_offline_repository_named_NoDup so nuspec_files (packages : graph) :
  Nuspec.load_offline_repository so nuspec_files
  = Some (Nuspec.of_graph packages) ->
  NoDup (PyDict.keys packages).
Proof.
  intros Hload. apply load_offline_repository_NoDup in Hload.
  assert (Nuspec.get_all_packages (Nuspec.of_graph packages)
          = Some <$> PyDict.keys packages) as Hkeys.
  { unfold Nuspec.get_all_packages, Nuspec.of_graph, PyDict.keys.
    clear Hload. induction packages as [|[k l] packages IH]; [done|].
    simpl. f_equal. exact IH. }
  rewrite Hkeys in Hload. by apply (NoDup_fmap_1 Some).
Qed.

(** The loop over [all_packages] of the .nuspec branch rebuilds the
    dictionary entry by entry and inverts it on the way. *)
Lemma complete_graph_loop (packages : graph) :
  NoDup (PyDict.keys packages) ->
  forall rest done st,
    packages = (done ++ rest)%list ->
    dependency_graph st = done ->
    reverse_dependency_graph st = TestRepository.invert_into done PyDict.empty ->
    let st' :=
      fold_left
        (fun st package =>
           let dependencies := PyDict.get packages package [] in
           let st := record_node package dependencies st in
           set_reverse_dependency_graph
             (TestRepository.add_dependents package dependencies
                (reverse_dependency_graph st)) st)
        (PyDict.keys rest) st in
    dependency_graph st' = packages
    /\ reverse_dependency_graph st'
       = TestRepository.invert_into packages PyDict.empty
    /\ visited_packages st' = visited_packages st
    /\ cycle_detected st' = cycle_detected st
    /\ clock st' = clock st
    /\ output st' = output st.
Proof.
  intros Hnd. induction rest as [|[k l] rest IH]; intros done st Hp Hg Hr.
  - simpl. rewrite app_nil_r in Hp. subst. by split_and!.
  - cbn [PyDict.keys map fst fold_left].
    assert (PyDict.get packages k [] = l) as Hget.
    { unfold PyDict.get. rewrite (find_elem_of packages k l Hnd); [done|].
      rewrite Hp. apply elem_of_app. right. apply list_elem_of_here. }
    assert (k ∉ PyDict.keys done) as Hfresh.
    { rewrite Hp in Hnd. unfold PyDict.keys in Hnd. rewrite map_app in Hnd.
      apply NoDup_app in Hnd as (_ & Hdisj & _). intros Hin.
      apply (Hdisj k Hin). simpl. apply list_elem_of_here. }
    rewrite Hget.
    specialize (IH (done ++ [(k, l)])%list
                  (set_reverse_dependency_graph
                     (TestRepository.add_dependents k l
                        (reverse_dependency_graph (record_node k l st)))
                     (record_node k l st))).
    destruct IH as (H1 & H2 & H3 & H4 & H5 & H6).
    + by rewrite <- app_assoc.
    + simpl. rewrite Hg. clear -Hfresh.
      induction done as [|[k' l'] done IH]; simpl; [done|].
      simpl in Hfresh. apply not_elem_of_cons in Hfresh as [Hne Hfresh].
      destruct (String.eqb_spec k' k); [congruence|]. by rewrite IH.
    + simpl. rewrite Hr. unfold TestRepository.invert_into.
      by rewrite fold_left_app.
    + by split_and!.
Qed.

(** What [build_complete_dependency_graph] leaves when the repository
    loads to a dictionary of named packages. *)
Lemma build_complete_loaded config w path t packages :
  work_mode config = Offline ->
  test_repo_path config = Some path ->
  match file_system w path t with
  | RegularFile content =>
      TestRepository.load_test_repository content = Some packages
  | Directory nuspec_files =>
      Nuspec.load_offline_repository (set_order w) nuspec_files
      = Some (Nuspec.of_graph packages)
  | Missing => False
  end ->
  exists st,
    build_complete_dependency_graph config w (initial_state t) = Some (inr st)
    /\ dependency_graph st = packages
    /\ reverse_dependency_graph st
       = TestRepository.build_reverse_dependencies packages
    /\ visited_packages st = ∅
    /\ output st = [BuildingCompleteGraph;
                    GraphBuilt (length packages) (edge_count packages)].
Proof.
  intros Hm Hp Hload. unfold build_complete_dependency_graph.
  rewrite Hm, Hp. cbn [clock print initial_state].
  destruct (file_system w path t) as [content|nuspec_files|] eqn:Hf;
    [| |done].
  - simpl. rewrite Hload. eexists. split; [reflexivity|]. simpl.
    split_and!; try done.
    unfold TestRepository.build_reverse_dependencies, edge_count.
    by rewrite sum_lengths_invert_into.
  - pose proof (load_offline_repository_named_NoDup _ _ _ Hload) as Hnd.
    assert (detect_repository_type (Directory nuspec_files) = inr nuspec_offline)
      as ->.
    { destruct nuspec_files; [done|done]. }
    rewrite Hload, named_of_graph.
    pose proof (complete_graph_loop packages Hnd packages []
                  (tick (print BuildingCompleteGraph (initial_state t)))
                  eq_refl eq_refl eq_refl) as Hloop.
    cbv zeta in Hloop |- *.
    set (stF := fold_left _ (PyDict.keys packages) _) in *.
    destruct Hloop as (H1 & H2 & H3 & H4 & H5 & H6).
    eexists. split; [reflexivity|].
    cbn [dependency_graph reverse_dependency_graph visited_packages output
         print].
    rewrite H1, H2, H3, H6. split_and!; try done.
    unfold TestRepository.build_reverse_dependencies, edge_count. simpl.
    by rewrite sum_lengths_invert_into.
Qed.

(** X9. [build_complete_dependency_graph] leaves the same result for
    both kinds of offline repository: when the repository loads to a
    dictionary, the graph is that dictionary, the reverse index is its
    inversion, nothing is visited yet, and the line it prints reports the
    number of entries and, as the number of reverse links, the number of
    edges of the dictionary. *)
Theorem complete_graph_is_the_loaded_dictionary config w path t packages :
  work_mode config = Offline ->
  test_repo_path config = Some path ->
  match file_system w path t with
  | RegularFile content =>
      TestRepository.load_test_repository content = Some packages
  | Directory nuspec_files =>
      Nuspec.load_offline_repository (set_order w) nuspec_files
      = Some (Nuspec.of_graph packages)
  | Missing => False
  end ->
  exists st,
    build_complete_dependency_graph config w (initial_state t) = Some (inr st)
    /\ dependency_graph st = packages
    /\ reverse_dependency_graph st
       = TestRepository.build_reverse_dependencies packages
    /\ visited_packages st = ∅
    /\ output st = [BuildingCompleteGraph;
                    GraphBuilt (length packages) (edge_count packages)].
Proof. apply build_complete_loaded. Qed.

Definition sample_directory : World :=
  {| registry := fun _ _ _ => None;
     file_system := fun _ _ => Directory [Some sample_nuspec; None];
     set_order := sample_set_order |}.

Lemma complete_graph_is_the_loaded_dictionary_witness :
  exists st,
    build_complete_dependency_graph (Fixtures.offline "Lib.A" None None true)
      sample_directory (initial_state 0) = Some (inr st)
    /\ dependency_graph st = [("Sample", ["Lib.A"; "Lib.B"])]
    /\ reverse_dependency_graph st
       = TestRepository.build_reverse_dependencies
           [("Sample", ["Lib.A"; "Lib.B"])]
    /\ visited_packages st = ∅
    /\ output st = [BuildingCompleteGraph; GraphBuilt 1 2].
Proof.
  apply (complete_graph_is_the_loaded_dictionary
           (Fixtures.offline "Lib.A" None None true) sample_directory
           "fixture.txt" 0 [("Sample", ["Lib.A"; "Lib.B"])]);
    reflexivity.
Defined.

(** ** What the reverse traversal visits *)

Lemma for_each_ext_inv (I : State -> Prop) body1 body2 xs st :
  I st ->
  (forall x s, x ∈ xs -> I s -> body1 x s = body2 x s) ->
  (forall x s s', x ∈ xs -> I s -> body1 x s = Some s' -> I s') ->
  for_each body1 xs st = for_each body2 xs st.
Proof.
  revert st. induction xs as [|x xs IH]; intros st Hi Hext Hpres; [done|].
  simpl. rewrite <- (Hext x st) by (done || apply list_elem_of_here).
  destruct (body1 x st) as [s1|] eqn:Hb; [|done].
  apply IH.
  - eapply Hpres; [apply list_elem_of_here|done|done].
  - intros y s Hy. apply Hext. by apply list_elem_of_further.
  - intros y s s' Hy. apply Hpres. by apply list_elem_of_further.
Qed.

(** While the reverse index is [R], the reverse traversal is the
    traversal whose lookup answers from [R]. *)
Lemma reverse_traverse_fixed config (R : graph) fuel n d p st :
  reverse_dependency_graph st = R ->
  traverse config get_dependents fuel n d p st
  = traverse config (fun k s => (PyDict.get R k [], s)) fuel n d p st.
Proof.
  revert n d p st. induction fuel as [|fuel IH]; intros n d p st HR; [done|].
  simpl. unfold get_dependents at 1. simpl. rewrite HR.
  repeat case_match; try done.
  apply (for_each_ext_inv (fun s => reverse_dependency_graph s = R)).
  - done.
  - intros x s _ Hs. by apply IH.
  - intros x s s' _ Hs Hcall.
    apply (traverse_sound_frame config get_dependents) in Hcall.
    + by rewrite (grows_reverse _ _ Hcall).
    + intros m s0. by apply (get_dependents_spec (reverse_dependency_graph s0)).
Qed.

Lemma elem_of_occurrences a (l : names) : a ∈ l <-> (0 < occurrences a l)%nat.
Proof.
  unfold occurrences. rewrite list_elem_of_In. apply count_occ_In.
Qed.

(** In the reverse graph of a fixture, [a] is listed under [b] exactly
    when [b] is a dependency of [a]. *)
Lemma reverse_edge_iff (g : graph) a b :
  NoDup (PyDict.keys g) ->
  a ∈ PyDict.get (TestRepository.build_reverse_dependencies g) b []
  <-> fixture_edge g a b.
Proof.
  intros Hnd. unfold fixture_edge.
  by rewrite !elem_of_occurrences, build_reverse_dependencies_occurrences.
Qed.

Lemma rtc_flip {A} (R R' : relation A) x y :
  (forall a b, R a b <-> R' b a) -> rtc R x y <-> rtc R' y x.
Proof.
  intros Hflip. split.
  - induction 1 as [|a b c Hab Hbc IH]; [apply rtc_refl|].
    eapply rtc_r; [exact IH|]. by apply Hflip.
  - revert x. apply rtc_ind_r; [apply rtc_refl|].
    intros a b Hya Hab IH. eapply rtc_l; [|exact IH]. by apply Hflip.
Qed.

(** X10. Reverse mode over a text fixture, without depth limit and
    filter: the run finishes, and the packages it visits are exactly the
    root and the packages that depend on the root, directly or through
    other packages; each of them is mapped to the list of its direct
    dependents. *)
Theorem reverse_run_visits_transitive_dependents
    config w path content g fuel t :
  reverse_mode config = true ->
  work_mode config = Offline ->
  test_repo_path config = Some path ->
  file_system w path t = RegularFile content ->
  TestRepository.load_test_repository content = Some g ->
  max_depth config = None ->
  filter_substring config = None ->
  (length (TestRepository.build_reverse_dependencies g) < fuel)%nat ->
  exists st,
    run fuel config w t = Finished st
    /\ (forall k, k ∈ visited_packages st
                  <-> rtc (fixture_edge g) k (package_name config))
    /\ (forall k, rtc (fixture_edge g) k (package_name config) ->
          PyDict.find (dependency_graph st) k
          = Some (PyDict.get (TestRepository.build_reverse_dependencies g) k [])).
Proof.
  intros Hrev Hm Hp Hf Hl Hmax Hfilter Hfuel.
  pose proof (load_test_repository_NoDup _ _ Hl) as Hnd.
  set (R := TestRepository.build_reverse_dependencies g) in *.
  destruct (build_complete_text_fixture config w (initial_state t) path content g)
    as (st0 & Hb & Hg & Hr & Hv & Hc); try done.
  destruct (reverse_terminates config fuel (package_name config) 0 [] st0)
    as (st & Hrun); [by rewrite Hr|].
  exists st. split; [by apply (run_reverse fuel config w t st0 st)|].
  rewrite bfs_build_reverse_dependency_graph_traverse in Hrun.
  rewrite (reverse_traverse_fixed config R) in Hrun by done.
  pose proof (fun d => no_depth_limit_reached config d Hmax) as Hnd'.
  pose proof (fun n => no_filter_skips_nothing config n Hfilter) as Hnf.
  assert (forall n s,
            fst ((fun k (s : State) => (PyDict.get R k [], s)) n s)
            = PyDict.get R n []
            /\ same_core s (snd ((fun k (s : State) => (PyDict.get R k [], s)) n s))
            /\ (clock s <= clock (snd ((fun k (s : State) =>
                                          (PyDict.get R k [], s)) n s)))%nat
            /\ output s `prefix_of`
                 output (snd ((fun k (s : State) => (PyDict.get R k [], s)) n s)))
    as Hlk by (intros; by split_and!).
  assert (forall k, rtc (edge (fun n => PyDict.get R n [])) (package_name config) k
                    <-> rtc (fixture_edge g) k (package_name config)) as Hflip.
  { intros k. apply rtc_flip. intros a b. unfold edge.
    by apply reverse_edge_iff. }
  assert (forall k, k ∈ visited_packages st
                    <-> rtc (fixture_edge g) k (package_name config)) as Hvis.
  { intros k. rewrite <- Hflip. split.
    - intros Hk.
      eapply (traverse_visits_only_reachable config _
                (fun n => PyDict.get R n [])); try done;
        try (rewrite Hv; simpl; apply not_elem_of_empty).
    - intros Hk.
      eapply (traverse_visits_reachable config _
                (fun n => PyDict.get R n [])); try done;
        try (by rewrite Hv). }
  split; [done|]. intros k Hk.
  eapply (traverse_records_succ config _ (fun n => PyDict.get R n []));
    try done; try (by apply Hvis);
    try (rewrite Hv; simpl; apply not_elem_of_empty).
Qed.

Definition simple_graph_in_file_order : graph :=
  [("A", ["B"; "C"]); ("B", ["D"]); ("C", ["D"; "E"]); ("D", []);
   ("E", ["F"]); ("F", [])].

Lemma reverse_run_visits_transitive_dependents_witness :
  exists st,
    run 10 (Fixtures.offline "D" None None true)
      (Fixtures.text_world Fixtures.simple_test) 0 = Finished st
    /\ (forall k, k ∈ visited_packages st
                  <-> rtc (fixture_edge simple_graph_in_file_order) k "D")
    /\ (forall k, rtc (fixture_edge simple_graph_in_file_order) k "D" ->
          PyDict.find (dependency_graph st) k
          = Some (PyDict.get
                    (TestRepository.build_reverse_dependencies
                       simple_graph_in_file_order) k [])).
Proof.
  apply (reverse_run_visits_transitive_dependents
           (Fixtures.offline "D" None None true)
           (Fixtures.text_world Fixtures.simple_test) "fixture.txt"
           Fixtures.simple_test simple_graph_in_file_order 10 0);
    [reflexivity|reflexivity|reflexivity|reflexivity|reflexivity|reflexivity
    |reflexivity|simpl; lia].
Defined.

(** ** One lookup and one analysis line per recorded package *)

(** The packages of the analysis lines of an output, in order. *)
Definition analysed (out : list Event) : names :=
  flat_map (fun e => match e with AnalysisPrinted n _ => [n] | _ => [] end) out.

Lemma analysed_app out1 out2 :
  analysed (out1 ++ out2)%list = (analysed out1 ++ analysed out2)%list.
Proof. unfold analysed. apply flat_map_app. Qed.

(** The graph of a forward build in progress: its keys are the visited
    packages, in the order of the analysis lines, and every key cost one
    read of the source since the read counter stood at [t0]. *)
Definition in_step (t0 : nat) (st : State) : Prop :=
  PyDict.keys (dependency_graph st) = analysed (output st)
  /\ (forall k, k ∈ PyDict.keys (dependency_graph st)
                <-> k ∈ visited_packages st)
  /\ clock st = (t0 + length (PyDict.keys (dependency_graph st)))%nat.

Lemma forward_in_step config source t0 fuel n d p st st' :
  bfs_build_dependency_graph config source fuel n d p st = Some st' ->
  in_step t0 st -> in_step t0 st'.
Proof.
  rewrite bfs_build_dependency_graph_traverse.
  revert n d p st st'.
  induction fuel as [|fuel IH]; intros n d p st st' H Hin; [done|].
  apply traverse_cases in H.
  destruct H as [Hd ->|Hd Hp ->|Hd Hp Hs ->|Hd Hp Hs Hv ->|Hd Hp Hs Hv H];
    try done.
  - destruct Hin as (Hk & Hv & Hc). split_and!; simpl; try done.
    by rewrite analysed_app, Hk, app_nil_r.
  - destruct Hin as (Hk & Hv & Hc). split_and!; simpl; try done.
    by rewrite analysed_app, Hk, app_nil_r.
  - revert H. apply (for_each_invariant (in_step t0)).
    + destruct Hin as (Hk & Hvis & Hc).
      assert (PyDict.mem (dependency_graph st) n = false) as Hmem.
      { destruct (PyDict.mem (dependency_graph st) n) eqn:E; [|done].
        apply mem_keys, Hvis in E. done. }
      unfold in_step, expand, get_dependencies.
      cbn [clock print add_visited].
      destruct (source (clock st) n) as [l|];
        unfold record_node, set_dependency_graph;
        cbn [dependency_graph visited_packages clock output print tick
             add_visited fst snd].
      * split_and!.
        -- rewrite keys_set, Hmem, analysed_app, Hk. done.
        -- intros k. rewrite elem_of_keys_set, Hvis. set_solver.
        -- rewrite keys_set, Hmem, length_app. simpl. lia.
      * split_and!.
        -- rewrite keys_set, Hmem, !analysed_app, Hk.
           by rewrite <- app_assoc.
        -- intros k. rewrite elem_of_keys_set, Hvis. set_solver.
        -- rewrite keys_set, Hmem, length_app. simpl. lia.
    + intros x s s' _ Hs' Hcall. by eapply IH.
Qed.

(** X11. A forward build from scratch, over any source and with any
    depth limit and filter, reads the source exactly once for every
    package it records: the keys of the graph are the visited packages
    without repetition, in the order of the analysis lines printed, and
    the read counter has advanced by their number. *)
Theorem forward_build_reads_each_package_once config source fuel root t st :
  bfs_build_dependency_graph config source fuel root 0 [] (initial_state t)
  = Some st ->
  PyDict.keys (dependency_graph st) = analysed (output st)
  /\ NoDup (PyDict.keys (dependency_graph st))
  /\ (forall k, k ∈ PyDict.keys (dependency_graph st)
                <-> k ∈ visited_packages st)
  /\ clock st = (t + length (PyDict.keys (dependency_graph st)))%nat.
Proof.
  intros H.
  destruct (forward_in_step config source t _ _ _ _ _ _ H)
    as (Hk & Hv & Hc).
  { split_and!; simpl; [done| |lia]. intros k. split; [|set_solver].
    intros Hin. by apply elem_of_nil in Hin. }
  split_and!; try done.
  rewrite bfs_build_dependency_graph_traverse in H.
  eapply traverse_NoDup_keys; [|exact H|apply NoDup_nil_2].
  intros m s. apply get_dependencies_spec.
Qed.

Lemma forward_build_reads_each_package_once_witness :
  PyDict.keys (dependency_graph repeatable_st1)
  = analysed (output repeatable_st1)
  /\ NoDup (PyDict.keys (dependency_graph repeatable_st1))
  /\ (forall k, k ∈ PyDict.keys (dependency_graph repeatable_st1)
                <-> k ∈ visited_packages repeatable_st1)
  /\ clock repeatable_st1
     = (0 + length (PyDict.keys (dependency_graph repeatable_st1)))%nat.
Proof.
  apply (forward_build_reads_each_package_once
           (Fixtures.offline "A" None None false)
           (source_of (Fixtures.offline "A" None None false)
              (Fixtures.text_world Fixtures.simple_test))
           10 "A" 0 repeatable_st1).
  vm_compute. reflexivity.
Defined.

(** ** What the loader of text fixtures returns *)

(** A text without whitespace. *)
Fixpoint no_space (s : string) : bool :=
  match s with
  | EmptyString => true
  | String c r => negb (PyStr.is_space c) && no_space r
  end.

Lemma no_space_app x y : no_space (x ++ y) = no_space x && no_space y.
Proof.
  induction x as [|c x IH]; [done|]. rewrite append_cons. simpl.
  by rewrite IH, andb_assoc.
Qed.

Lemma rstrip_no_space w : no_space w = true -> PyStr.rstrip w = w.
Proof.
  induction w as [|c w IH]; simpl; [done|].
  rewrite andb_true_iff. intros [Hc Hw]. rewrite (IH Hw).
  apply negb_true_iff in Hc. rewrite Hc. by destruct w.
Qed.

Lemma strip_no_space w : no_space w = true -> PyStr.strip w = w.
Proof.
  intros H. unfold PyStr.strip.
  assert (PyStr.lstrip w = w) as ->.
  { destruct w as [|c w]; [done|]. simpl in *.
    apply andb_true_iff in H as [Hc _]. apply negb_true_iff in Hc.
    by rewrite Hc. }
  by apply rstrip_no_space.
Qed.

(** The words that [split()] returns are not empty and free of
    whitespace. *)
Lemma split_ws_from_clean cur s x :
  (forall w, cur = Some w -> w <> EmptyString /\ no_space w = true) ->
  x ∈ PyStr.split_ws_from cur s ->
  x <> EmptyString /\ no_space x = true.
Proof.
  revert cur. induction s as [|c s IH]; intros cur Hcur Hx; simpl in Hx.
  - destruct cur as [w|]; [|by apply elem_of_nil in Hx].
    apply list_elem_of_singleton in Hx as ->. by apply Hcur.
  - destruct (PyStr.is_space c) eqn:Hc.
    + destruct cur as [w|].
      * apply elem_of_cons in Hx as [->|Hx]; [by apply Hcur|].
        by apply (IH None).
      * by apply (IH None).
    + apply (IH _) in Hx; [done|]. intros w [= <-].
      destruct cur as [w0|].
      * destruct (Hcur w0 eq_refl) as [Hne Hns]. split.
        -- by destruct w0.
        -- rewrite no_space_app, Hns. simpl. by rewrite Hc.
      * split; [done|]. simpl. by rewrite Hc.
Qed.

Lemma find_set_inv {V} (d : PyDict.t V) k v k' v' :
  PyDict.find (PyDict.set d k v) k' = Some v' ->
  (k' = k /\ v' = v) \/ PyDict.find d k' = Some v'.
Proof.
  destruct (decide (k = k')) as [<-|Hne].
  - rewrite find_set_eq. intros [= <-]. by left.
  - rewrite find_set_ne by done. by right.
Qed.

(** [lstrip] and [rstrip] do not get in each other's way. *)
Lemma rstrip_idem s : PyStr.rstrip (PyStr.rstrip s) = PyStr.rstrip s.
Proof.
  induction s as [|c s IH]; [done|]. simpl.
  destruct (PyStr.rstrip s) as [|a r] eqn:E.
  - destruct (PyStr.is_space c) eqn:Hc; [done|]. simpl. by rewrite Hc.
  - simpl in IH |- *. by rewrite IH.
Qed.

Lemma lstrip_rstrip s :
  PyStr.lstrip (PyStr.rstrip s) = PyStr.rstrip (PyStr.lstrip s).
Proof.
  induction s as [|c s IH]; [done|]. simpl.
  destruct (PyStr.is_space c) eqn:Hc.
  - rewrite <- IH. destruct (PyStr.rstrip s) as [|a r]; [done|].
    simpl. by rewrite Hc.
  - simpl. destruct (PyStr.rstrip s) as [|a r]; simpl; by rewrite Hc.
Qed.

Lemma lstrip_idem s : PyStr.lstrip (PyStr.lstrip s) = PyStr.lstrip s.
Proof.
  induction s as [|c s IH]; [done|]. simpl.
  destruct (PyStr.is_space c) eqn:Hc; [done|]. simpl. by rewrite Hc.
Qed.

Lemma strip_idem s : PyStr.strip (PyStr.strip s) = PyStr.strip s.
Proof.
  unfold PyStr.strip. by rewrite lstrip_rstrip, lstrip_idem, rstrip_idem.
Qed.

Lemma strip_rstrip s : PyStr.strip (PyStr.rstrip s) = PyStr.strip s.
Proof.
  unfold PyStr.strip. by rewrite lstrip_rstrip, rstrip_idem.
Qed.

(** Every entry of the dictionary comes from a line: its key is a
    stripped text and its names are clean words. *)
Definition clean_entry (k : string) (l : names) : Prop :=
  PyStr.strip k = k
  /\ forall x, x ∈ l -> x <> EmptyString /\ no_space x = true.

Lemma load_line_clean (d : graph) line :
  (forall k l, PyDict.find d k = Some l -> clean_entry k l) ->
  forall k l, PyDict.find (TestRepository.load_line d line) k = Some l ->
    clean_entry k l.
Proof.
  intros Hd k l. unfold TestRepository.load_line.
  destruct (PyStr.contains "->" (PyStr.strip line)); [|apply Hd].
  destruct (PyStr.split_arrow (PyStr.strip line)) as [|p0 [|p1 [|p2 ps]]];
    try apply Hd.
  intros H. apply find_set_inv in H as [[-> ->]|H]; [|by apply Hd].
  split; [apply strip_idem|].
  intros x Hx. apply list_elem_of_fmap in Hx as (y & -> & Hy).
  apply list_elem_of_In, filter_In in Hy as [Hy _].
  apply list_elem_of_In in Hy.
  apply (split_ws_from_clean None) in Hy as [Hne Hns]; [|done].
  by rewrite strip_no_space.
Qed.

(** X12. In a loaded text fixture every key is a stripped text (no
    whitespace at either end), the keys are distinct, and every
    dependency name is a non-empty word without whitespace. *)
Theorem loaded_fixture_is_clean content g :
  TestRepository.load_test_repository content = Some g ->
  NoDup (PyDict.keys g)
  /\ forall k l, PyDict.find g k = Some l ->
       PyStr.strip k = k
       /\ forall x, x ∈ l -> x <> EmptyString /\ no_space x = true.
Proof.
  intros H. split; [by eapply load_test_repository_NoDup|].
  revert H. unfold TestRepository.load_test_repository.
  assert (forall ls (d : graph),
            (forall k l, PyDict.find d k = Some l -> clean_entry k l) ->
            forall k l, PyDict.find (fold_left TestRepository.load_line ls d) k
                        = Some l -> clean_entry k l) as Hfold.
  { induction ls as [|x ls IH]; intros d Hd; simpl; [done|].
    apply IH. by apply load_line_clean. }
  specialize (Hfold (PyStr.split_char TestRepository.newline
                       (PyStr.strip content)) PyDict.empty).
  destruct (fold_left _ _ _) eqn:E; [done|].
  intros [= <-] k l Hk. apply Hfold; [|done]. intros k' l' Hf. done.
Qed.

Lemma loaded_fixture_is_clean_witness :
  NoDup (PyDict.keys simple_graph_in_file_order)
  /\ forall k l, PyDict.find simple_graph_in_file_order k = Some l ->
       PyStr.strip k = k
       /\ forall x, x ∈ l -> x <> EmptyString /\ no_space x = true.
Proof.
  apply (loaded_fixture_is_clean Fixtures.simple_test). reflexivity.
Defined.

(** ** Writing a fixture and loading it back *)

(** The text of a fixture with one line per entry. *)
Definition fixture_text (items : list (string * names)) : string :=
  Fixtures.lines (map (fun item => fixture_line (fst item) (snd item)) items).

(** The dictionary that assigning the entries one after the other gives. *)
Definition dict_of_entries (items : list (string * names)) : graph :=
  fold_left (fun d item => PyDict.set d (fst item) (snd item)) items
    PyDict.empty.

Definition well_formed_entry (item : string * names) : bool :=
  is_name (fst item) && forallb is_name (snd item).

(** A text without line break. *)
Fixpoint no_newline (s : string) : bool :=
  match s with
  | EmptyString => true
  | String c r => negb (Ascii.eqb c TestRepository.newline) && no_newline r
  end.

Lemma no_newline_app x y : no_newline (x ++ y) = no_newline x && no_newline y.
Proof.
  induction x as [|c x IH]; [done|]. rewrite append_cons. simpl.
  by rewrite IH, andb_assoc.
Qed.

Lemma plain_no_newline x : plain x = true -> no_newline x = true.
Proof.
  induction x as [|c x IH]; [done|]. simpl. rewrite !andb_true_iff.
  intros [[Hc _] Hx]. split; [|auto].
  destruct (Ascii.eqb_spec c TestRepository.newline) as [->|]; [done|done].
Qed.

Lemma is_name_plain x : is_name x = true -> plain x = true.
Proof. unfold is_name. rewrite andb_true_iff. tauto. Qed.

Lemma no_newline_join deps :
  forallb is_name deps = true -> no_newline (PyStr.join " " deps) = true.
Proof.
  induction deps as [|d deps IH]; [done|].
  intros H. simpl in H. apply andb_true_iff in H as [Hd Hdeps].
  pose proof (plain_no_newline d (is_name_plain d Hd)) as Hnl.
  destruct deps as [|d' deps]; [done|].
  change (PyStr.join " " (d :: d' :: deps))
    with (d ++ " " ++ PyStr.join " " (d' :: deps)).
  by rewrite !no_newline_app, Hnl, (IH Hdeps).
Qed.

Lemma no_newline_fixture_line item :
  well_formed_entry item = true ->
  no_newline (fixture_line (fst item) (snd item)) = true.
Proof.
  unfold well_formed_entry, fixture_line. rewrite andb_true_iff.
  intros [Hn Hd]. rewrite !no_newline_app.
  by rewrite (plain_no_newline _ (is_name_plain _ Hn)), (no_newline_join _ Hd).
Qed.

Lemma no_newline_rstrip s : no_newline s = true -> no_newline (PyStr.rstrip s) = true.
Proof.
  induction s as [|c s IH]; [done|]. simpl. rewrite andb_true_iff.
  intros [Hc Hs]. specialize (IH Hs).
  destruct (PyStr.rstrip s) as [|a r].
  - destruct (PyStr.is_space c); [done|]. simpl. by rewrite Hc.
  - simpl in *. by rewrite Hc, IH.
Qed.

Lemma split_char_no_newline x :
  no_newline x = true -> PyStr.split_char TestRepository.newline x = [x].
Proof.
  induction x as [|c x IH]; [done|]. simpl. rewrite andb_true_iff.
  intros [Hc Hx]. apply negb_true_iff in Hc. by rewrite Hc, (IH Hx).
Qed.

Lemma split_char_app x y :
  no_newline x = true ->
  PyStr.split_char TestRepository.newline
    (x ++ String TestRepository.newline y)
  = x :: PyStr.split_char TestRepository.newline y.
Proof.
  induction x as [|c x IH]; intros H.
  - rewrite append_nil. simpl. done.
  - simpl in H. apply andb_true_iff in H as [Hc Hx].
    apply negb_true_iff in Hc. rewrite append_cons.
    cbn [PyStr.split_char]. by rewrite Hc, (IH Hx).
Qed.

Lemma lines_cons l ls :
  ls <> [] ->
  Fixtures.lines (l :: ls)
  = l ++ String TestRepository.newline (Fixtures.lines ls).
Proof. unfold Fixtures.lines. by destruct ls. Qed.

Lemma split_lines ls :
  ls <> [] -> Forall (fun l => no_newline l = true) ls ->
  PyStr.split_char TestRepository.newline (Fixtures.lines ls) = ls.
Proof.
  induction ls as [|l ls IH]; [done|]. intros _ Hall.
  apply Forall_cons in Hall as [Hl Hls]. destruct ls as [|l' ls].
  - by apply split_char_no_newline.
  - rewrite lines_cons by done. rewrite split_char_app by done.
    by rewrite IH.
Qed.

Lemma rstrip_lines ls l :
  PyStr.rstrip l <> EmptyString ->
  PyStr.rstrip (Fixtures.lines (ls ++ [l])%list)
  = Fixtures.lines (ls ++ [PyStr.rstrip l])%list.
Proof.
  intros Hne. induction ls as [|x ls IH]; [done|].
  cbn [app]. rewrite !lines_cons by (by destruct ls).
  rewrite rstrip_app. cbn [PyStr.rstrip]. rewrite IH.
  destruct (Fixtures.lines (ls ++ [PyStr.rstrip l])%list) eqn:E; [|done].
  exfalso. destruct ls; [by apply Hne|].
  cbn [app] in E. rewrite lines_cons in E by (by destruct ls).
  by destruct s.
Qed.

Lemma load_line_rstrip (d : graph) l :
  TestRepository.load_line d (PyStr.rstrip l) = TestRepository.load_line d l.
Proof. unfold TestRepository.load_line. by rewrite strip_rstrip. Qed.

Lemma rstrip_fixture_line_nonempty name deps :
  is_name name = true -> PyStr.rstrip (fixture_line name deps) <> EmptyString.
Proof.
  intros Hn. unfold fixture_line. rewrite rstrip_app.
  rewrite (rstrip_plain name (is_name_plain _ Hn)).
  unfold is_name in Hn. apply andb_true_iff in Hn as [Ht _].
  destruct (PyStr.rstrip _); by destruct name.
Qed.

Lemma fold_load_fixture_lines items (d : graph) :
  forallb well_formed_entry items = true ->
  fold_left TestRepository.load_line
    (map (fun item => fixture_line (fst item) (snd item)) items) d
  = fold_left (fun d item => PyDict.set d (fst item) (snd item)) items d.
Proof.
  revert d. induction items as [|item items IH]; intros d H; [done|].
  simpl in H. apply andb_true_iff in H as [Hi His]. cbn [map fold_left].
  unfold well_formed_entry in Hi. apply andb_true_iff in Hi as [Hn Hd].
  rewrite load_line_fixture_line by done. by apply IH.
Qed.

Lemma dict_set_nonempty {V} (d : PyDict.t V) k v : PyDict.set d k v <> [].
Proof. destruct d as [|[k' v'] d]; simpl; [done|]. by destruct (String.eqb k' k). Qed.

(** X13. Loading the text that has one line [NAME -> DEP1 DEP2 ...] per
    entry gives back the dictionary of the entries: every name is read
    as written, with the order and the repetitions of its line; when a
    name has several lines its last line counts and its first line fixes
    its place. *)
Theorem load_of_fixture_text items :
  items <> [] ->
  forallb well_formed_entry items = true ->
  TestRepository.load_test_repository (fixture_text items)
  = Some (dict_of_entries items).
Proof.
  intros Hne Hwf. unfold TestRepository.load_test_repository, fixture_text.
  destruct (exists_last Hne) as (init & last & ->).
  assert (well_formed_entry last = true) as Hlast.
  { rewrite forallb_app in Hwf. apply andb_true_iff in Hwf as [_ H].
    simpl in H. by rewrite andb_true_r in H. }
  assert (is_name (fst last) = true) as Hname
    by (unfold well_formed_entry in Hlast; by apply andb_true_iff in Hlast as [? _]).
  set (line := fun item : string * names => fixture_line (fst item) (snd item)).
  assert (PyStr.strip (Fixtures.lines (map line (init ++ [last])%list))
          = Fixtures.lines (map line init ++ [PyStr.rstrip (line last)])%list)
    as ->.
  { unfold PyStr.strip. rewrite map_app. cbn [map].
    rewrite <- (rstrip_lines (map line init) (line last))
      by (by apply rstrip_fixture_line_nonempty).
    f_equal.
    assert (exists (first : string * names) rest,
              Fixtures.lines (map line init ++ [line last])%list
              = fst first ++ rest /\ is_name (fst first) = true)
      as (first & rest & -> & Hf).
    { destruct init as [|item init].
      - exists last, (" -> " ++ PyStr.join " " (snd last)). by split.
      - exists item. cbn [map app].
        rewrite lines_cons by (by destruct (map line init)).
        unfold line at 1, fixture_line. rewrite !append_assoc.
        eexists. split; [reflexivity|].
        rewrite forallb_app in Hwf. apply andb_true_iff in Hwf as [H _].
        simpl in H. apply andb_true_iff in H as [H _].
        unfold well_formed_entry in H. by apply andb_true_iff in H as [? _]. }
    by apply lstrip_name. }
  rewrite split_lines.
  - rewrite fold_left_app. cbn [fold_left]. rewrite load_line_rstrip.
    change (TestRepository.load_line
              (fold_left TestRepository.load_line (map line init) PyDict.empty)
              (line last))
      with (fold_left TestRepository.load_line [line last]
              (fold_left TestRepository.load_line (map line init) PyDict.empty)).
    rewrite <- fold_left_app.
    change [line last] with (map line [last]). rewrite <- map_app.
    unfold line. rewrite fold_load_fixture_lines by done.
    fold (dict_of_entries (init ++ [last])%list).
    destruct (dict_of_entries (init ++ [last])%list) eqn:E; [|done].
    exfalso. unfold dict_of_entries in E. rewrite fold_left_app in E.
    cbn [fold_left] in E. by apply dict_set_nonempty in E.
  - by destruct (map line init).
  - apply Forall_app. split.
    + apply Forall_forall. intros l Hl.
      apply list_elem_of_fmap in Hl as (item & -> & Hitem).
      apply no_newline_fixture_line.
      rewrite forallb_app in Hwf. apply andb_true_iff in Hwf as [H _].
      rewrite forallb_forall in H. apply H. by apply list_elem_of_In.
    + apply Forall_singleton. apply no_newline_rstrip.
      by apply no_newline_fixture_line.
Qed.

Lemma load_of_fixture_text_witness :
  TestRepository.load_test_repository
    (fixture_text [("A", ["B"; "C"; "B"]); ("B", []); ("A", ["C"]); ("C", [])])
  = Some [("A", ["C"]); ("B", []); ("C", [])].
Proof.
  apply (load_of_fixture_text
           [("A", ["B"; "C"; "B"]); ("B", []); ("A", ["C"]); ("C", [])]).
  - discriminate.
  - reflexivity.
Defined.

(** ** What validation guarantees, and what it lets through *)

Lemma given_true (x : option string) :
  given x = true -> exists s, x = Some s /\ s <> "".
Proof.
  destruct x as [s|]; [|discriminate]. destruct s; [discriminate|].
  intros _. eexists. split; [reflexivity|discriminate].
Qed.

Lemma truthy_false (s : string) : PyStr.truthy s = false -> s = "".
Proof. destruct s; [reflexivity|discriminate]. Qed.

Lemma validate_inv (path_exists : string -> bool) (c c' : RawConfig)
    (errors : list ConfigError) :
  validate path_exists c = (errors, c') ->
  fst (validate path_exists c) = errors
  /\ snd (validate path_exists c) = c'.
Proof. intros ->. split; reflexivity. Qed.

(** X14. A configuration that [validate] accepts names a package that is
    not blank, gives exactly one source (a URL that starts with http://
    or https://, or a path that exists), has a depth limit of at least 1
    when it has one, and leaves [validate] with the work mode set to
    online or offline; the other fields are as they were. The argument
    parser never passes the empty string as a mode, which [validate]
    would accept and keep. *)
Theorem validated_configuration_is_well_formed
    (path_exists : string -> bool) (c c' : RawConfig) :
  validate path_exists c = ([], c') ->
  raw_work_mode c <> Some "" ->
  (exists name, raw_package_name c' = Some name /\ PyStr.strip name <> "")
  /\ given (raw_repository_url c') = negb (given (raw_test_repo_path c'))
  /\ (forall url, raw_repository_url c' = Some url -> url <> "" ->
        PyStr.starts_with "http://" url || PyStr.starts_with "https://" url
        = true)
  /\ (forall path, raw_test_repo_path c' = Some path -> path <> "" ->
        path_exists path = true)
  /\ (raw_work_mode c' = Some "online" \/ raw_work_mode c' = Some "offline")
  /\ (forall d, raw_max_depth c' = Some d -> 1 <= d)
  /\ raw_package_name c' = raw_package_name c
  /\ raw_repository_url c' = raw_repository_url c
  /\ raw_test_repo_path c' = raw_test_repo_path c
  /\ raw_max_depth c' = raw_max_depth c
  /\ raw_filter_substring c' = raw_filter_substring c
  /\ raw_reverse_mode c' = raw_reverse_mode c.
Proof.
  intros Hv Hmode. apply validate_inv in Hv as [Herr Hc]. subst c'.
  unfold validate in *.
  cbv beta zeta iota delta [fst] in Herr.
  cbv beta zeta iota delta [snd].
  cbn [raw_package_name raw_repository_url raw_test_repo_path raw_work_mode
       raw_max_depth raw_filter_substring raw_reverse_mode].
  apply app_eq_nil in Herr as [Hname Herr].
  apply app_eq_nil in Herr as [Hnone Herr].
  apply app_eq_nil in Herr as [Htwo Herr].
  apply app_eq_nil in Herr as [Hurl Herr].
  apply app_eq_nil in Herr as [Hpath Herr].
  apply app_eq_nil in Herr as [Hwm Hdepth].
  repeat split; try reflexivity.
  - destruct (raw_package_name c) as [name|]; [|discriminate].
    exists name. split; [reflexivity|].
    destruct (PyStr.truthy name); [|discriminate]. simpl in Hname.
    destruct (PyStr.strip name); [discriminate|discriminate].
  - destruct (given (raw_repository_url c)),
      (given (raw_test_repo_path c)); simpl in *;
      try reflexivity; discriminate.
  - intros url Hu Hne. rewrite Hu in Hurl.
    destruct (PyStr.truthy url) eqn:Ht;
      [|apply truthy_false in Ht; congruence].
    destruct (PyStr.truthy (PyStr.strip url)); [|discriminate].
    destruct (PyStr.starts_with "http://" url
              || PyStr.starts_with "https://" url);
      [reflexivity|].
    simpl in Hurl; discriminate Hurl.
  - intros path Hp Hne. rewrite Hp in Hpath.
    destruct (PyStr.truthy path) eqn:Ht;
      [|apply truthy_false in Ht; congruence].
    destruct (PyStr.truthy (PyStr.strip path)); [|discriminate].
    destruct (path_exists path);
      [reflexivity|simpl in Hpath; discriminate Hpath].
  - destruct (raw_work_mode c) as [mode|] eqn:Hm.
    + destruct mode as [|a mode]; [congruence|].
      cbn [PyStr.truthy andb] in Hwm.
      destruct (String.eqb (String a mode) "online") eqn:Hon.
      * apply String.eqb_eq in Hon. left. congruence.
      * destruct (String.eqb (String a mode) "offline") eqn:Hoff.
        -- apply String.eqb_eq in Hoff. right. congruence.
        -- discriminate.
    + destruct (given (raw_repository_url c)); [left; reflexivity|].
      destruct (given (raw_test_repo_path c)); [right; reflexivity|].
      discriminate.
  - intros d Hd. rewrite Hd in Hdepth.
    destruct (d <? 1) eqn:Hlt; [discriminate|]. apply Z.ltb_ge in Hlt. lia.
Qed.

Definition accepted_arguments : RawConfig :=
  {| raw_package_name := Some "A";
     raw_repository_url := None;
     raw_test_repo_path := Some "repo.txt";
     raw_work_mode := None;
     raw_max_depth := Some 2;
     raw_filter_substring := None;
     raw_reverse_mode := false |}.

Lemma validated_configuration_is_well_formed_witness :
  raw_work_mode (snd (validate (fun _ => true) accepted_arguments))
  = Some "offline".
Proof.
  destruct (validated_configuration_is_well_formed (fun _ => true)
              accepted_arguments
              (snd (validate (fun _ => true) accepted_arguments)))
    as (_ & _ & _ & _ & [Hmode|Hmode] & _).
  - reflexivity.
  - discriminate.
  - discriminate Hmode.
  - exact Hmode.
Defined.

(** X15. [validate] does not compare the work mode with the source that
    was given. A URL with mode offline, or a repository path with mode
    online, is accepted; the engine then looks for the source that the
    mode names, finds none, and every lookup fails: a forward run without
    filter records the root as a package without dependencies and
    nothing else, whatever the registry or the repository holds. *)
Theorem validation_accepts_a_mode_without_its_source
    (path_exists : string -> bool) (c c' : RawConfig) (w : World)
    (fuel t : nat) :
  validate path_exists c = ([], c') ->
  (given (raw_repository_url c) = true /\ raw_test_repo_path c = None
   /\ raw_work_mode c = Some "offline")
  \/ (given (raw_test_repo_path c) = true /\ raw_repository_url c = None
      /\ raw_work_mode c = Some "online") ->
  raw_filter_substring c = None ->
  raw_reverse_mode c = false ->
  (forall k package, source_of (engine_config c') w k package = None)
  /\ exists name st,
       raw_package_name c = Some name
       /\ run (S fuel) (engine_config c') w t = Finished st
       /\ dependency_graph st = [(name, [])]
       /\ output st = [AnalysisPrinted name 0; LookupErrorPrinted name]
       /\ cycle_detected st = false.
Proof.
  intros Hv Hcase Hfilter Hrev.
  assert (Hsrc : forall k package,
             source_of (engine_config c') w k package = None).
  { apply validate_inv in Hv as [_ Hc]. subst c'. unfold validate.
    cbv beta zeta iota delta [snd].
    intros k package. unfold source_of, engine_config.
    cbn [work_mode repository_url test_repo_path raw_work_mode
         raw_repository_url raw_test_repo_path].
    destruct Hcase as [(_ & Hp & Hm)|(_ & Hu & Hm)]; rewrite Hm.
    - rewrite Hp. reflexivity.
    - rewrite Hu. reflexivity. }
  split; [exact Hsrc|].
  assert (Hname : exists name, raw_package_name c = Some name).
  { apply validate_inv in Hv as [Herr _]. unfold validate in Herr.
    cbv beta zeta iota delta [fst] in Herr.
    apply app_eq_nil in Herr as [Hname _].
    destruct (raw_package_name c) as [name|]; [|discriminate].
    exists name. reflexivity. }
  destruct Hname as [name Hname].
  assert (Hdepth : forall d, raw_max_depth c = Some d -> 1 <= d).
  { apply validate_inv in Hv as [Herr _]. unfold validate in Herr.
    cbv beta zeta iota delta [fst] in Herr.
    do 6 (apply app_eq_nil in Herr as [_ Herr]).
    intros d Hd. rewrite Hd in Herr.
    destruct (d <? 1) eqn:Hlt; [discriminate|]. apply Z.ltb_ge in Hlt. lia. }
  assert (Hfields : package_name (engine_config c') = name
                    /\ max_depth (engine_config c') = raw_max_depth c
                    /\ filter_substring (engine_config c') = None
                    /\ reverse_mode (engine_config c') = false).
  { apply validate_inv in Hv as [_ Hc]. subst c'. unfold validate.
    cbv beta zeta iota delta [snd].
    unfold engine_config.
    cbn [package_name max_depth filter_substring reverse_mode
         raw_package_name raw_max_depth raw_filter_substring
         raw_reverse_mode].
    rewrite Hname, Hfilter, Hrev. repeat split; reflexivity. }
  destruct Hfields as (Hpn & Hmd & Hfs & Hrm).
  exists name.
  unfold run. rewrite Hrm, Hpn.
  cbn [bfs_build_dependency_graph].
  assert (Hlimit : depth_limit_reached (engine_config c') 0 = false).
  { unfold depth_limit_reached. rewrite Hmd.
    destruct (raw_max_depth c) as [d|] eqn:Hd; [|reflexivity].
    specialize (Hdepth d eq_refl).
    apply andb_false_iff. right. apply Z.leb_gt. lia. }
  rewrite Hlimit.
  assert (Hskip : should_skip_package (engine_config c') name = false).
  { unfold should_skip_package. rewrite Hfs. reflexivity. }
  cbn [in_path existsb]. rewrite Hskip.
  rewrite bool_decide_eq_false_2
    by (unfold initial_state; cbn [visited_packages]; set_solver).
  unfold get_dependencies.
  cbn [clock print add_visited initial_state].
  rewrite Hsrc. cbn [for_each].
  rewrite (display_returns_leaf fuel (engine_config c') _ name)
    by reflexivity.
  eexists. split; [exact Hname|]. repeat split.
Qed.

Definition url_with_mode_offline : RawConfig :=
  {| raw_package_name := Some "A";
     raw_repository_url := Some "https://api.nuget.org/v3";
     raw_test_repo_path := None;
     raw_work_mode := Some "offline";
     raw_max_depth := None;
     raw_filter_substring := None;
     raw_reverse_mode := false |}.

Lemma validation_accepts_a_mode_without_its_source_witness :
  exists st,
    run 1 (engine_config (snd (validate (fun _ => false)
                                 url_with_mode_offline)))
      sample_registry 0 = Finished st
    /\ dependency_graph st = [("A", [])].
Proof.
  destruct (validation_accepts_a_mode_without_its_source (fun _ => false)
              url_with_mode_offline
              (snd (validate (fun _ => false) url_with_mode_offline))
              sample_registry 0 0)
    as (_ & name & st & Hname & Hrun & Hgraph & _).
  - reflexivity.
  - left. repeat split; reflexivity.
  - reflexivity.
  - reflexivity.
  - exists st. split; [exact Hrun|]. rewrite Hgraph.
    injection Hname as <-. reflexivity.
Defined.

(** ** Lists recorded from .nuspec sources *)

(** A dependency list without repetition and without an empty name. *)
Definition tidy (l : names) : Prop := NoDup l /\ "" ∉ l.

Lemma tidy_nil : tidy [].
Proof. split; [constructor|]. apply not_elem_of_nil. Qed.

Lemma dependency_ids_nonempty deps : "" ∉ Nuspec.dependency_ids deps.
Proof.
  unfold Nuspec.dependency_ids. rewrite list_elem_of_In, in_flat_map.
  intros (dep & _ & Hin).
  destruct (Nuspec.get_id dep) as [dep_id|]; [|destruct Hin].
  destruct dep_id; simpl in Hin; [destruct Hin|].
  destruct Hin as [Heq|[]]. discriminate Heq.
Qed.

Lemma collect_nonempty ns deps_element :
  "" ∉ Nuspec.collect ns deps_element.
Proof.
  unfold Nuspec.collect. rewrite elem_of_app. intros [Hin|Hin].
  - rewrite list_elem_of_In, in_flat_map in Hin.
    destruct Hin as (group & _ & Hin).
    apply list_elem_of_In in Hin. by apply dependency_ids_nonempty in Hin.
  - by apply dependency_ids_nonempty in Hin.
Qed.

Lemma list_of_set_tidy so l : "" ∉ l -> tidy (list_of_set so l).
Proof.
  intros Hl. split; [apply list_of_set_NoDup|].
  by rewrite list_of_set_elem.
Qed.

Lemma parse_nuspec_dependencies_tidy so root :
  tidy (Nuspec.parse_nuspec_dependencies so root).
Proof.
  apply list_of_set_tidy. unfold Nuspec.listed_dependencies.
  destruct (Nuspec.find _ "metadata" root) as [metadata|];
    [|apply not_elem_of_nil].
  destruct (Nuspec.find _ "dependencies" metadata) as [deps_element|];
    [|apply not_elem_of_nil].
  apply collect_nonempty.
Qed.

Lemma parse_nuspec_file_tidy so root package_name dependencies :
  Nuspec.parse_nuspec_file so root = Some (package_name, dependencies) ->
  tidy dependencies.
Proof.
  unfold Nuspec.parse_nuspec_file.
  destruct (Nuspec.find _ "metadata" root) as [metadata|]; [|discriminate].
  destruct (Nuspec.find _ "id" metadata) as [package_id|]; [|discriminate].
  intros [= _ <-]. apply list_of_set_tidy.
  destruct (Nuspec.find _ "dependencies" metadata) as [deps_element|];
    [|apply not_elem_of_nil].
  apply collect_nonempty.
Qed.

Lemma load_offline_repository_tidy so nuspec_files packages k :
  Nuspec.load_offline_repository so nuspec_files = Some packages ->
  tidy (Nuspec.get_package_dependencies packages k).
Proof.
  unfold Nuspec.load_offline_repository.
  destruct nuspec_files as [|f fs]; [discriminate|].
  generalize (f :: fs). intros files.
  assert (Hfold : forall (d : Nuspec.package_dict),
            (forall l, Nuspec.find_package d (Some k) = Some l -> tidy l) ->
            forall l,
              Nuspec.find_package
                (fold_left
                   (fun packages nuspec_file =>
                      match nuspec_file ≫= Nuspec.parse_nuspec_file so with
                      | Some (package_name, dependencies) =>
                          Nuspec.set_package packages package_name
                            dependencies
                      | None => packages
                      end) files d) (Some k) = Some l ->
              tidy l).
  { induction files as [|x files IH]; intros d Hd l; simpl; [apply Hd|].
    apply IH. clear l.
    destruct (x ≫= Nuspec.parse_nuspec_file so) as [[name deps]|] eqn:Hx;
      [|exact Hd].
    intros l Hl. apply find_set_package_inv in Hl as [->|Hl];
      [|by apply Hd].
    destruct x as [root|]; [|discriminate]. simpl in Hx.
    by eapply parse_nuspec_file_tidy. }
  specialize (Hfold []).
  match goal with
  | |- context [fold_left ?step files []] =>
      destruct (fold_left step files []) as [|entry rest] eqn:E;
        [discriminate|]
  end.
  intros [= <-]. unfold Nuspec.get_package_dependencies.
  destruct (Nuspec.find_package (entry :: rest) (Some k)) as [v|] eqn:Hv;
    [|apply tidy_nil].
  apply Hfold; [discriminate|reflexivity].
Qed.

(** X16. When the dependencies come from .nuspec documents (the
    registry, or a directory of .nuspec files), every list that the
    forward build records is free of repetitions and of empty names,
    whatever the documents contain: both readers collect the non-empty
    [id] attributes and pass them through a set. The source is a
    .nuspec source when the mode is online or the repository path never
    designates a regular file. *)
Theorem nuspec_sources_give_tidy_lists
    (config : Config) (w : World) (fuel : nat) (root : string) (t : nat)
    (st : State) (k : string) (l : names) :
  work_mode config = Online
  \/ (forall path t' content,
        test_repo_path config = Some path ->
        file_system w path t' <> RegularFile content) ->
  bfs_build_dependency_graph config (source_of config w) fuel root 0 []
    (initial_state t) = Some st ->
  PyDict.find (dependency_graph st) k = Some l ->
  NoDup l /\ "" ∉ l.
Proof.
  intros Hsrc Hrun Hk.
  destruct (forward_entries_are_answers _ _ _ _ _ _ _ _ Hrun Hk)
    as [t' ->].
  change (tidy (default [] (source_of config w t' k))).
  unfold source_of.
  destruct (work_mode config) eqn:Hmode.
  - destruct (repository_url config) as [url|]; [|apply tidy_nil]. simpl.
    destruct (registry w url t' k) as [doc|]; [|apply tidy_nil]. simpl.
    apply parse_nuspec_dependencies_tidy.
  - destruct Hsrc as [Hsrc|Hsrc]; [discriminate|].
    destruct (test_repo_path config) as [path|]; [|apply tidy_nil]. simpl.
    specialize (Hsrc path t').
    destruct (file_system w path t') as [content|nuspec_files|];
      [by destruct (Hsrc content)| |apply tidy_nil].
    destruct nuspec_files as [|f fs]; [apply tidy_nil|].
    cbn [detect_repository_type].
    destruct (Nuspec.load_offline_repository (set_order w) (f :: fs))
      as [packages|] eqn:Hload; [|apply tidy_nil].
    simpl. by eapply load_offline_repository_tidy.
Qed.

Lemma nuspec_sources_give_tidy_lists_witness :
  exists st,
    bfs_build_dependency_graph online_config
      (source_of online_config sample_registry) 5 "Sample" 0 []
      (initial_state 0) = Some st
    /\ NoDup (PyDict.get (dependency_graph st) "Sample" []).
Proof.
  eexists. split; [vm_compute; reflexivity|].
  eapply proj1.
  eapply (nuspec_sources_give_tidy_lists online_config sample_registry 5
            "Sample" 0) with (k := "Sample").
  - left. reflexivity.
  - vm_compute. reflexivity.
  - reflexivity.
Defined.

(** * The reverse index and the inverted forward map *)

(** The repository at [path] reads, at every time, as the dictionary
    [packages]: it is a text fixture that loads to it, or a directory of
    .nuspec files that loads to it, every package with a name. *)
Definition holds_dictionary (w : World) (path : string) (packages : graph)
    : Prop :=
  forall t,
    match file_system w path t with
    | RegularFile content =>
        TestRepository.load_test_repository content = Some packages
    | Directory nuspec_files =>
        Nuspec.load_offline_repository (set_order w) nuspec_files
        = Some (Nuspec.of_graph packages)
    | Missing => False
    end.

(** Over such a repository every lookup answers the entry of the
    dictionary, or the empty list. *)
Lemma offline_source_lookup config w path packages :
  work_mode config = Offline ->
  test_repo_path config = Some path ->
  holds_dictionary w path packages ->
  forall t n, source_of config w t n = Some (PyDict.get packages n []).
Proof.
  intros Hm Hp Hh t n. unfold source_of. rewrite Hm, Hp. simpl.
  specialize (Hh t).
  destruct (file_system w path t) as [content|files|]; [| |done].
  - simpl. by rewrite Hh.
  - destruct files as [|f fs]; [done|]. cbn [detect_repository_type].
    rewrite Hh. simpl. by rewrite get_package_dependencies_of_graph.
Qed.

Lemma holds_dictionary_NoDup w path packages :
  holds_dictionary w path packages -> NoDup (PyDict.keys packages).
Proof.
  intros Hh. specialize (Hh O).
  destruct (file_system w path O) as [content|files|]; [| |done].
  - by eapply load_test_repository_NoDup.
  - by eapply load_offline_repository_named_NoDup.
Qed.

Lemma occurrences_filter (P : string -> bool) a l :
  occurrences a (List.filter P l) = if P a then occurrences a l else O.
Proof.
  induction l as [|x l IH]; cbn [List.filter].
  - rewrite occurrences_nil. by destruct (P a).
  - rewrite occurrences_cons. destruct (P x) eqn:Hx.
    + rewrite occurrences_cons, IH.
      destruct (String.eqb_spec x a) as [->|Hne]; [by rewrite Hx|].
      by destruct (P a).
    + rewrite IH. destruct (String.eqb_spec x a) as [->|Hne];
        [by rewrite Hx|]. by destruct (P a).
Qed.

(** Two lists in which every name occurs equally often are equal up to
    the order. *)
Lemma occurrences_Permutation l1 l2 :
  (forall a, occurrences a l1 = occurrences a l2) -> l1 ≡ₚ l2.
Proof. intros H. by apply (Permutation_count_occ String.string_dec). Qed.

(** A fixture without cycle in which [D] is reached first through [C]
    and then through [B], while the file lists [B] before [C]. *)
Definition diamond_fixture : string :=
  Fixtures.lines ["A -> C B"; "B -> D"; "C -> D"].

(** C5 (counterexample). On an acyclic fixture in which every package
    is reachable from the root, the inversion of the map of the forward
    build and the reverse index list the dependents of [D] in different
    orders: they are not equal. *)
Lemma inverted_forward_map_differs_in_order :
  exists st0 st,
    build_complete_dependency_graph (Fixtures.offline "A" None None true)
      (Fixtures.text_world diamond_fixture) (initial_state 0)
    = Some (inr st0)
    /\ bfs_build_dependency_graph (Fixtures.offline "A" None None false)
         (source_of (Fixtures.offline "A" None None false)
            (Fixtures.text_world diamond_fixture))
         10 "A" 0 [] (initial_state 0) = Some st
    /\ cycle_detected st = false
    /\ dependency_graph st
       = [("A", ["C"; "B"]); ("C", ["D"]); ("D", []); ("B", ["D"])]
    /\ PyDict.get (reverse_dependency_graph st0) "D" [] = ["B"; "C"]
    /\ PyDict.get (TestRepository.build_reverse_dependencies
                     (dependency_graph st)) "D" [] = ["C"; "B"]
    /\ TestRepository.build_reverse_dependencies (dependency_graph st)
       <> reverse_dependency_graph st0.
Proof.
  eexists. eexists. split; [vm_compute; reflexivity|].
  split; [vm_compute; reflexivity|].
  split_and!; try reflexivity. vm_compute. discriminate.
Qed.

(** C5 (amended). For an offline repository of either kind that holds
    the dictionary [g]: the reverse index that
    [build_complete_dependency_graph] installs is
    [build_reverse_dependencies g], in which [a] occurs in the entry of
    [b] exactly as often as [b] occurs in the forward list of [a]; and
    the inversion of the map of the forward build (no depth limit, no
    filter), which visits exactly the packages reachable from the root,
    agrees with the reverse index restricted to those packages up to the
    order of the dependents: every entry is a permutation of the entry
    of the reverse index with the unreachable dependents left out.
    Acyclicity is not needed. *)
Theorem reverse_index_inverts_forward_graph config w path g fuel t :
  work_mode config = Offline ->
  test_repo_path config = Some path ->
  holds_dictionary w path g ->
  max_depth config = None ->
  filter_substring config = None ->
  (length g < fuel)%nat ->
  let reverse_index := TestRepository.build_reverse_dependencies g in
  (exists st0,
      build_complete_dependency_graph config w (initial_state t)
      = Some (inr st0)
      /\ dependency_graph st0 = g
      /\ reverse_dependency_graph st0 = reverse_index)
  /\ (forall a b,
        occurrences a (PyDict.get reverse_index b [])
        = occurrences b (PyDict.get g a []))
  /\ (exists st,
        bfs_build_dependency_graph config (source_of config w) fuel
          (package_name config) 0 [] (initial_state t) = Some st
        /\ (forall a, a ∈ visited_packages st
                      <-> rtc (fixture_edge g) (package_name config) a)
        /\ forall b,
             PyDict.get (TestRepository.build_reverse_dependencies
                           (dependency_graph st)) b []
             ≡ₚ List.filter
                  (fun a => bool_decide (a ∈ visited_packages st))
                  (PyDict.get reverse_index b [])).
Proof.
  intros Hm Hp Hh Hmax Hfilter Hfuel reverse_index.
  pose proof (holds_dictionary_NoDup _ _ _ Hh) as Hnd.
  pose proof (offline_source_lookup config w path g Hm Hp Hh) as Hsrc.
  split_and!.
  - destruct (build_complete_loaded config w path t g Hm Hp (Hh t))
      as (st0 & Hb & Hg & Hr & _).
    by exists st0.
  - intros a b. by apply build_reverse_dependencies_occurrences.
  - destruct (forward_terminates config (source_of config w)
                (list_to_set (PyDict.keys g)) fuel (package_name config) 0 []
                (initial_state t)) as (st & Hst).
    { intros t0 k l Hk Hne. rewrite Hsrc in Hk. injection Hk as <-.
      by apply get_nonempty_key. }
    { pose proof (size_list_to_set_le (PyDict.keys g)) as Hle.
      unfold PyDict.keys in Hle. rewrite length_map in Hle.
      unfold PyDict.keys. lia. }
    exists st. split; [done|].
    destruct (forward_on_fixed_graph config (source_of config w) fuel
                (package_name config) t st) as (Hvis & Hrec & Hunrec & _);
      try done.
    { intros t1 t2 k. by rewrite !Hsrc. }
    assert (forall k, successors (source_of config w) k = PyDict.get g k [])
      as Hsucc.
    { intros k. unfold successors. by rewrite Hsrc. }
    assert (forall a, rtc (edge (successors (source_of config w)))
                        (package_name config) a
                      <-> rtc (fixture_edge g) (package_name config) a)
      as Hreach.
    { intros a. split; apply (rtc_congruence id); intros x y;
        unfold edge, fixture_edge; by rewrite Hsucc. }
    assert (NoDup (PyDict.keys (dependency_graph st))) as Hnd'.
    { rewrite bfs_build_dependency_graph_traverse in Hst.
      eapply traverse_NoDup_keys; [|exact Hst|apply NoDup_nil_2].
      intros m s. apply get_dependencies_spec. }
    split; [intros a; by rewrite Hvis, Hreach|].
    intros b. apply occurrences_Permutation. intros a.
    rewrite occurrences_filter.
    rewrite build_reverse_dependencies_occurrences by done.
    case_bool_decide as Ha.
    + unfold reverse_index.
      rewrite build_reverse_dependencies_occurrences by done.
      unfold PyDict.get at 1. rewrite (Hrec a) by done. by rewrite Hsucc.
    + unfold PyDict.get. by rewrite (Hunrec a).
Qed.

Lemma reverse_index_inverts_forward_graph_witness :
  (exists st0,
      build_complete_dependency_graph (Fixtures.offline "D" None None false)
        (Fixtures.text_world Fixtures.cycle_test) (initial_state 0)
      = Some (inr st0)
      /\ dependency_graph st0
         = [("A", ["B"]); ("B", ["C"]); ("C", ["A"]); ("D", ["E"]);
            ("E", ["D"; "F"]); ("F", [])])
  /\ (exists st,
        bfs_build_dependency_graph (Fixtures.offline "D" None None false)
          (source_of (Fixtures.offline "D" None None false)
             (Fixtures.text_world Fixtures.cycle_test))
          10 "D" 0 [] (initial_state 0) = Some st
        /\ PyDict.get (TestRepository.build_reverse_dependencies
                         (dependency_graph st)) "D" []
           ≡ₚ List.filter
                (fun a => bool_decide (a ∈ visited_packages st))
                (PyDict.get
                   (TestRepository.build_reverse_dependencies
                      [("A", ["B"]); ("B", ["C"]); ("C", ["A"]); ("D", ["E"]);
                       ("E", ["D"; "F"]); ("F", [])]) "D" [])).
Proof.
  destruct (reverse_index_inverts_forward_graph
              (Fixtures.offline "D" None None false)
              (Fixtures.text_world Fixtures.cycle_test) "fixture.txt"
              [("A", ["B"]); ("B", ["C"]); ("C", ["A"]); ("D", ["E"]);
               ("E", ["D"; "F"]); ("F", [])] 10 0)
    as ((st0 & Hb & Hg & _) & _ & (st & Hst & _ & Hperm)).
  - reflexivity.
  - reflexivity.
  - intros t. reflexivity.
  - reflexivity.
  - reflexivity.
  - simpl. lia.
  - split; [by exists st0|]. exists st. split; [exact Hst|apply Hperm].
Defined.

(** * How a run over an offline repository ends *)

Lemma holds_dictionary_nonempty w path (packages : graph) :
  holds_dictionary w path packages -> packages <> [].
Proof.
  intros Hh Hnil. specialize (Hh O). subst packages.
  destruct (file_system w path O) as [content|files|]; [| |done].
  - unfold TestRepository.load_test_repository in Hh.
    by destruct (fold_left _ _ _).
  - unfold Nuspec.load_offline_repository in Hh.
    destruct files; [done|]. by destruct (fold_left _ _ _).
Qed.

Lemma find_Some_elem_of {V} (d : PyDict.t V) k v :
  PyDict.find d k = Some v -> (k, v) ∈ d.
Proof.
  induction d as [|[k0 v0] d IH]; simpl; [done|].
  destruct (String.eqb_spec k0 k) as [->|Hne].
  - intros [= ->]. apply list_elem_of_here.
  - intros H. apply list_elem_of_further. by apply IH.
Qed.

(** The names that occur in the lists of a dictionary. *)
Definition listed (g : graph) : names := concat (map snd g).

Lemma length_listed g : length (listed g) = edge_count g.
Proof.
  unfold listed, edge_count.
  induction g as [|[k l] g IH]; [done|].
  cbn [map snd concat sum_list sum_list_with]. rewrite length_app, IH.
  reflexivity.
Qed.

Lemma elem_of_get_listed (g : graph) n x :
  x ∈ PyDict.get g n [] -> x ∈ listed g.
Proof.
  unfold PyDict.get. destruct (PyDict.find g n) as [l|] eqn:Hl;
    [|intros H; by apply elem_of_nil in H].
  intros Hx. apply find_Some_elem_of in Hl. unfold listed.
  apply list_elem_of_In, in_concat. exists l.
  split; [|by apply list_elem_of_In].
  apply in_map_iff. exists (n, l). split; [done|by apply list_elem_of_In].
Qed.

(** A traversal records no package but the one it is called on and the
    ones its lookups name. *)
Lemma traverse_keys_among config lookup (A : string -> Prop) :
  (forall n s x, x ∈ fst (lookup n s) -> A x) ->
  (forall n s, same_core s (snd (lookup n s))) ->
  forall fuel n d p st st',
    traverse config lookup fuel n d p st = Some st' ->
    A n ->
    (forall k, k ∈ PyDict.keys (dependency_graph st) -> A k) ->
    forall k, k ∈ PyDict.keys (dependency_graph st') -> A k.
Proof.
  intros Hans Hcore.
  induction fuel as [|fuel IH]; intros n d p st st' H Hn Hst; [done|].
  apply traverse_cases in H.
  destruct H as [Hd ->|Hd Hp ->|Hd Hp Hs ->|Hd Hp Hs Hv ->|Hd Hp Hs Hv H];
    try (simpl; exact Hst).
  revert H.
  apply (for_each_invariant
           (fun s => forall k, k ∈ PyDict.keys (dependency_graph s) -> A k)).
  - unfold expand. simpl. intros k Hk.
    apply elem_of_keys_set in Hk as [->|Hk]; [done|].
    destruct (Hcore n (print (AnalysisPrinted n d) (add_visited n st)))
      as (Hg & _).
    rewrite <- Hg in Hk. by apply Hst.
  - intros x s s' Hx Hs' Hcall. unfold expand in Hx. simpl in Hx.
    eapply IH; [exact Hcall| |exact Hs']. eapply Hans. exact Hx.
Qed.

(** The graph of a forward build over a repository that holds [g] has at
    most one key more than [g] has edges. *)
Lemma forward_graph_size config w path g fuel t st :
  work_mode config = Offline ->
  test_repo_path config = Some path ->
  holds_dictionary w path g ->
  bfs_build_dependency_graph config (source_of config w) fuel
    (package_name config) 0 [] (initial_state t) = Some st ->
  (length (dependency_graph st) <= 1 + edge_count g)%nat.
Proof.
  intros Hm Hp Hh Hst.
  pose proof (offline_source_lookup config w path g Hm Hp Hh) as Hsrc.
  rewrite bfs_build_dependency_graph_traverse in Hst.
  assert (NoDup (PyDict.keys (dependency_graph st))) as Hnd.
  { eapply traverse_NoDup_keys; [|exact Hst|apply NoDup_nil_2].
    intros m s. apply get_dependencies_spec. }
  assert (forall k, k ∈ PyDict.keys (dependency_graph st) ->
                    k ∈ package_name config :: listed g) as Hin.
  { eapply (traverse_keys_among config (get_dependencies (source_of config w))
              (fun x => x ∈ package_name config :: listed g));
      [| |exact Hst|apply list_elem_of_here|].
    - intros n s x. unfold get_dependencies. rewrite Hsrc. simpl.
      intros Hx. apply list_elem_of_further. by eapply elem_of_get_listed.
    - intros n s. apply get_dependencies_spec.
    - intros k Hk. by apply elem_of_nil in Hk. }
  apply NoDup_submseteq in Hin; [|done].
  apply submseteq_length in Hin.
  unfold PyDict.keys in Hin. rewrite length_map in Hin.
  simpl in Hin. rewrite length_listed in Hin. lia.
Qed.

(** On an acyclic graph the level loop returns as soon as the fuel
    reaches the number of keys. *)
Lemma dependency_levels_total g fuel :
  acyclic g -> (length g <= fuel)%nat -> is_Some (dependency_levels fuel g).
Proof.
  intros Hacyc Hfuel. unfold dependency_levels.
  assert (forall ks acc,
            (forall k, k ∈ ks -> k ∈ PyDict.keys g) ->
            is_Some
              (foldl (fun acc package =>
                        levels ← acc;
                        level ← calculate_dependency_level fuel g package;
                        Some (levels_append levels level package))
                 (Some acc) ks)) as Hfold.
  { induction ks as [|k ks IH]; intros acc Hks; [by eexists|].
    cbn [foldl].
    destruct (calculate_dependency_level_total g Hacyc fuel k [])
      as [level Hlevel].
    - apply NoDup_nil_2.
    - intros x Hx. by apply elem_of_nil in Hx.
    - apply Hks, list_elem_of_here.
    - simpl. lia.
    - rewrite Hlevel. simpl. apply IH. intros k' Hk'.
      by apply Hks, list_elem_of_further. }
  by apply Hfold.
Qed.

Lemma display_returns_acyclic fuel config st :
  acyclic (dependency_graph st) ->
  (length (dependency_graph st) <= fuel)%nat ->
  display_returns fuel config st = true.
Proof.
  intros Hacyc Hfuel. unfold display_returns.
  destruct (dependency_levels_total _ _ Hacyc Hfuel) as [levels ->].
  destruct (dependency_graph st); [done|]. by destruct (reverse_mode config).
Qed.

Lemma display_returns_diverging fuel config st :
  reverse_mode config = false ->
  dependency_levels fuel (dependency_graph st) = None ->
  display_returns fuel config st = false.
Proof.
  intros Hrev Hnone. unfold display_returns. rewrite Hrev, Hnone.
  destruct (dependency_graph st); [discriminate Hnone|done].
Qed.

(** X4. Over an offline repository that holds a dictionary, with an
    allowed nesting above the number of its entries plus the number of
    its edges, no traversal runs out of nested calls, whatever the root,
    depth limit and filter. A reverse run finishes. A forward run
    finishes when the graph it recorded is acyclic; when, without depth
    limit and filter, the root reaches a cycle, its level loop exceeds
    any allowed nesting and the run ends through [sys.exit(1)] after the
    graph was built. *)
Theorem run_over_offline_repository_ends config w path g fuel t :
  work_mode config = Offline ->
  test_repo_path config = Some path ->
  holds_dictionary w path g ->
  (length g + edge_count g < fuel)%nat ->
  (reverse_mode config = true ->
   exists st, run fuel config w t = Finished st)
  /\ (reverse_mode config = false ->
      exists st,
        bfs_build_dependency_graph config (source_of config w) fuel
          (package_name config) 0 [] (initial_state t) = Some st
        /\ (acyclic (dependency_graph st) ->
            run fuel config w t = Finished st)
        /\ (max_depth config = None ->
            filter_substring config = None ->
            forall u,
              rtc (fixture_edge g) (package_name config) u ->
              tc (fixture_edge g) u u ->
              run fuel config w t = Exit1 RecursionError st)).
Proof.
  intros Hm Hp Hh Hfuel.
  pose proof (offline_source_lookup config w path g Hm Hp Hh) as Hsrc.
  pose proof (holds_dictionary_nonempty _ _ _ Hh) as Hne.
  assert (1 <= length g)%nat as Hlen by (destruct g; [done|simpl; lia]).
  split.
  - intros Hrev.
    destruct (build_complete_loaded config w path t g Hm Hp (Hh t))
      as (st0 & Hb & _ & Hr & _).
    destruct (reverse_terminates config fuel (package_name config) 0 [] st0)
      as (st & Hrun).
    { rewrite Hr. unfold TestRepository.build_reverse_dependencies.
      pose proof (invert_into_length_le g PyDict.empty) as Hle.
      unfold edge_count in Hfuel. simpl in Hle. lia. }
    exists st. by apply (run_reverse fuel config w t st0 st).
  - intros Hrev.
    destruct (forward_terminates config (source_of config w)
                (list_to_set (PyDict.keys g)) fuel (package_name config) 0 []
                (initial_state t)) as (st & Hst).
    { intros t0 k l Hk Hnonempty. rewrite Hsrc in Hk. injection Hk as <-.
      by apply get_nonempty_key. }
    { pose proof (size_list_to_set_le (PyDict.keys g)) as Hle.
      unfold PyDict.keys in Hle. rewrite length_map in Hle.
      unfold PyDict.keys. lia. }
    exists st. split; [exact Hst|].
    rewrite (run_forward fuel config w t st Hrev Hst). split.
    + intros Hacyc. rewrite display_returns_acyclic; [done|done|].
      pose proof (forward_graph_size config w path g fuel t st Hm Hp Hh Hst).
      lia.
    + intros Hmax Hfilter u Hu Hcyc.
      assert (forall k, successors (source_of config w) k = PyDict.get g k [])
        as Hsucc.
      { intros k. unfold successors. by rewrite Hsrc. }
      destruct (levels_diverge_after_cyclic_build config (source_of config w)
                  fuel (package_name config) t st u) with (fuel' := fuel)
        as (_ & Hnone); try done.
      * intros t1 t2 k. by rewrite !Hsrc.
      * revert Hu. apply (rtc_congruence id). intros x y.
        unfold edge, fixture_edge. by rewrite Hsucc.
      * revert Hcyc. apply (tc_congruence id). intros x y.
        unfold edge, fixture_edge. by rewrite Hsucc.
      * by rewrite display_returns_diverging.
Qed.

Lemma run_over_offline_repository_ends_witness :
  (exists st,
      run 20 (Fixtures.offline "F" (Some 2) (Some "x") true)
        (Fixtures.text_world Fixtures.cycle_test) 0 = Finished st)
  /\ (exists st,
        run 20 (Fixtures.offline "A" None None false)
          (Fixtures.text_world Fixtures.cycle_test) 0
        = Exit1 RecursionError st
        /\ cycle_detected st = true).
Proof.
  split.
  - apply (run_over_offline_repository_ends
             (Fixtures.offline "F" (Some 2) (Some "x") true)
             (Fixtures.text_world Fixtures.cycle_test) "fixture.txt"
             [("A", ["B"]); ("B", ["C"]); ("C", ["A"]); ("D", ["E"]);
              ("E", ["D"; "F"]); ("F", [])] 20 0);
      [reflexivity|reflexivity|intros t; reflexivity|unfold edge_count; simpl; lia|reflexivity].
  - destruct (run_over_offline_repository_ends
                (Fixtures.offline "A" None None false)
                (Fixtures.text_world Fixtures.cycle_test) "fixture.txt"
                [("A", ["B"]); ("B", ["C"]); ("C", ["A"]); ("D", ["E"]);
                 ("E", ["D"; "F"]); ("F", [])] 20 0)
      as (_ & Hforward);
      [reflexivity|reflexivity|intros t; reflexivity|unfold edge_count; simpl; lia|].
    destruct (Hforward eq_refl) as (st & Hst & _ & Hcyclic).
    exists st. split.
    + apply (Hcyclic eq_refl eq_refl "A"); [apply rtc_refl|].
      apply (tc_l _ "A" "B" "A"); [unfold fixture_edge; simpl; set_solver|].
      apply (tc_l _ "B" "C" "A"); [unfold fixture_edge; simpl; set_solver|].
      apply tc_once. unfold fixture_edge. simpl. set_solver.
    + vm_compute in Hst. injection Hst as <-. reflexivity.
Defined.

(** * What the filter skips and what it keeps *)



Section Kept.

Variable config : Config.
Variable lookup : string -> State -> names * State.

Hypothesis lookup_frame : forall m s,
    same_core s (snd (lookup m s))
    /\ (clock s <= clock (snd (lookup m s)))%nat
    /\ output s `prefix_of` output (snd (lookup m s)).




End Kept.


